(** * PyWeb_module1: the address book of [main.py]

    A shallow embedding of the core of [main.py]: the validated fields
    ([Phone], [Birthday]), [Record], [AddressBook] and the query
    [AddressBook.get_upcoming_birthdays], together with the parts of the
    Python runtime the code calls ([str.isdigit], [datetime.strptime],
    [date] arithmetic, [strftime]).  The methods of [Bot] other than [run]
    are embedded too, over the abstract [UI] and a model of the console
    for [ConsoleUI].

    Conventions.
    - A Python [str] is a Rocq [string]; a character of the model is a code
      point in U+0000..U+00FF (the Latin-1 block), so every statement about
      "every string" ranges over strings of such characters.  The Cyrillic
      messages and labels of the program are only ever concatenated or
      compared; they are carried as the UTF-8 bytes of the literal.
    - Python integers are [Z]; [//] and [%] are [Z.div] and [Z.modulo].
    - A method that mutates its object is a state transformer that also
      returns either its value or the exception it raised; the state
      reached when an exception escapes is kept. *)

From Stdlib Require Import ZArith List String Ascii Bool Lia.
Import ListNotations.
Local Open Scope string_scope.
Local Open Scope Z_scope.

(** ** Exceptions and the state-and-exception monad *)

Inductive exn : Type :=
| ValueError (msg : string)
| KeyError (msg : string)
| OverflowError (msg : string).

Inductive result (A : Type) : Type :=
| Ok (a : A)
| Raise (e : exn).
Arguments Ok {A} a.
Arguments Raise {A} e.

Definition is_ok {A} (r : result A) : bool :=
  match r with Ok _ => true | Raise _ => false end.

(** Pure code that may raise. *)
Definition rbind {A B} (r : result A) (f : A -> result B) : result B :=
  match r with Ok a => f a | Raise e => Raise e end.

(** Code that runs on a mutable object of type [S]. *)
Definition M (S A : Type) : Type := S -> result A * S.

Definition ret {S A} (a : A) : M S A := fun s => (Ok a, s).
Definition raise {S A} (e : exn) : M S A := fun s => (Raise e, s).
Definition bind {S A B} (m : M S A) (f : A -> M S B) : M S B :=
  fun s => match m s with
           | (Ok a, s') => f a s'
           | (Raise e, s') => (Raise e, s')
           end.
Definition get {S} : M S S := fun s => (Ok s, s).
Definition put {S} (s : S) : M S unit := fun _ => (Ok tt, s).
Definition lift {S A} (r : result A) : M S A := fun s => (r, s).

Declare Scope py_scope.
Delimit Scope py_scope with py.
Notation "x <- m ;; k" := (bind m (fun x => k))
  (at level 61, m at next level, right associativity) : py_scope.
Notation "m ;;; k" := (bind m (fun _ => k))
  (at level 61, right associativity) : py_scope.

(** ** The [datetime.date] of the Python runtime *)

Module PyDate.

Record date : Type := mkdate { year : Z; month : Z; day : Z }.

Definition MINYEAR : Z := 1.
Definition MAXYEAR : Z := 9999.
Definition _MAXORDINAL : Z := 3652059.

Definition _DAYS_IN_MONTH : list Z :=
  [-1; 31; 28; 31; 30; 31; 30; 31; 31; 30; 31; 30; 31].

Definition _DAYS_BEFORE_MONTH : list Z :=
  [-1; 0; 31; 59; 90; 120; 151; 181; 212; 243; 273; 304; 334].

Definition index (l : list Z) (i : Z) : Z := nth (Z.to_nat i) l 0.

Definition _is_leap (y : Z) : bool :=
  (y mod 4 =? 0) && (negb (y mod 100 =? 0) || (y mod 400 =? 0)).

Definition _days_before_year (y0 : Z) : Z :=
  let y := y0 - 1 in y * 365 + y / 4 - y / 100 + y / 400.

Definition _days_in_month (y m : Z) : Z :=
  if (m =? 2) && _is_leap y then 29 else index _DAYS_IN_MONTH m.

Definition _days_before_month (y m : Z) : Z :=
  index _DAYS_BEFORE_MONTH m + (if (2 <? m) && _is_leap y then 1 else 0).

Definition _ymd2ord (y m d : Z) : Z :=
  _days_before_year y + _days_before_month y m + d.

Definition _DI400Y : Z := 146097.
Definition _DI100Y : Z := 36524.
Definition _DI4Y : Z := 1461.

(** [divmod(a, b)] *)
Definition divmod (a b : Z) : Z * Z := Z.div_eucl a b.

Definition _ord2ymd (n0 : Z) : date :=
  let n := n0 - 1 in
  let '(n400, n) := divmod n _DI400Y in
  let y := n400 * 400 + 1 in
  let '(n100, n) := divmod n _DI100Y in
  let '(n4, n) := divmod n _DI4Y in
  let '(n1, n) := divmod n 365 in
  let y := y + (n100 * 100 + n4 * 4 + n1) in
  if (n1 =? 4) || (n100 =? 4) then mkdate (y - 1) 12 31
  else
    let leapyear := (n1 =? 3) && (negb (n4 =? 24) || (n100 =? 3)) in
    let m := Z.shiftr (n + 50) 5 in
    let preceding :=
      index _DAYS_BEFORE_MONTH m + (if (2 <? m) && leapyear then 1 else 0) in
    if n <? preceding then
      let m := m - 1 in
      let preceding :=
        preceding
        - (index _DAYS_IN_MONTH m + (if (m =? 2) && leapyear then 1 else 0)) in
      mkdate y m (n - preceding + 1)
    else mkdate y m (n - preceding + 1).

(** [_check_date_fields]: the test the constructor [date(y, m, d)] makes.
    The constructor raises [ValueError]; the text of the runtime's own
    messages is not part of the model. *)
Definition valid_fields (y m d : Z) : bool :=
  (MINYEAR <=? y) && (y <=? MAXYEAR)
  && (1 <=? m) && (m <=? 12)
  && (1 <=? d) && (d <=? _days_in_month y m).

Definition valid (t : date) : bool :=
  valid_fields (year t) (month t) (day t).

Definition new (y m d : Z) : result date :=
  if negb ((MINYEAR <=? y) && (y <=? MAXYEAR)) then
    Raise (ValueError "year must be in 1..9999")
  else if negb ((1 <=? m) && (m <=? 12)) then
    Raise (ValueError "month must be in 1..12")
  else if negb ((1 <=? d) && (d <=? _days_in_month y m)) then
    Raise (ValueError "day is out of range for month")
  else Ok (mkdate y m d).

(** [t.replace(year=y)] *)
Definition replace_year (t : date) (y : Z) : result date :=
  new y (month t) (day t).

Definition toordinal (t : date) : Z := _ymd2ord (year t) (month t) (day t).

Definition fromordinal (n : Z) : date := _ord2ymd n.

Definition weekday (t : date) : Z := (toordinal t + 6) mod 7.

(** [a < b] on dates compares (year, month, day) lexicographically. *)
Definition lt (a b : date) : bool :=
  (year a <? year b)
  || ((year a =? year b)
      && ((month a <? month b)
          || ((month a =? month b) && (day a <? day b)))).

(** [(a - b).days] *)
Definition sub_days (a b : date) : Z := toordinal a - toordinal b.

(** [t + timedelta(days=n)] *)
Definition add_days (t : date) (n : Z) : result date :=
  let o := toordinal t + n in
  if (0 <? o) && (o <=? _MAXORDINAL) then Ok (fromordinal o)
  else Raise (OverflowError "date value out of range").

End PyDate.

(** ** Python strings *)

Module PyStr.

Definition ord (c : ascii) : Z := Z.of_N (N_of_ascii c).
Definition chr (n : Z) : ascii := ascii_of_N (Z.to_N n).

Definition len (s : string) : Z := Z.of_nat (String.length s).

(** The characters ['0']..['9']: Unicode category Nd below U+0100; what
    [\d] matches and [int] converts. *)
Definition ch_isdecimal (c : ascii) : bool :=
  (48 <=? ord c) && (ord c <=? 57).

(** [str.isdigit] on one character: the decimal characters, and the
    superscript digits U+00B2, U+00B3 and U+00B9 (Numeric_Type=Digit). *)
Definition ch_isdigit (c : ascii) : bool :=
  ch_isdecimal c || (ord c =? 178) || (ord c =? 179) || (ord c =? 185).

(** Whitespace in the sense of [str.isspace] below U+0100. *)
Definition ch_isspace (c : ascii) : bool :=
  ((9 <=? ord c) && (ord c <=? 13)) || ((28 <=? ord c) && (ord c <=? 32))
  || (ord c =? 133) || (ord c =? 160).

Fixpoint all_chars (p : ascii -> bool) (s : string) : bool :=
  match s with
  | EmptyString => true
  | String c s' => p c && all_chars p s'
  end.

(** [s.isdigit()]: every character is a digit and there is at least one. *)
Definition isdigit (s : string) : bool :=
  match s with
  | EmptyString => false
  | _ => all_chars ch_isdigit s
  end.

(** [sep.join(xs)] *)
Fixpoint join (sep : string) (xs : list string) : string :=
  match xs with
  | [] => ""
  | [x] => x
  | x :: xs' => (x ++ sep ++ join sep xs')%string
  end.

(** [x in xs] for a list of strings. *)
Definition contains (x : string) (xs : list string) : bool :=
  existsb (String.eqb x) xs.

(** The decimal digit for [0 <= d <= 9]. *)
Definition digit_char (d : Z) : ascii := chr (48 + d).

(** [n] written with exactly [w] decimal digits, zero padded. *)
Fixpoint zpad (w : nat) (n : Z) : string :=
  match w with
  | O => ""
  | S w' => (zpad w' (n / 10) ++ String (digit_char (n mod 10)) "")%string
  end.

Fixpoint lstrip (s : string) : string :=
  match s with
  | String c s' => if ch_isspace c then lstrip s' else s
  | EmptyString => s
  end.

(** The value of a run of decimal characters, most significant first;
    trailing whitespace is dropped, anything else gives [None]. *)
Fixpoint digits_value (acc : Z) (s : string) : option Z :=
  match s with
  | EmptyString => Some acc
  | String c s' =>
      if ch_isdecimal c then digits_value (acc * 10 + (ord c - 48)) s'
      else if all_chars ch_isspace s then Some acc
      else None
  end.

(** [int(s)] for an unsigned decimal literal, surrounding whitespace
    allowed: the only shapes the groups of the date pattern can take
    (signs and underscores are left out). *)
Definition int (s : string) : result Z :=
  match lstrip s with
  | EmptyString => Raise (ValueError "invalid literal for int()")
  | t => match digits_value 0 t with
         | Some v => Ok v
         | None => Raise (ValueError "invalid literal for int()")
         end
  end.

End PyStr.

(** ** The fragment of [re] that [_strptime] needs *)

Module PyRe.

Inductive re : Type :=
| Eps
| Lit (c : ascii)
| Range (lo hi : ascii)
| Dig
| Cat (r1 r2 : re)
| Alt (r1 r2 : re)
| Grp (name : string) (r : re).

Definition groups : Type := list (string * string).

Definition one (c : ascii) : string := String c "".

(** Backtracking matcher: the continuation [k] receives the text matched
    by [r], what is left of the subject and the groups closed so far, and
    answers [None] to ask for the next alternative. *)
Fixpoint rmatch {A} (r : re) (s : string) (g : groups)
    (k : string -> string -> groups -> option A) : option A :=
  match r with
  | Eps => k "" s g
  | Lit c =>
      match s with
      | String a s' => if Ascii.eqb a c then k (one a) s' g else None
      | EmptyString => None
      end
  | Range lo hi =>
      match s with
      | String a s' =>
          if (PyStr.ord lo <=? PyStr.ord a) && (PyStr.ord a <=? PyStr.ord hi)
          then k (one a) s' g else None
      | EmptyString => None
      end
  | Dig =>
      match s with
      | String a s' => if PyStr.ch_isdecimal a then k (one a) s' g else None
      | EmptyString => None
      end
  | Cat r1 r2 =>
      rmatch r1 s g (fun m1 s1 g1 =>
        rmatch r2 s1 g1 (fun m2 s2 g2 => k (m1 ++ m2)%string s2 g2))
  | Alt r1 r2 =>
      match rmatch r1 s g k with
      | Some x => Some x
      | None => rmatch r2 s g k
      end
  | Grp name r' =>
      rmatch r' s g (fun m s' g' => k m s' ((name, m) :: g'))
  end.

(** [pattern.match(s)]: the first match from the start of [s], as what is
    left unmatched and the group dictionary. *)
Definition match_ (r : re) (s : string) : option (string * groups) :=
  rmatch r s [] (fun _ rest g => Some (rest, g)).

Fixpoint lookup (name : string) (g : groups) : option string :=
  match g with
  | [] => None
  | (n, v) :: g' => if String.eqb n name then Some v else lookup name g'
  end.

End PyRe.

(** ** [datetime.strptime] and [strftime] for the directives in use *)

Module PyTime.
Import PyRe.

(** The entries of [TimeRE] for [%d], [%m] and [%Y]:
    [(?P<d>3[0-1]|[1-2]\d|0[1-9]|[1-9]| [1-9])],
    [(?P<m>1[0-2]|0[1-9]|[1-9])] and [(?P<Y>\d\d\d\d)]. *)
Definition re_d : re :=
  Grp "d" (Alt (Cat (Lit "3") (Range "0" "1"))
          (Alt (Cat (Range "1" "2") Dig)
          (Alt (Cat (Lit "0") (Range "1" "9"))
          (Alt (Range "1" "9")
               (Cat (Lit " ") (Range "1" "9")))))).

Definition re_m : re :=
  Grp "m" (Alt (Cat (Lit "1") (Range "0" "2"))
          (Alt (Cat (Lit "0") (Range "1" "9"))
               (Range "1" "9"))).

Definition re_Y : re := Grp "Y" (Cat Dig (Cat Dig (Cat Dig Dig))).

Definition directive (c : ascii) : option re :=
  if Ascii.eqb c "d" then Some re_d
  else if Ascii.eqb c "m" then Some re_m
  else if Ascii.eqb c "Y" then Some re_Y
  else None.

(** [TimeRE.pattern]: a directive becomes its regex, any other character
    stands for itself (the formats in use have no whitespace). *)
Fixpoint pattern (fmt : string) : option re :=
  match fmt with
  | EmptyString => Some Eps
  | String "%" EmptyString => None
  | String "%" (String c rest) =>
      match directive c, pattern rest with
      | Some r, Some r' => Some (Cat r r')
      | _, _ => None
      end
  | String c rest =>
      match pattern rest with
      | Some r' => Some (Cat (Lit c) r')
      | None => None
      end
  end.

(** The conversion of one group, with the default [_strptime] starts from
    when the format has no such directive. *)
Definition group_int (name : string) (default : Z) (g : groups) : result Z :=
  match lookup name g with
  | Some v => PyStr.int v
  | None => Ok default
  end.

(** [datetime.strptime(data, fmt).date()] *)
Definition strptime (data fmt : string) : result PyDate.date :=
  match pattern fmt with
  | None => Raise (ValueError "bad directive in format")
  | Some r =>
      match match_ r data with
      | None => Raise (ValueError "time data does not match format")
      | Some (String _ _, _) => Raise (ValueError "unconverted data remains")
      | Some (EmptyString, g) =>
          rbind (group_int "Y" 1900 g) (fun y =>
          rbind (group_int "m" 1 g) (fun m =>
          rbind (group_int "d" 1 g) (fun d =>
          PyDate.new y m d)))
      end
  end.

(** [t.strftime(fmt)]: [%Y] is the year on four digits, as the library
    reference gives it (0001, ..., 9999), [%m] and [%d] are on two digits;
    any other character is copied.  A C library that does not pad years
    below 1000 is not modelled. *)
Fixpoint strftime (t : PyDate.date) (fmt : string) : string :=
  match fmt with
  | EmptyString => ""
  | String "%" (String c rest) =>
      ((if Ascii.eqb c "Y" then PyStr.zpad 4 (PyDate.year t)
        else if Ascii.eqb c "m" then PyStr.zpad 2 (PyDate.month t)
        else if Ascii.eqb c "d" then PyStr.zpad 2 (PyDate.day t)
        else String "%" (String c ""))
       ++ strftime t rest)%string
  | String c rest => String c (strftime t rest)
  end.

End PyTime.

(** ** Builtin [dict] with string keys

    Iteration follows insertion order, so a dictionary is the list of its
    items in that order; assignment to a key that is present keeps the
    key's place. *)

Module PyDict.

Section Dict.
Context {V : Type}.

Definition dict : Type := list (string * V).

(** [k in d] *)
Fixpoint contains (k : string) (d : dict) : bool :=
  match d with
  | [] => false
  | (k', _) :: d' => String.eqb k' k || contains k d'
  end.

(** [d[k]], [None] standing for [KeyError]. *)
Fixpoint getitem (k : string) (d : dict) : option V :=
  match d with
  | [] => None
  | (k', v) :: d' => if String.eqb k' k then Some v else getitem k d'
  end.

(** [d[k] = v] *)
Fixpoint setitem (k : string) (v : V) (d : dict) : dict :=
  match d with
  | [] => [(k, v)]
  | (k', v') :: d' =>
      if String.eqb k' k then (k', v) :: d' else (k', v') :: setitem k v d'
  end.

(** [del d[k]] on a dictionary that has [k]. *)
Fixpoint delitem (k : string) (d : dict) : dict :=
  match d with
  | [] => []
  | (k', v') :: d' =>
      if String.eqb k' k then d' else (k', v') :: delitem k d'
  end.

Definition keys (d : dict) : list string := map fst d.
Definition values (d : dict) : list V := map snd d.

(** The invariant of a dictionary: no key occurs twice. *)
Definition wf (d : dict) : Prop := NoDup (keys d).

End Dict.
Arguments dict V : clear implicits.

End PyDict.

(** ** [main.py] *)

Local Open Scope py_scope.

(** [class Field], and [Name], [Phone], [Birthday] that derive from it:
    all of them hold one attribute, [value]. *)
Record Field : Type := mkField { value : string }.

Definition Field___str__ (self : Field) : string := value self.

Definition Name : Type := Field.

Module Phone.

Definition t : Type := Field.

Definition __init__ (value : string) : t := mkField value.

Definition __str__ (self : t) : string := value self.

Definition invalid_msg : string := "Номер телефону має містити 10 цифр.".

Definition validate (self : t) : result unit :=
  if negb (PyStr.len (value self) =? 10) || negb (PyStr.isdigit (value self))
  then Raise (ValueError invalid_msg)
  else Ok tt.

End Phone.

Module Birthday.

Definition t : Type := Field.

Definition date_format : string := "%d.%m.%Y".

Definition invalid_msg : string :=
  "Неправильний формат дати. Використовуйте DD.MM.YYYY.".

Definition __init__ (value : string) : result t :=
  match PyTime.strptime value date_format with
  | Raise (ValueError _) => Raise (ValueError invalid_msg)
  | Raise e => Raise e
  | Ok _ => Ok (mkField value)
  end.

End Birthday.

(** [class Record] ([Record] is a keyword of Rocq, hence [Rec]). *)
Module Rec.

Record t : Type := mk {
  name : Name;
  phones : list Phone.t;
  birthday : option Birthday.t
}.

Definition set_phones (ps : list Phone.t) (self : t) : t :=
  mk (name self) ps (birthday self).

Definition __init__ (name : string) : t := mk (mkField name) [] None.

Definition not_found_msg : string := "Номер телефону не знайдено.".

Definition add_phone (phone : Phone.t) : M t unit :=
  lift (Phone.validate phone) ;;;
  self <- get ;;
  put (set_phones (phones self ++ [phone]) self).

Definition remove_phone (phone : string) : M t unit :=
  self <- get ;;
  put (set_phones
         (filter (fun p => negb (String.eqb (Phone.__str__ p) phone))
                 (phones self))
         self).

Definition edit_phone (old_phone new_phone : string) : M t unit :=
  self <- get ;;
  if negb (PyStr.contains old_phone (map Phone.__str__ (phones self)))
  then raise (ValueError not_found_msg)
  else
    remove_phone old_phone ;;;
    add_phone (Phone.__init__ new_phone).

Fixpoint find_in (ps : list Phone.t) (phone : string) : result string :=
  match ps with
  | [] => Raise (ValueError not_found_msg)
  | p :: ps' =>
      if String.eqb (Phone.__str__ p) phone then Ok (value p)
      else find_in ps' phone
  end.

Definition find_phone (phone : string) : M t string :=
  self <- get ;; lift (find_in (phones self) phone).

(** [str(self.birthday)]: the birthday's value, or ["None"]. *)
Definition birthday_str (b : option Birthday.t) : string :=
  match b with
  | Some f => Field___str__ f
  | None => "None"
  end.

Definition __str__ (self : t) : string :=
  let phones_str := PyStr.join "; " (map Phone.__str__ (phones self)) in
  ("Ім'я: " ++ Field___str__ (name self)
   ++ ", Телефони: " ++ phones_str
   ++ ", День народження: " ++ birthday_str (birthday self))%string.

End Rec.

Module AddressBook.

Record t : Type := mk { data : PyDict.dict Rec.t }.

Definition __init__ : t := mk [].

Definition not_found_msg : string := "Контакт не знайдено.".

Definition add_record (record : Rec.t) : M t unit :=
  self <- get ;;
  put (mk (PyDict.setitem (value (Rec.name record)) record (data self))).

Definition find (name : string) : M t Rec.t :=
  self <- get ;;
  if negb (PyDict.contains name (data self))
  then raise (KeyError not_found_msg)
  else
    match PyDict.getitem name (data self) with
    | Some r => ret r
    | None => raise (KeyError name)
    end.

Definition delete (name : string) : M t unit :=
  self <- get ;;
  if negb (PyDict.contains name (data self))
  then raise (KeyError not_found_msg)
  else put (mk (PyDict.delitem name (data self))).

(** One element of the list the query returns: the dictionary
    [{"name": ..., "congratulation_date": ...}]. *)
Record entry : Type := mkentry {
  name : string;
  congratulation_date : string
}.

(** The body of the loop for one record; [upcoming] is the list built so
    far.  [today] is what [datetime.today().date()] returned. *)
Definition visit (today : PyDate.date) (record : Rec.t)
    (upcoming : list entry) : M t (list entry) :=
  match Rec.birthday record with
  | None => ret upcoming
  | Some b =>
      parsed <- lift (PyTime.strptime (value b) "%d.%m.%Y") ;;
      birthday <- lift (PyDate.replace_year parsed (PyDate.year today)) ;;
      birthday <- (if PyDate.lt birthday today
                   then lift (PyDate.replace_year birthday
                                (PyDate.year today + 1))
                   else ret birthday) ;;
      let days_until_birthday := PyDate.sub_days birthday today in
      if (0 <=? days_until_birthday) && (days_until_birthday <=? 7) then
        let days_until_birthday :=
          if 5 <=? PyDate.weekday birthday
          then days_until_birthday + (7 - PyDate.weekday birthday)
          else days_until_birthday in
        congratulation <- lift (PyDate.add_days today days_until_birthday) ;;
        ret (upcoming
             ++ [mkentry (value (Rec.name record))
                         (PyTime.strftime congratulation "%Y.%m.%d")])%list
      else ret upcoming
  end.

(** [for record in records: ...], threading the list being built. *)
Fixpoint visit_all (today : PyDate.date) (records : list Rec.t)
    (upcoming : list entry) : M t (list entry) :=
  match records with
  | [] => ret upcoming
  | record :: rest =>
      upcoming' <- visit today record upcoming ;;
      visit_all today rest upcoming'
  end.

Definition get_upcoming_birthdays (today : PyDate.date) : M t (list entry) :=
  self <- get ;;
  visit_all today (PyDict.values (data self)) [].

End AddressBook.

(** ** The user interface and [Bot] *)

(** What can escape the code that talks to the user: the exceptions of the
    address book, and two that only arise here -- [EOFError] from [input]
    and [AttributeError] from an attribute of [None]. *)
Inductive error : Type :=
| Std (e : exn)
| EOFError
| AttributeError (msg : string).

(** How a run ends.  [OutOfFuel] is not a Python outcome: it marks a
    [while True] loop cut off after the number of rounds the model was
    given, and no handler catches it. *)
Inductive outcome (A : Type) : Type :=
| Return (a : A)
| Throw (e : error)
| OutOfFuel.
Arguments Return {A} a.
Arguments Throw {A} e.
Arguments OutOfFuel {A}.

Module IO.

Definition t (S A : Type) : Type := S -> outcome A * S.

Definition ret {S A} (a : A) : t S A := fun s => (Return a, s).
Definition throw {S A} (e : error) : t S A := fun s => (Throw e, s).
Definition bind {S A B} (m : t S A) (f : A -> t S B) : t S B :=
  fun s => match m s with
           | (Return a, s') => f a s'
           | (Throw e, s') => (Throw e, s')
           | (OutOfFuel, s') => (OutOfFuel, s')
           end.
Definition get {S} : t S S := fun s => (Return s, s).

(** Pure code that may raise, run here. *)
Definition lift {S A} (r : result A) : t S A :=
  fun s => match r with
           | Ok a => (Return a, s)
           | Raise e => (Throw (Std e), s)
           end.

(** [try: body except ...: handler]: [handler e] is the clause that catches
    [e], if there is one; it runs in the state the exception left. *)
Definition try_except {S A} (body : t S A)
    (handler : error -> option (t S A)) : t S A :=
  fun s => match body s with
           | (Throw e, s') =>
               match handler e with
               | Some h => h s'
               | None => (Throw e, s')
               end
           | r => r
           end.

(** [while True: body], cut off after [fuel] rounds.  The body returns
    [Some a] when it leaves the loop by [break] (with [a] the variable it
    has set) and [None] when it reaches its end and goes round again. *)
Fixpoint while_true {S A} (fuel : nat) (body : t S (option A)) : t S A :=
  match fuel with
  | O => fun s => (OutOfFuel, s)
  | Datatypes.S fuel' =>
      fun s => match body s with
               | (Return (Some a), s') => (Return a, s')
               | (Return None, s') => while_true fuel' body s'
               | (Throw e, s') => (Throw e, s')
               | (OutOfFuel, s') => (OutOfFuel, s')
               end
  end.

End IO.

Declare Scope io_scope.
Delimit Scope io_scope with io.
Notation "x <- m ;; k" := (IO.bind m (fun x => k))
  (at level 61, m at next level, right associativity) : io_scope.
Notation "m ;;; k" := (IO.bind m (fun _ => k))
  (at level 61, right associativity) : io_scope.

(** [class UI(abc.ABC)]: the two abstract methods, over the state [U] of
    the object that implements them. *)
Class UI (U : Type) : Type := {
  get_input : string -> IO.t U string;
  display_info : string -> IO.t U unit
}.

(** The terminal: the lines still to be read from standard input, and
    the pieces of text written to standard output so far. *)
Module Console.

Record t : Type := mk { stdin : list string; stdout : list string }.

Definition newline : string := String "010" "".

(** [input(prompt)]: writes the prompt, reads one line (without its line
    end); [EOFError] when no line is left. *)
Definition input (prompt : string) : IO.t t string :=
  fun c => match stdin c with
           | [] => (Throw EOFError, mk [] (stdout c ++ [prompt]))
           | line :: rest => (Return line, mk rest (stdout c ++ [prompt]))
           end.

(** [print(info)] for a string. *)
Definition print (info : string) : IO.t t unit :=
  fun c => (Return tt, mk (stdin c) (stdout c ++ [info ++ newline])).

End Console.

(** [class ConsoleUI(UI)] *)
#[export] Instance ConsoleUI : UI Console.t := {
  get_input := Console.input;
  display_info := Console.print
}.

Module Bot.

Section WithUI.
Context {U : Type} {ui_methods : UI U}.

Record t : Type := mk { address_book : AddressBook.t; ui : U }.

(** A call of a method of [self.address_book]. *)
Definition on_book {A} (m : M AddressBook.t A) : IO.t t A :=
  fun self => match m (address_book self) with
              | (Ok a, book) => (Return a, mk book (ui self))
              | (Raise e, book) => (Throw (Std e), mk book (ui self))
              end.

(** A call of a method of [self.ui]. *)
Definition on_ui {A} (m : IO.t U A) : IO.t t A :=
  fun self => let '(r, u) := m (ui self) in (r, mk (address_book self) u).

(** [record.birthday = b] *)
Definition set_birthday (b : option Birthday.t) (record : Rec.t) : Rec.t :=
  Rec.mk (Rec.name record) (Rec.phones record) b.

(** [record.birthday = b] for the record that [find(name)] returned: the
    object is the one the dictionary holds under [name], so the change
    shows there.  (Every record of a directory is an object of its own:
    [add_user] makes a new one for each contact.) *)
Definition assign_birthday (name : string) (record : Rec.t)
    (b : Birthday.t) : M AddressBook.t unit :=
  (self <- get ;;
   put (AddressBook.mk
          (PyDict.setitem name (set_birthday (Some b) record)
             (AddressBook.data self))))%py.

Definition add_user (fuel : nat) (name : string) : IO.t t unit :=
  (dob <- IO.while_true fuel
            (dob_input <- on_ui (get_input
                                   "Введіть дату народження (DD.MM.YYYY): ") ;;
             IO.try_except
               (dob <- IO.lift (Birthday.__init__ dob_input) ;;
                IO.ret (Some dob))
               (fun e => match e with
                         | Std (ValueError msg) => Some (
                             on_ui (display_info ("Помилка: " ++ msg)) ;;;
                             on_ui (display_info
                               "Будь ласка, введіть дату у правильному форматі.") ;;;
                             IO.ret None)
                         | _ => None
                         end)) ;;
   phone <- IO.while_true fuel
              (phone_input <- on_ui (get_input "Введіть номер телефону: ") ;;
               IO.try_except
                 (IO.ret (Some (Phone.__init__ phone_input)))
                 (fun e => match e with
                           | Std (ValueError msg) => Some (
                               on_ui (display_info ("Помилка: " ++ msg)) ;;;
                               on_ui (display_info
                                 "Будь ласка, введіть номер у правильному форматі.") ;;;
                               IO.ret None)
                           | _ => None
                           end)) ;;
   let record := Rec.__init__ name in
   let record := set_birthday (Some dob) record in
   match Rec.add_phone phone record with
   | (Raise e, _) => IO.throw (Std e)
   | (Ok _, record) =>
       on_book (AddressBook.add_record record) ;;;
       on_ui (display_info "Контакт додано успішно.")
   end)%io.

Definition get_user_info (name : string) : IO.t t string :=
  (IO.try_except
     (record <- on_book (AddressBook.find name) ;;
      IO.ret (Rec.__str__ record))
     (fun e => match e with
               | Std (KeyError _) => Some (IO.ret "Контакт не знайдено.")
               | _ => None
               end))%io.

Definition list_all_users : IO.t t string :=
  (self <- IO.get ;;
   match AddressBook.data (address_book self) with
   | [] => IO.ret "Немає доступних контактів."
   | data =>
       IO.ret (PyStr.join Console.newline
                 (map (fun record => value (Rec.name record))
                      (PyDict.values data)))
   end)%io.

Definition add_birthday (name dob : string) : IO.t t unit :=
  (IO.try_except
     (record <- on_book (AddressBook.find name) ;;
      b <- IO.lift (Birthday.__init__ dob) ;;
      on_book (assign_birthday name record b) ;;;
      on_ui (display_info
               ("День народження додано/оновлено для " ++ name ++ ".")))
     (fun e => match e with
               | Std (ValueError msg) => Some (
                   on_ui (display_info ("Помилка: " ++ msg)) ;;;
                   on_ui (display_info
                     "Будь ласка, введіть дату у правильному форматі."))
               | Std (KeyError _) =>
                   Some (on_ui (display_info "Контакт не знайдено."))
               | _ => None
               end))%io.

Definition show_birthday (name : string) : IO.t t string :=
  (IO.try_except
     (record <- on_book (AddressBook.find name) ;;
      match Rec.birthday record with
      | Some b =>
          IO.ret ("День народження " ++ name ++ " на " ++ value b ++ ".")
      | None =>
          IO.throw
            (AttributeError "'NoneType' object has no attribute 'value'")
      end)
     (fun e => match e with
               | Std (KeyError _) => Some (IO.ret "Контакт не знайдено.")
               | _ => None
               end))%io.

(** [today] is what [datetime.today().date()] returns inside the query. *)
Definition birthdays (today : PyDate.date) : IO.t t string :=
  (upcoming_birthdays <-
     on_book (AddressBook.get_upcoming_birthdays today) ;;
   match upcoming_birthdays with
   | [] => IO.ret "Немає наближених днів народження."
   | _ =>
       IO.ret (PyStr.join Console.newline
                 (map (fun birthday =>
                         AddressBook.name birthday ++ " - "
                         ++ AddressBook.congratulation_date birthday)
                      upcoming_birthdays))
   end)%io.

End WithUI.
Arguments t U : clear implicits.

End Bot.

(** * Auxiliary definitions for the properties *)

Module PyDateChecks.
Import PyDate.

(** A bounded search: [p] holds at [z], [z + 1], ..., [z + fuel - 1]. *)
Fixpoint all_from (p : Z -> bool) (fuel : nat) (z : Z) : bool :=
  match fuel with
  | O => true
  | S fuel' => if p z then all_from p fuel' (z + 1) else false
  end.

(** [_days_in_month] and [_days_before_month] as functions of the leap
    flag of the year. *)
Definition dim_flag (leap : bool) (m : Z) : Z :=
  if (m =? 2) && leap then 29 else index _DAYS_IN_MONTH m.

Definition dbm_flag (leap : bool) (m : Z) : Z :=
  index _DAYS_BEFORE_MONTH m + (if (2 <? m) && leap then 1 else 0).

(** The end of [_ord2ymd]: month and day from the offset in the year. *)
Definition month_day (leapyear : bool) (n : Z) : Z * Z :=
  let m := Z.shiftr (n + 50) 5 in
  let preceding :=
    index _DAYS_BEFORE_MONTH m + (if (2 <? m) && leapyear then 1 else 0) in
  if n <? preceding then
    let m := m - 1 in
    let preceding :=
      preceding
      - (index _DAYS_IN_MONTH m + (if (m =? 2) && leapyear then 1 else 0)) in
    (m, n - preceding + 1)
  else (m, n - preceding + 1).

(** The leap flag [_ord2ymd] computes from the place of the year in its
    400-year cycle. *)
Definition leap_flag (n100 n4 n1 : Z) : bool :=
  (n1 =? 3) && (negb (n4 =? 24) || (n100 =? 3)).

(** Tables small enough to be checked by evaluation: every offset in a
    year, every month and day, every year of a cycle. *)
Definition offset_ok (leap : bool) (n : Z) : bool :=
  let '(m, d) := month_day leap n in
  (1 <=? m) && (m <=? 12) && (1 <=? d) && (d <=? dim_flag leap m)
  && (dbm_flag leap m + d =? n + 1).

Definition fields_ok (leap : bool) (m d : Z) : bool :=
  if d <=? dim_flag leap m then
    let '(m', d') := month_day leap (dbm_flag leap m + d - 1) in
    (m' =? m) && (d' =? d) && (0 <=? dbm_flag leap m + d - 1)
    && (dbm_flag leap m + d - 1 <? (if leap then 366 else 365))
  else true.

Definition flag_ok (y : Z) : bool :=
  Bool.eqb (_is_leap y)
    (leap_flag ((y - 1) / 100) (((y - 1) mod 100) / 4) ((y - 1) mod 4)).

(** The two directions of the correspondence between dates and ordinals,
    on the first 400-year cycle. *)
Definition cycle_ord_ok (r : Z) : bool :=
  let t := _ord2ymd (r + 1) in
  (toordinal t =? r + 1)
  && (1 <=? year t) && (year t <=? (if r <? 145731 then 399 else 400))
  && (1 <=? month t) && (month t <=? 12)
  && (1 <=? day t) && (day t <=? _days_in_month (year t) (month t)).

Definition cycle_day_ok (y m d : Z) : bool :=
  if d <=? _days_in_month y m then
    let n := _ymd2ord y m d in
    let t := _ord2ymd n in
    (1 <=? n) && (n <=? (if y <? 400 then 145731 else 146097))
    && (year t =? y) && (month t =? m) && (day t =? d)
  else true.

Definition shift_year (k : Z) (t : date) : date :=
  mkdate (year t + k) (month t) (day t).

End PyDateChecks.

(** ** The loop body of the query, as functions of the record *)

Module Sched.
Import PyDate.

(** The occurrence of a birthday the query works with: the parsed date
    moved to the year of [today], or to the next year when that is past. *)
Definition occurrence (today parsed : date) : result date :=
  rbind (replace_year parsed (year today)) (fun birthday =>
    if lt birthday today then replace_year birthday (year today + 1)
    else Ok birthday).

(** The days added to [today]: the distance to the occurrence, moved to
    the Monday after a Saturday or a Sunday. *)
Definition shifted_days (today birthday : date) : Z :=
  let days := sub_days birthday today in
  if 5 <=? weekday birthday then days + (7 - weekday birthday) else days.

Definition in_window (today birthday : date) : bool :=
  (0 <=? sub_days birthday today) && (sub_days birthday today <=? 7).

(** What the loop body does once the stored string has been parsed. *)
Definition schedule (today : date) (name : string) (parsed : date)
    (upcoming : list AddressBook.entry) : result (list AddressBook.entry) :=
  rbind (occurrence today parsed) (fun birthday =>
    if in_window today birthday then
      rbind (add_days today (shifted_days today birthday)) (fun c =>
        Ok (upcoming
            ++ [AddressBook.mkentry name (PyTime.strftime c "%Y.%m.%d")])%list)
    else Ok upcoming).

(** The loop body as a function of the record alone. *)
Definition visit_result (today : date) (record : Rec.t)
    (upcoming : list AddressBook.entry) : result (list AddressBook.entry) :=
  match Rec.birthday record with
  | None => Ok upcoming
  | Some b =>
      rbind (PyTime.strptime (value b) "%d.%m.%Y") (fun parsed =>
        schedule today (value (Rec.name record)) parsed upcoming)
  end.

Fixpoint visit_all_result (today : date) (records : list Rec.t)
    (upcoming : list AddressBook.entry) : result (list AddressBook.entry) :=
  match records with
  | [] => Ok upcoming
  | r :: rest =>
      rbind (visit_result today r upcoming) (visit_all_result today rest)
  end.

End Sched.

(** ** What the date pattern matches *)

Module PyTimeSpec.
Import PyStr PyRe PyTime.

(** What a regex matches, and the groups it closes: the declarative
    counterpart of [rmatch]. *)
Inductive Matches : re -> string -> groups -> groups -> Prop :=
| M_Eps g : Matches Eps "" g g
| M_Lit c g : Matches (Lit c) (one c) g g
| M_Range lo hi c g :
    ord lo <= ord c <= ord hi -> Matches (Range lo hi) (one c) g g
| M_Dig c g : ch_isdecimal c = true -> Matches Dig (one c) g g
| M_Cat r1 r2 m1 m2 g g1 g2 :
    Matches r1 m1 g g1 -> Matches r2 m2 g1 g2 ->
    Matches (Cat r1 r2) (m1 ++ m2) g g2
| M_AltL r1 r2 m g g' : Matches r1 m g g' -> Matches (Alt r1 r2) m g g'
| M_AltR r1 r2 m g g' : Matches r2 m g g' -> Matches (Alt r1 r2) m g g'
| M_Grp name r m g g' :
    Matches r m g g' -> Matches (Grp name r) m g ((name, m) :: g').

(** The spellings of a day and of a month that the pattern accepts: two
    digits, and below ten also the bare digit and, for a day, the digit
    after a space. *)
Definition day_forms (d : Z) : list string :=
  zpad 2 d :: (if d <? 10 then [zpad 1 d; String " " (zpad 1 d)] else []).

Definition month_forms (m : Z) : list string :=
  zpad 2 m :: (if m <? 10 then [zpad 1 m] else []).

Definition pattern_dmY : re :=
  Cat re_d (Cat (Lit ".") (Cat re_m (Cat (Lit ".") (Cat re_Y Eps)))).

Definition pattern_Ymd : re :=
  Cat re_Y (Cat (Lit ".") (Cat re_m (Cat (Lit ".") (Cat re_d Eps)))).

End PyTimeSpec.

Import Sched PyTimeSpec.

(** ** Predicates and sample data of the claims *)

Definition is_ValueError (e : exn) : Prop := exists msg, e = ValueError msg.

(** The phones left once every phone equal to [phone] is removed. *)
Definition without (phone : string) (ps : list Phone.t) : list Phone.t :=
  filter (fun p => negb (String.eqb (Phone.__str__ p) phone)) ps.

(** Validity of a phone in the words of the specification: ten characters,
    each a decimal digit. *)
Definition ten_decimal_digits (s : string) : Prop :=
  String.length s = 10%nat /\ PyStr.all_chars PyStr.ch_isdecimal s = true.

(** A string of ASCII characters. *)
Definition is_ascii (s : string) : bool :=
  PyStr.all_chars (fun c => PyStr.ord c <? 128) s.

(** Validity as the code tests it: ten characters, each accepted by
    [str.isdigit]. *)
Definition ten_digits (s : string) : Prop :=
  String.length s = 10%nat /\ PyStr.all_chars PyStr.ch_isdigit s = true.

(** Nine decimal digits followed by SUPERSCRIPT TWO (U+00B2). *)
Definition superscript_phone : string := "123456789" ++ String "178" "".

(** The digits of [str.isdigit] below U+0100 that are not decimal digits:
    SUPERSCRIPT TWO, THREE and ONE (U+00B2, U+00B3, U+00B9). *)
Definition ch_superscript (c : ascii) : bool :=
  (PyStr.ord c =? 178) || (PyStr.ord c =? 179) || (PyStr.ord c =? 185).

(** Some character of the string satisfies [p]. *)
Fixpoint any_char (p : ascii -> bool) (s : string) : bool :=
  match s with
  | EmptyString => false
  | String c s' => p c || any_char p s'
  end.

(** The entries one record contributes; none when its visit raises. *)
Definition entries_of (today : PyDate.date) (r : Rec.t)
  : list AddressBook.entry :=
  match visit_result today r [] with
  | Ok l => l
  | Raise _ => []
  end.

(** A record with the given name and the given stored birthday string. *)
Definition is_contact (name bday : string) (r : Rec.t) : Prop :=
  value (Rec.name r) = name /\ Rec.birthday r = Some (mkField bday).

Definition monday_2024_06_10 : PyDate.date := PyDate.mkdate 2024 6 10.



(** The strings the parser accepts under [%d.%m.%Y]. *)
Definition accepted_birthday (s : string) : Prop :=
  exists t D M,
    PyDate.valid t = true
    /\ In D (day_forms (PyDate.day t))
    /\ In M (month_forms (PyDate.month t))
    /\ s = (D ++ "." ++ M ++ "." ++ PyStr.zpad 4 (PyDate.year t))%string.

(** The three records of the scenario with today = 2024-06-10. *)
Definition recA : Rec.t :=
  Rec.mk (mkField "A") [] (Some (mkField "12.06.1990")).
Definition recB : Rec.t :=
  Rec.mk (mkField "B") [mkField "0501112233"] (Some (mkField "15.06.1985")).
Definition recC : Rec.t :=
  Rec.mk (mkField "C") [] (Some (mkField "01.01.1990")).
Definition bookABC : AddressBook.t :=
  AddressBook.mk [("A", recA); ("B", recB); ("C", recC)].

(** A record with two phones, for [edit_phone]. *)
Definition two_phones : Rec.t :=
  Rec.mk (mkField "Ivan") [mkField "1112223333"; mkField "0501112233"] None.

Definition petro_old : Rec.t :=
  Rec.mk (mkField "Petro") [mkField "0501112233"] None.
Definition petro_new : Rec.t :=
  Rec.mk (mkField "Petro") [mkField "0671112233"]
         (Some (mkField "24.08.1991")).
Definition olena : Rec.t :=
  Rec.mk (mkField "Olena") [mkField "0931234567"]
         (Some (mkField "29.02.2000")).
Definition small_book : AddressBook.t :=
  AddressBook.mk [("Petro", petro_old); ("Olena", olena)].

Definition leap_book : AddressBook.t :=
  AddressBook.mk [("Olena", olena)].

(** ** Definitions for the further properties *)

Module PyDateOrder.
Import PyDate PyDateChecks.

(** Months follow each other: the days before a month and its own days
    do not reach past the start of any later month. *)
Definition months_ok (leap : bool) (m1 : Z) : bool :=
  all_from (fun m2 => if m1 <? m2
                      then dbm_flag leap m1 + dim_flag leap m1 <=? dbm_flag leap m2
                      else true) 12 1.

(** A day of a month exists in every year, unless it is 29 February. *)
Definition every_year_ok (m d : Z) : bool :=
  if (d <=? dim_flag true m) && negb ((m =? 2) && (d =? 29))
  then d <=? dim_flag false m else true.

End PyDateOrder.

(** [xs] is [ys] with some elements left out, the order kept. *)
Inductive Subseq {A : Type} : list A -> list A -> Prop :=
| Subseq_nil : Subseq [] []
| Subseq_skip xs y ys : Subseq xs ys -> Subseq xs (y :: ys)
| Subseq_keep x xs ys : Subseq xs ys -> Subseq (x :: xs) (x :: ys).

(** The names of the records of a directory, in its order. *)
Definition record_names (book : AddressBook.t) : list string :=
  map (fun r => value (Rec.name r)) (PyDict.values (AddressBook.data book)).

(** [bd] is the next occurrence of the birthday [parsed] seen from [today]:
    the first real date on or after [today] with its month and day. *)
Definition next_occurrence (today parsed bd : PyDate.date) : Prop :=
  PyDate.valid bd = true
  /\ PyDate.month bd = PyDate.month parsed
  /\ PyDate.day bd = PyDate.day parsed
  /\ PyDate.toordinal today <= PyDate.toordinal bd
  /\ forall x, PyDate.valid x = true ->
       PyDate.month x = PyDate.month parsed ->
       PyDate.day x = PyDate.day parsed ->
       PyDate.toordinal today <= PyDate.toordinal x ->
       PyDate.toordinal bd <= PyDate.toordinal x.

(** How many phones of the list bear the number. *)
Definition occurrences (number : string) (ps : list Phone.t) : nat :=
  List.length (filter (fun p => String.eqb (Phone.__str__ p) number) ps).

(** The invariant of a record: every phone it holds passes [validate]. *)
Definition phones_valid (r : Rec.t) : Prop :=
  forall p, In p (Rec.phones r) -> Phone.validate p = Ok tt.

(** The invariant of a directory: a record is stored under its own name. *)
Definition keyed (book : AddressBook.t) : Prop :=
  forall k r, In (k, r) (AddressBook.data book) -> value (Rec.name r) = k.

(** A directory as [add_record] and [delete] keep it. *)
Definition book_ok (book : AddressBook.t) : Prop :=
  PyDict.wf (AddressBook.data book) /\ keyed book.

(** What [print(info)] leaves of a console. *)
Definition printed (info : string) (c : Console.t) : Console.t :=
  Console.mk (Console.stdin c) (Console.stdout c ++ [info ++ Console.newline]).

(** The record that [add_user] builds from what was typed. *)
Definition new_contact (name dob phone : string) : Rec.t :=
  Rec.mk (mkField name) [mkField phone] (Some (mkField dob)).

(** The text written for each rejected date: the prompt and two lines. *)
Definition date_retries (rejected : list string) : list string :=
  flat_map (fun _ =>
              ["Введіть дату народження (DD.MM.YYYY): ";
               "Помилка: " ++ Birthday.invalid_msg ++ Console.newline;
               "Будь ласка, введіть дату у правильному форматі."
               ++ Console.newline])
           rejected.

(** One round of each loop of [add_user]. *)
Definition dob_round : IO.t (Bot.t Console.t) (option Birthday.t) :=
  (dob_input <- Bot.on_ui (get_input
                             "Введіть дату народження (DD.MM.YYYY): ") ;;
   IO.try_except
     (dob <- IO.lift (Birthday.__init__ dob_input) ;;
      IO.ret (Some dob))
     (fun e => match e with
               | Std (ValueError msg) => Some (
                   Bot.on_ui (display_info ("Помилка: " ++ msg)) ;;;
                   Bot.on_ui (display_info
                     "Будь ласка, введіть дату у правильному форматі.") ;;;
                   IO.ret None)
               | _ => None
               end))%io.

Definition phone_round : IO.t (Bot.t Console.t) (option Phone.t) :=
  (phone_input <- Bot.on_ui (get_input "Введіть номер телефону: ") ;;
   IO.try_except
     (IO.ret (Some (Phone.__init__ phone_input)))
     (fun e => match e with
               | Std (ValueError msg) => Some (
                   Bot.on_ui (display_info ("Помилка: " ++ msg)) ;;;
                   Bot.on_ui (display_info
                     "Будь ласка, введіть номер у правильному форматі.") ;;;
                   IO.ret None)
               | _ => None
               end))%io.

(** Every contact that the bot makes has a birthday the parser accepts and
    one phone, which passes [validate]. *)
Definition contact_ok (r : Rec.t) : Prop :=
  (exists b, Rec.birthday r = Some b
             /\ is_ok (Birthday.__init__ (value b)) = true)
  /\ (exists p, Rec.phones r = [p] /\ Phone.validate p = Ok tt).

(** A directory as the bot keeps it. *)
Definition bot_ok (book : AddressBook.t) : Prop :=
  book_ok book
  /\ forall r, In r (PyDict.values (AddressBook.data book)) -> contact_ok r.

(** A line that [Birthday] rejects. *)
Definition rejected_date (s : string) : Prop :=
  is_ok (Birthday.__init__ s) = false.

(** A contact as the bot makes it, a directory with that contact, and a
    console on which a rejected date, a date and a phone are typed. *)
Definition ivan : Rec.t := new_contact "Ivan" "24.08.1991" "0501112233".
Definition ivan_book : AddressBook.t :=
  snd (AddressBook.add_record ivan AddressBook.__init__).
Definition typed_ivan : Console.t :=
  Console.mk ["31.02.2020"; "24.08.1991"; "0501112233"] [].


(** * Properties *)

Ltac b2z :=
  repeat match goal with
         | H : andb _ _ = true |- _ => apply andb_prop in H; destruct H
         | H : (_ <=? _) = true |- _ => apply Z.leb_le in H
         | H : (_ <? _) = true |- _ => apply Z.ltb_lt in H
         | H : (_ =? _) = true |- _ => apply Z.eqb_eq in H
         | H : (_ <=? _) = false |- _ => apply Z.leb_gt in H
         | H : (_ <? _) = false |- _ => apply Z.ltb_ge in H
         | H : (_ =? _) = false |- _ => apply Z.eqb_neq in H
         | |- andb _ _ = true => apply andb_true_intro; split
         | |- (_ <=? _) = true => apply Z.leb_le
         | |- (_ <? _) = true => apply Z.ltb_lt
         | |- (_ =? _) = true => apply Z.eqb_eq
         end.

(** ** Calendar arithmetic *)

Module PyDateFacts.
Import PyDate PyDateChecks.

Lemma all_from_spec p fuel : forall z,
  all_from p fuel z = true ->
  forall x, z <= x < z + Z.of_nat fuel -> p x = true.
Proof.
  induction fuel as [|fuel IH]; intros z H x Hx.
  - simpl in Hx. lia.
  - simpl in H. destruct (p z) eqn:Hz; [|discriminate].
    destruct (Z.eq_dec x z) as [->|Hne]; [assumption|].
    apply (IH (z + 1) H). lia.
Qed.

Lemma offsets_all :
  all_from (offset_ok false) 365 0 = true
  /\ all_from (offset_ok true) 366 0 = true.
Proof. split; vm_compute; reflexivity. Qed.

Lemma fields_all :
  all_from (fun m => all_from (fields_ok false m) 31 1) 12 1 = true
  /\ all_from (fun m => all_from (fields_ok true m) 31 1) 12 1 = true.
Proof. split; vm_compute; reflexivity. Qed.

Lemma flags_all : all_from flag_ok 400 1 = true.
Proof. vm_compute; reflexivity. Qed.

Lemma divmod_eq a b : divmod a b = (a / b, a mod b).
Proof.
  unfold divmod, Z.div, Z.modulo. destruct (Z.div_eucl a b); reflexivity.
Qed.

Lemma ord2ymd_cycle_eq r :
  0 <= r < 146097 ->
  _ord2ymd (r + 1)
  = let n100 := r / 36524 in
    let n4 := (r mod 36524) / 1461 in
    let n1 := ((r mod 36524) mod 1461) / 365 in
    let n := ((r mod 36524) mod 1461) mod 365 in
    if (n1 =? 4) || (n100 =? 4) then mkdate (n100 * 100 + n4 * 4 + n1) 12 31
    else
      let '(m, d) := month_day (leap_flag n100 n4 n1) n in
      mkdate (1 + (n100 * 100 + n4 * 4 + n1)) m d.
Proof.
  intros Hr. unfold _ord2ymd, _DI400Y, _DI100Y, _DI4Y, month_day, leap_flag.
  replace (r + 1 - 1) with r by lia.
  rewrite !divmod_eq. cbv iota beta zeta.
  rewrite (Z.mod_small r 146097), (Z.div_small r 146097) by lia.
  repeat match goal with
         | |- context [if ?b then _ else _] => destruct b
         end; f_equal; lia.
Qed.

Lemma days_in_month_flag y m : _days_in_month y m = dim_flag (_is_leap y) m.
Proof. reflexivity. Qed.

Lemma days_before_month_flag y m :
  _days_before_month y m = dbm_flag (_is_leap y) m.
Proof. reflexivity. Qed.

Lemma offset_ok_at (leap : bool) n :
  0 <= n < (if leap then 366 else 365) -> offset_ok leap n = true.
Proof.
  destruct offsets_all as [H0 H1]. intros Hn. destruct leap.
  - apply (all_from_spec _ _ _ H1). simpl. lia.
  - apply (all_from_spec _ _ _ H0). simpl. lia.
Qed.

Lemma fields_ok_at (leap : bool) m d :
  1 <= m <= 12 -> 1 <= d <= 31 -> fields_ok leap m d = true.
Proof.
  destruct fields_all as [H0 H1]. intros Hm Hd. destruct leap.
  - pose proof (all_from_spec _ _ _ H1 m ltac:(simpl; lia)) as H.
    apply (all_from_spec _ _ _ H). simpl. lia.
  - pose proof (all_from_spec _ _ _ H0 m ltac:(simpl; lia)) as H.
    apply (all_from_spec _ _ _ H). simpl. lia.
Qed.

Lemma flag_ok_at y :
  1 <= y <= 400 ->
  _is_leap y
  = leap_flag ((y - 1) / 100) (((y - 1) mod 100) / 4) ((y - 1) mod 4).
Proof.
  intros Hy. apply eqb_prop.
  apply (all_from_spec _ _ _ flags_all). simpl. lia.
Qed.

(** The days before a year of the first cycle, from its place in the
    century and in the four-year group. *)
Lemma days_before_year_parts a b c :
  0 <= a <= 3 -> 0 <= b <= 24 -> 0 <= c <= 3 ->
  _days_before_year (1 + (a * 100 + b * 4 + c)) = 36524 * a + 1461 * b + 365 * c.
Proof.
  intros Ha Hb Hc. unfold _days_before_year. cbv zeta.
  replace (1 + (a * 100 + b * 4 + c) - 1) with (a * 100 + b * 4 + c) by lia.
  assert (E4 : (a * 100 + b * 4 + c) / 4 = 25 * a + b)
    by (symmetry; apply Z.div_unique with (r := c); lia).
  assert (E100 : (a * 100 + b * 4 + c) / 100 = a)
    by (symmetry; apply Z.div_unique with (r := b * 4 + c); lia).
  assert (E400 : (a * 100 + b * 4 + c) / 400 = 0)
    by (apply Z.div_small; lia).
  rewrite E4, E100, E400. lia.
Qed.

Lemma year_parts y :
  1 <= y <= 400 ->
  let a := (y - 1) / 100 in
  let b := ((y - 1) mod 100) / 4 in
  let c := (y - 1) mod 4 in
  y = 1 + (a * 100 + b * 4 + c) /\ 0 <= a <= 3 /\ 0 <= b <= 24 /\ 0 <= c <= 3.
Proof. intros Hy. cbv zeta. Z.div_mod_to_equations. lia. Qed.

Lemma cycle_ord_ok_at r : 0 <= r < 146097 -> cycle_ord_ok r = true.
Proof.
  intros Hr. unfold cycle_ord_ok. rewrite (ord2ymd_cycle_eq r Hr).
  cbv zeta.
  set (a := r / 36524). set (r1 := r mod 36524).
  set (b := r1 / 1461). set (r2 := r1 mod 1461).
  set (c := r2 / 365). set (n := r2 mod 365).
  assert (Hr1 : r = 36524 * a + r1 /\ 0 <= r1 < 36524)
    by (unfold a, r1; pose proof (Z.div_mod r 36524);
        pose proof (Z.mod_pos_bound r 36524); lia).
  assert (Hr2 : r1 = 1461 * b + r2 /\ 0 <= r2 < 1461)
    by (unfold b, r2; pose proof (Z.div_mod r1 1461);
        pose proof (Z.mod_pos_bound r1 1461); lia).
  assert (Hr3 : r2 = 365 * c + n /\ 0 <= n < 365)
    by (unfold c, n; pose proof (Z.div_mod r2 365);
        pose proof (Z.mod_pos_bound r2 365); lia).
  clearbody a r1 b r2 c n.
  assert (Ha : 0 <= a <= 4) by lia.
  assert (Hb : 0 <= b <= 24) by lia.
  assert (Hc : 0 <= c <= 4) by lia.
  destruct ((c =? 4) || (a =? 4)) eqn:S.
  - (* the last day of a leap year *)
    assert (Hy : exists a' b', 0 <= a' <= 3 /\ 0 <= b' <= 24
              /\ a * 100 + b * 4 + c = 1 + (a' * 100 + b' * 4 + 3)
              /\ r = 36524 * a' + 1461 * b' + 1460
              /\ (b' <> 24 \/ a' = 3)).
    { apply orb_prop in S. destruct S as [S|S]; b2z.
      - exists a, b. lia.
      - exists 3, 24. lia. }
    destruct Hy as [a' [b' [Ha' [Hb' [Ey [Er Hl]]]]]].
    cbv iota beta. rewrite Ey. unfold toordinal, _ymd2ord.
    cbn [year month day].
    rewrite days_in_month_flag, days_before_month_flag.
    assert (Hy : 1 <= 1 + (a' * 100 + b' * 4 + 3) <= 400) by lia.
    rewrite (flag_ok_at _ Hy).
    rewrite (days_before_year_parts a' b' 3) by lia.
    replace (1 + (a' * 100 + b' * 4 + 3) - 1) with (a' * 100 + b' * 4 + 3)
      by lia.
    replace ((a' * 100 + b' * 4 + 3) / 100) with a'
      by (apply Z.div_unique with (r := b' * 4 + 3); lia).
    replace ((a' * 100 + b' * 4 + 3) mod 100) with (b' * 4 + 3)
      by (apply Z.mod_unique with (q := a'); lia).
    replace ((b' * 4 + 3) / 4) with b'
      by (apply Z.div_unique with (r := 3); lia).
    replace ((a' * 100 + b' * 4 + 3) mod 4) with 3
      by (apply Z.mod_unique with (q := 25 * a' + b'); lia).
    assert (L : leap_flag a' b' 3 = true).
    { unfold leap_flag. cbn [Z.eqb Pos.eqb andb].
      destruct Hl as [Hl| ->]; [|now rewrite orb_true_r].
      apply Z.eqb_neq in Hl. now rewrite Hl. }
    rewrite L. change (dbm_flag true 12) with 335.
    change (dim_flag true 12) with 31.
    destruct (r <? 145731) eqn:Q; b2z; lia.
  - apply orb_false_elim in S. destruct S as [S1 S2].
    apply Z.eqb_neq in S1, S2.
    assert (Ha' : 0 <= a <= 3) by lia. assert (Hc' : 0 <= c <= 3) by lia.
    assert (Hy : 1 <= 1 + (a * 100 + b * 4 + c) <= 400) by lia.
    assert (L : _is_leap (1 + (a * 100 + b * 4 + c)) = leap_flag a b c).
    { rewrite (flag_ok_at _ Hy).
      replace (1 + (a * 100 + b * 4 + c) - 1) with (a * 100 + b * 4 + c)
        by lia.
      replace ((a * 100 + b * 4 + c) / 100) with a
        by (apply Z.div_unique with (r := b * 4 + c); lia).
      replace ((a * 100 + b * 4 + c) mod 100) with (b * 4 + c)
        by (apply Z.mod_unique with (q := a); lia).
      replace ((b * 4 + c) / 4) with b
        by (apply Z.div_unique with (r := c); lia).
      replace ((a * 100 + b * 4 + c) mod 4) with c
        by (apply Z.mod_unique with (q := 25 * a + b); lia).
      reflexivity. }
    pose proof (offset_ok_at (leap_flag a b c) n
                  ltac:(destruct (leap_flag a b c); lia)) as O.
    unfold offset_ok in O.
    destruct (month_day (leap_flag a b c) n) as [m d].
    cbv iota beta. unfold toordinal, _ymd2ord. cbn [year month day].
    rewrite days_in_month_flag, days_before_month_flag, L.
    rewrite (days_before_year_parts a b c) by lia.
    destruct (r <? 145731) eqn:Q; b2z; lia.
Qed.

Lemma split_ordinal a b c n r :
  r = 36524 * a + 1461 * b + 365 * c + n ->
  0 <= 1461 * b + 365 * c + n < 36524 ->
  0 <= 365 * c + n < 1461 ->
  0 <= n < 365 ->
  r / 36524 = a
  /\ (r mod 36524) / 1461 = b
  /\ ((r mod 36524) mod 1461) / 365 = c
  /\ ((r mod 36524) mod 1461) mod 365 = n.
Proof.
  intros Hr H1 H2 H3.
  assert (E1 : r / 36524 = a)
    by (symmetry; apply Z.div_unique with (r := 1461 * b + 365 * c + n); lia).
  assert (M1 : r mod 36524 = 1461 * b + 365 * c + n)
    by (symmetry; apply Z.mod_unique with (q := a); lia).
  rewrite M1.
  assert (E2 : (1461 * b + 365 * c + n) / 1461 = b)
    by (symmetry; apply Z.div_unique with (r := 365 * c + n); lia).
  assert (M2 : (1461 * b + 365 * c + n) mod 1461 = 365 * c + n)
    by (symmetry; apply Z.mod_unique with (q := b); lia).
  rewrite M2.
  assert (E3 : (365 * c + n) / 365 = c)
    by (symmetry; apply Z.div_unique with (r := n); lia).
  assert (M3 : (365 * c + n) mod 365 = n)
    by (symmetry; apply Z.mod_unique with (q := c); lia).
  auto.
Qed.

Lemma cycle_day_ok_at y m d :
  1 <= y <= 400 -> 1 <= m <= 12 -> 1 <= d <= 31 -> cycle_day_ok y m d = true.
Proof.
  intros Hy Hm Hd. unfold cycle_day_ok.
  rewrite days_in_month_flag.
  destruct (d <=? dim_flag (_is_leap y) m) eqn:D; [|reflexivity].
  cbv zeta. unfold _ymd2ord. rewrite days_before_month_flag.
  pose proof (fields_ok_at (_is_leap y) m d Hm Hd) as F.
  unfold fields_ok in F. rewrite D in F.
  destruct (year_parts y Hy) as [Ey [Ha [Hb Hc]]].
  pose proof (flag_ok_at y Hy) as L.
  set (a := (y - 1) / 100) in *. set (b := ((y - 1) mod 100) / 4) in *.
  set (c := (y - 1) mod 4) in *. clearbody a b c.
  set (n := dbm_flag (_is_leap y) m + d - 1) in *.
  destruct (month_day (_is_leap y) n) as [m' d'] eqn:MD.
  assert (Eord : _days_before_year y + dbm_flag (_is_leap y) m + d
                 = (36524 * a + 1461 * b + 365 * c + n) + 1).
  { rewrite Ey at 1. rewrite (days_before_year_parts a b c) by lia.
    unfold n. lia. }
  rewrite Eord. clear Eord. clearbody n.
  assert (Fm : m' = m /\ d' = d /\ 0 <= n
               /\ n < (if _is_leap y then 366 else 365)) by (b2z; lia).
  destruct Fm as [-> [-> [Hn0 Hn1]]]. clear F.
  assert (Hr : 0 <= 36524 * a + 1461 * b + 365 * c + n < 146097).
  { rewrite L in Hn1. unfold leap_flag in Hn1.
    destruct (c =? 3) eqn:C3; cbn [andb] in Hn1; [|lia].
    destruct (b =? 24) eqn:B24; cbn [negb orb] in Hn1; [|b2z; lia].
    destruct (a =? 3) eqn:A3; b2z; lia. }
  rewrite (ord2ymd_cycle_eq _ Hr). cbv zeta.
  destruct (Z_lt_le_dec n 365) as [Hlt|Hge].
  - (* not the last day of a leap year *)
    destruct (split_ordinal a b c n _ eq_refl) as [E1 [E2 [E3 E4]]];
      [lia..|].
    rewrite E1, E2, E3, E4.
    replace ((c =? 4) || (a =? 4)) with false
      by (symmetry; apply orb_false_intro; apply Z.eqb_neq; lia).
    rewrite <- L. rewrite MD. cbn [year month day].
    destruct (y <? 400) eqn:Q; b2z; lia.
  - (* the last day of a leap year *)
    assert (Hn : n = 365) by (destruct (_is_leap y); lia). subst n.
    assert (Lt : leap_flag a b c = true)
      by (rewrite <- L; destruct (_is_leap y); [reflexivity|lia]).
    rewrite L, Lt in MD. vm_compute in MD. injection MD as <- <-.
    unfold leap_flag in Lt. apply andb_prop in Lt. destruct Lt as [C3 Lt].
    apply Z.eqb_eq in C3. subst c.
    destruct (b =? 24) eqn:B24.
    + cbn [negb orb] in Lt. apply Z.eqb_eq in Lt, B24. subst a b y.
      vm_compute. reflexivity.
    + apply Z.eqb_neq in B24.
      destruct (split_ordinal a b 4 0 (36524 * a + 1461 * b + 365 * 3 + 365)
                  ltac:(lia) ltac:(lia) ltac:(lia) ltac:(lia))
        as [E1 [E2 [E3 E4]]].
      rewrite E1, E2, E3, E4. cbn [Z.eqb Pos.eqb orb year month day].
      destruct (y <? 400) eqn:Q; b2z; lia.
Qed.

Lemma ord2ymd_cycle n :
  _ord2ymd n =
  shift_year (400 * ((n - 1) / 146097)) (_ord2ymd ((n - 1) mod 146097 + 1)).
Proof.
  unfold _ord2ymd, _DI400Y.
  replace ((n - 1) mod 146097 + 1 - 1) with ((n - 1) mod 146097) by lia.
  rewrite !divmod_eq. cbv iota beta zeta.
  rewrite Z.mod_mod by lia.
  rewrite (Z.div_small ((n - 1) mod 146097) 146097) by (apply Z.mod_pos_bound; lia).
  generalize ((n - 1) mod 146097); generalize ((n - 1) / 146097).
  intros q r.
  repeat match goal with
         | |- context [if ?b then _ else _] => destruct b
         end; unfold shift_year; cbn [year month day]; f_equal; lia.
Qed.

Lemma is_leap_cycle y k : _is_leap (y + 400 * k) = _is_leap y.
Proof.
  unfold _is_leap.
  replace ((y + 400 * k) mod 4) with (y mod 4)
    by (replace (y + 400 * k) with (y + (100 * k) * 4) by lia;
        now rewrite Z.mod_add).
  replace ((y + 400 * k) mod 100) with (y mod 100)
    by (replace (y + 400 * k) with (y + (4 * k) * 100) by lia;
        now rewrite Z.mod_add).
  replace ((y + 400 * k) mod 400) with (y mod 400)
    by (replace (y + 400 * k) with (y + k * 400) by lia;
        now rewrite Z.mod_add).
  reflexivity.
Qed.

Lemma days_before_year_cycle y k :
  _days_before_year (y + 400 * k) = _days_before_year y + 146097 * k.
Proof.
  unfold _days_before_year. cbv zeta.
  replace (y + 400 * k - 1) with (y - 1 + 400 * k) by lia.
  replace ((y - 1 + 400 * k) / 4) with ((y - 1) / 4 + 100 * k)
    by (replace (y - 1 + 400 * k) with (y - 1 + (100 * k) * 4) by lia;
        now rewrite Z.div_add).
  replace ((y - 1 + 400 * k) / 100) with ((y - 1) / 100 + 4 * k)
    by (replace (y - 1 + 400 * k) with (y - 1 + (4 * k) * 100) by lia;
        now rewrite Z.div_add).
  replace ((y - 1 + 400 * k) / 400) with ((y - 1) / 400 + k)
    by (replace (y - 1 + 400 * k) with (y - 1 + k * 400) by lia;
        now rewrite Z.div_add).
  lia.
Qed.

Lemma days_in_month_cycle y k m :
  _days_in_month (y + 400 * k) m = _days_in_month y m.
Proof. unfold _days_in_month. now rewrite is_leap_cycle. Qed.

Lemma toordinal_cycle k t :
  toordinal (shift_year (400 * k) t) = toordinal t + 146097 * k.
Proof.
  unfold toordinal, shift_year, _ymd2ord, _days_before_month. cbn [year month day].
  rewrite is_leap_cycle, days_before_year_cycle. lia.
Qed.

(** [fromordinal] is a right inverse of [toordinal] on [1.._MAXORDINAL],
    and gives well-formed dates. *)
Lemma toordinal_fromordinal n :
  1 <= n <= _MAXORDINAL ->
  toordinal (fromordinal n) = n /\ valid (fromordinal n) = true.
Proof.
  unfold _MAXORDINAL, fromordinal. intros Hn.
  rewrite ord2ymd_cycle.
  set (q := (n - 1) / 146097). set (r := (n - 1) mod 146097).
  assert (Hr : 0 <= r < 146097) by (apply Z.mod_pos_bound; lia).
  assert (Hq : n - 1 = 146097 * q + r) by (apply Z.div_mod; lia).
  assert (Hq' : 0 <= q <= 24) by lia.
  pose proof (cycle_ord_ok_at r Hr) as Hc. unfold cycle_ord_ok in Hc.
  cbv zeta in Hc.
  set (t := _ord2ymd (r + 1)) in *.
  destruct (r <? 145731) eqn:E; b2z.
  all: split; [rewrite toordinal_cycle; lia|].
  all: unfold valid, valid_fields, shift_year, MINYEAR, MAXYEAR.
  all: cbn [year month day]; rewrite days_in_month_cycle.
  all: b2z; lia.
Qed.

Lemma days_in_month_le y m : _days_in_month y m <= 31.
Proof.
  unfold _days_in_month, index.
  destruct ((m =? 2) && _is_leap y); [lia|].
  generalize (Z.to_nat m) as k. intros k.
  do 14 (destruct k as [|k]; [simpl; lia|]). simpl. destruct k; lia.
Qed.

(** [fromordinal] is a left inverse of [toordinal] on well-formed dates. *)
Lemma fromordinal_toordinal t :
  valid t = true ->
  fromordinal (toordinal t) = t /\ 1 <= toordinal t <= _MAXORDINAL.
Proof.
  destruct t as [y m d].
  unfold valid, valid_fields, MINYEAR, MAXYEAR, _MAXORDINAL. cbn [year month day]. intros H.
  b2z.
  set (q := (y - 1) / 400). set (y' := (y - 1) mod 400 + 1).
  assert (Hy' : 1 <= y' <= 400)
    by (pose proof (Z.mod_pos_bound (y - 1) 400); lia).
  assert (Hq : y = y' + 400 * q)
    by (pose proof (Z.div_mod (y - 1) 400); lia).
  assert (Hq' : 0 <= q <= 24) by lia.
  pose proof (days_in_month_le y m) as Hle.
  pose proof (cycle_day_ok_at y' m d Hy' ltac:(lia) ltac:(lia)) as Hc.
  unfold cycle_day_ok in Hc.
  rewrite Hq, days_in_month_cycle in *.
  replace (d <=? _days_in_month y' m) with true in Hc by (symmetry; b2z; lia).
  cbv zeta in Hc.
  change (mkdate (y' + 400 * q) m d) with (shift_year (400 * q) (mkdate y' m d)).
  rewrite toordinal_cycle.
  change (toordinal (mkdate y' m d)) with (_ymd2ord y' m d).
  set (n := _ymd2ord y' m d) in *.
  destruct (y' <? 400) eqn:E; b2z.
  all: split; [|lia].
  all: unfold fromordinal; rewrite ord2ymd_cycle.
  all: assert (Hd : (n + 146097 * q - 1) / 146097 = q)
         by (symmetry; apply Z.div_unique with (r := n - 1); lia).
  all: assert (Hm : (n + 146097 * q - 1) mod 146097 = n - 1)
         by (symmetry; apply Z.mod_unique with (q := q); lia).
  all: rewrite Hd, Hm; replace (n - 1 + 1) with n by lia.
  all: destruct (_ord2ymd n) as [a b c]; unfold shift_year.
  all: cbn [year month day] in *; f_equal; lia.
Qed.

End PyDateFacts.

Import PyDateFacts.

(** ** The query as a pure function *)

Lemma visit_eq today record upcoming (book : AddressBook.t) :
  AddressBook.visit today record upcoming book
  = (visit_result today record upcoming, book).
Proof.
  unfold AddressBook.visit, visit_result, schedule, occurrence, in_window,
    shifted_days.
  destruct (Rec.birthday record) as [b|]; [|reflexivity].
  unfold bind, lift, ret. cbv zeta.
  destruct (PyTime.strptime (value b) "%d.%m.%Y") as [parsed|e];
    cbn [rbind]; [|reflexivity].
  destruct (PyDate.replace_year parsed (PyDate.year today)) as [b1|e];
    cbn [rbind]; [|reflexivity].
  destruct (PyDate.lt b1 today);
    [destruct (PyDate.replace_year b1 (PyDate.year today + 1)) as [b2|e];
     cbn [rbind]; [|reflexivity]|].
  all: cbn [rbind].
  all: match goal with
       | |- context [PyDate.sub_days ?bd ?t] =>
           destruct ((0 <=? PyDate.sub_days bd t)
                     && (PyDate.sub_days bd t <=? 7)); [|reflexivity]
       end.
  all: match goal with
       | |- context [PyDate.add_days ?a ?b] => destruct (PyDate.add_days a b)
       end; reflexivity.
Qed.

Lemma visit_all_eq today records : forall upcoming (book : AddressBook.t),
  AddressBook.visit_all today records upcoming book
  = (visit_all_result today records upcoming, book).
Proof.
  induction records as [|r rest IH]; intros upcoming book; [reflexivity|].
  cbn [AddressBook.visit_all visit_all_result]. unfold bind.
  rewrite visit_eq.
  destruct (visit_result today r upcoming) as [u|e]; cbn [rbind];
    [apply IH|reflexivity].
Qed.

Lemma get_upcoming_birthdays_eq today (book : AddressBook.t) :
  AddressBook.get_upcoming_birthdays today book
  = (visit_all_result today (PyDict.values (AddressBook.data book)) [], book).
Proof.
  unfold AddressBook.get_upcoming_birthdays, bind, get. apply visit_all_eq.
Qed.

Lemma schedule_app today name parsed upcoming :
  schedule today name parsed upcoming
  = rbind (schedule today name parsed [])
          (fun l => Ok (upcoming ++ l)%list).
Proof.
  unfold schedule.
  destruct (occurrence today parsed) as [bd|e]; cbn [rbind]; [|reflexivity].
  destruct (in_window today bd);
    [|cbn [rbind]; now rewrite app_nil_r].
  destruct (PyDate.add_days today (shifted_days today bd));
    cbn [rbind]; reflexivity.
Qed.

Lemma visit_result_app today r upcoming :
  visit_result today r upcoming
  = rbind (visit_result today r []) (fun l => Ok (upcoming ++ l)%list).
Proof.
  unfold visit_result.
  destruct (Rec.birthday r) as [b|]; [|cbn [rbind]; now rewrite app_nil_r].
  destruct (PyTime.strptime (value b) "%d.%m.%Y") as [p|e];
    cbn [rbind]; [apply schedule_app|reflexivity].
Qed.

Lemma visit_all_result_ok today rs : forall upcoming,
  (forall r, In r rs -> is_ok (visit_result today r []) = true) ->
  visit_all_result today rs upcoming
  = Ok (upcoming ++ flat_map (entries_of today) rs)%list.
Proof.
  induction rs as [|r rs IH]; intros upcoming H.
  - simpl. now rewrite app_nil_r.
  - cbn [visit_all_result flat_map]. rewrite visit_result_app.
    unfold entries_of at 1.
    pose proof (H r (or_introl eq_refl)) as Hr.
    destruct (visit_result today r []) as [l|e]; [|discriminate].
    cbn [rbind]. rewrite IH by (intros r' Hr'; apply H; now right).
    now rewrite app_assoc.
Qed.

Lemma visit_all_result_inv today rs : forall upcoming res,
  visit_all_result today rs upcoming = Ok res ->
  (forall r, In r rs -> is_ok (visit_result today r []) = true)
  /\ res = (upcoming ++ flat_map (entries_of today) rs)%list.
Proof.
  induction rs as [|r rs IH]; intros upcoming res H.
  - simpl in H. injection H as <-. split; [intros r []|].
    simpl. now rewrite app_nil_r.
  - cbn [visit_all_result] in H. rewrite visit_result_app in H.
    destruct (visit_result today r []) as [l|e] eqn:E; [|discriminate].
    cbn [rbind] in H. destruct (IH _ _ H) as [Hok ->]. split.
    + intros r' [<-|Hr']; [now rewrite E|now apply Hok].
    + cbn [flat_map]. unfold entries_of at 2. rewrite E.
      now rewrite app_assoc.
Qed.

Lemma visit_all_result_raise today rs : forall upcoming r,
  In r rs -> is_ok (visit_result today r []) = false ->
  is_ok (visit_all_result today rs upcoming) = false.
Proof.
  induction rs as [|r0 rs IH]; intros upcoming r Hin Hr; [destruct Hin|].
  cbn [visit_all_result]. rewrite visit_result_app.
  destruct (visit_result today r0 []) as [l|e] eqn:E; [|reflexivity].
  cbn [rbind]. destruct Hin as [->|Hin]; [rewrite E in Hr; discriminate|].
  now apply IH with (r := r).
Qed.

Lemma entries_of_contact today name bday r :
  is_contact name bday r ->
  visit_result today r []
  = rbind (PyTime.strptime bday "%d.%m.%Y") (fun parsed =>
      schedule today name parsed []).
Proof.
  intros [Hn Hb]. unfold visit_result. now rewrite Hb, Hn.
Qed.


Lemma new_inv y m d t :
  PyDate.new y m d = Ok t -> t = PyDate.mkdate y m d /\ PyDate.valid t = true.
Proof.
  unfold PyDate.new. intros H.
  destruct ((PyDate.MINYEAR <=? y) && (y <=? PyDate.MAXYEAR)) eqn:E1;
    cbn [negb] in H; [|discriminate].
  destruct ((1 <=? m) && (m <=? 12)) eqn:E2; cbn [negb] in H; [|discriminate].
  destruct ((1 <=? d) && (d <=? PyDate._days_in_month y m)) eqn:E3;
    cbn [negb] in H; [|discriminate].
  injection H as <-. split; [reflexivity|].
  unfold PyDate.valid, PyDate.valid_fields.
  cbn [PyDate.year PyDate.month PyDate.day].
  apply andb_prop in E1, E2, E3.
  destruct E1 as [-> ->], E2 as [-> ->], E3 as [-> ->]. reflexivity.
Qed.

Lemma new_valid y m d :
  PyDate.valid_fields y m d = true ->
  PyDate.new y m d = Ok (PyDate.mkdate y m d).
Proof.
  unfold PyDate.valid_fields, PyDate.new. intros H.
  repeat (apply andb_prop in H; destruct H as [H ?]).
  repeat match goal with E : _ = true |- _ => rewrite E; clear E end.
  reflexivity.
Qed.

Lemma leap_day_raises today parsed :
  PyDate.month parsed = 2 -> PyDate.day parsed = 29 ->
  PyDate._is_leap (PyDate.year today) = false ->
  is_ok (occurrence today parsed) = false.
Proof.
  intros Hm Hd Hl. unfold occurrence, PyDate.replace_year, PyDate.new.
  rewrite Hm, Hd. unfold PyDate._days_in_month. rewrite Hl.
  destruct (negb _); reflexivity.
Qed.


Lemma entries_of_inv today r e :
  In e (entries_of today r) ->
  exists b parsed bd c,
    Rec.birthday r = Some b
    /\ PyTime.strptime (value b) "%d.%m.%Y" = Ok parsed
    /\ occurrence today parsed = Ok bd
    /\ in_window today bd = true
    /\ PyDate.add_days today (shifted_days today bd) = Ok c
    /\ e = AddressBook.mkentry (value (Rec.name r))
             (PyTime.strftime c "%Y.%m.%d").
Proof.
  unfold entries_of, visit_result, schedule.
  destruct (Rec.birthday r) as [b|] eqn:B; [|intros []].
  destruct (PyTime.strptime (value b) "%d.%m.%Y") as [parsed|] eqn:P;
    cbn [rbind]; [|intros []].
  destruct (occurrence today parsed) as [bd|] eqn:O; cbn [rbind]; [|intros []].
  destruct (in_window today bd) eqn:W; [|intros []].
  destruct (PyDate.add_days today (shifted_days today bd)) as [c|] eqn:A;
    cbn [rbind]; [|intros []].
  intros [<-|[]]. exists b, parsed, bd, c. repeat split; assumption.
Qed.

Lemma occurrence_valid today parsed bd :
  occurrence today parsed = Ok bd -> PyDate.valid bd = true.
Proof.
  unfold occurrence, PyDate.replace_year.
  destruct (PyDate.new (PyDate.year today) _ _) as [b1|] eqn:E1;
    cbn [rbind]; [|discriminate].
  apply new_inv in E1. destruct E1 as [_ V1].
  destruct (PyDate.lt b1 today).
  - intros E2. now apply new_inv in E2.
  - intros E2. injection E2 as <-. exact V1.
Qed.

Lemma weekday_range t : 0 <= PyDate.weekday t <= 6.
Proof. unfold PyDate.weekday. pose proof (Z.mod_pos_bound (PyDate.toordinal t + 6) 7). lia. Qed.

Lemma congratulation_weekday today bd c :
  PyDate.valid bd = true ->
  PyDate.add_days today (shifted_days today bd) = Ok c ->
  PyDate.valid c = true
  /\ 0 <= PyDate.weekday c <= 4
  /\ ((PyDate.weekday bd <= 4 /\ c = bd)
      \/ (5 <= PyDate.weekday bd /\ PyDate.weekday c = 0
          /\ PyDate.toordinal c
             = PyDate.toordinal bd + (7 - PyDate.weekday bd))).
Proof.
  intros Vbd. unfold PyDate.add_days, shifted_days, PyDate.sub_days.
  cbv zeta.
  destruct (fromordinal_toordinal bd Vbd) as [Hinv Hrange].
  pose proof (weekday_range bd) as Hw.
  destruct (5 <=? PyDate.weekday bd) eqn:W.
  - apply Z.leb_le in W.
    set (o := PyDate.toordinal today
              + (PyDate.toordinal bd - PyDate.toordinal today
                 + (7 - PyDate.weekday bd))).
    destruct ((0 <? o) && (o <=? PyDate._MAXORDINAL)) eqn:R; [|discriminate].
    intros E. injection E as <-.
    assert (Ho : o = PyDate.toordinal bd + (7 - PyDate.weekday bd))
      by (unfold o; lia).
    b2z. destruct (toordinal_fromordinal o ltac:(lia)) as [Hto Hv].
    assert (Hc : PyDate.weekday (PyDate.fromordinal o) = 0).
    { unfold PyDate.weekday at 1. rewrite Hto, Ho.
      unfold PyDate.weekday.
      replace (PyDate.toordinal bd + (7 - (PyDate.toordinal bd + 6) mod 7) + 6)
        with ((PyDate.toordinal bd + 6 - (PyDate.toordinal bd + 6) mod 7)
              + 1 * 7) by lia.
      rewrite Z.mod_add by lia.
      rewrite Zminus_mod_idemp_r. rewrite Z.sub_diag. reflexivity. }
    split; [assumption|]. split; [lia|]. right. rewrite Hto. auto.
  - apply Z.leb_gt in W.
    replace (PyDate.toordinal today
             + (PyDate.toordinal bd - PyDate.toordinal today))
      with (PyDate.toordinal bd) by lia.
    destruct ((0 <? PyDate.toordinal bd)
              && (PyDate.toordinal bd <=? PyDate._MAXORDINAL)); [|discriminate].
    intros E. injection E as <-. rewrite Hinv.
    split; [assumption|]. split; [lia|]. left. split; [lia|reflexivity].
Qed.

(** ** Dictionaries *)

Module PyDictFacts.
Import PyDict.

Section Facts.
Context {V : Type}.
Implicit Types (d : dict V) (k : string) (v : V).

Lemma contains_In k d : contains k d = true <-> In k (keys d).
Proof.
  induction d as [|[k' v'] d IH]; simpl.
  - split; [discriminate|tauto].
  - rewrite orb_true_iff, IH, String.eqb_eq. tauto.
Qed.

Lemma contains_getitem k d : contains k d = false <-> getitem k d = None.
Proof.
  induction d as [|[k' v'] d IH]; simpl; [tauto|].
  destruct (String.eqb k' k); simpl; [split; discriminate|exact IH].
Qed.

Lemma getitem_not_In k d : ~ In k (keys d) -> getitem k d = None.
Proof.
  intros H. apply contains_getitem.
  destruct (contains k d) eqn:E; [|reflexivity].
  apply contains_In in E. contradiction.
Qed.

Lemma getitem_setitem_eq k v d : getitem k (setitem k v d) = Some v.
Proof.
  induction d as [|[k' v'] d IH]; simpl.
  - now rewrite String.eqb_refl.
  - destruct (String.eqb k' k) eqn:E; simpl; rewrite E; [reflexivity|exact IH].
Qed.

Lemma getitem_setitem_ne k k' v d :
  k <> k' -> getitem k' (setitem k v d) = getitem k' d.
Proof.
  intros Hne. induction d as [|[k0 v0] d IH]; simpl.
  - apply String.eqb_neq in Hne. now rewrite Hne.
  - destruct (String.eqb k0 k) eqn:E; simpl.
    + apply String.eqb_eq in E. subst k0.
      apply String.eqb_neq in Hne. now rewrite Hne.
    + now rewrite IH.
Qed.

Lemma keys_setitem k v d :
  keys (setitem k v d) = if contains k d then keys d else (keys d ++ [k])%list.
Proof.
  induction d as [|[k0 v0] d IH]; simpl; [reflexivity|].
  destruct (String.eqb k0 k) eqn:E; simpl; [reflexivity|].
  unfold keys in *. rewrite IH. now destruct (contains k d).
Qed.

Lemma wf_setitem k v d : wf d -> wf (setitem k v d).
Proof.
  unfold wf. rewrite keys_setitem. intros H.
  destruct (contains k d) eqn:E; [assumption|].
  apply NoDup_app; [assumption|repeat constructor; simpl; tauto|].
  intros x Hx [<-|[]]. apply contains_In in Hx. congruence.
Qed.

Lemma keys_delitem_incl k d x : In x (keys (delitem k d)) -> In x (keys d).
Proof.
  induction d as [|[k0 v0] d IH]; simpl; [tauto|].
  destruct (String.eqb k0 k); simpl; tauto.
Qed.

Lemma wf_delitem k d : wf d -> wf (delitem k d).
Proof.
  unfold wf. induction d as [|[k0 v0] d IH]; simpl; intros H; [assumption|].
  inversion H as [|? ? Hn Hd]; subst.
  destruct (String.eqb k0 k); simpl; [assumption|].
  constructor; [|now apply IH].
  intros Hin. apply Hn. eapply keys_delitem_incl, Hin.
Qed.

Lemma getitem_delitem_eq k d : wf d -> getitem k (delitem k d) = None.
Proof.
  unfold wf. induction d as [|[k0 v0] d IH]; simpl; intros H; [reflexivity|].
  inversion H as [|? ? Hn Hd]; subst.
  destruct (String.eqb k0 k) eqn:E; simpl.
  - apply String.eqb_eq in E. subst. now apply getitem_not_In.
  - rewrite E. now apply IH.
Qed.

Lemma getitem_delitem_ne k k' d :
  k <> k' -> getitem k' (delitem k d) = getitem k' d.
Proof.
  intros Hne. induction d as [|[k0 v0] d IH]; simpl; [reflexivity|].
  destruct (String.eqb k0 k) eqn:E; simpl.
  - apply String.eqb_eq in E. subst k0.
    apply String.eqb_neq in Hne. now rewrite Hne.
  - now rewrite IH.
Qed.

End Facts.
End PyDictFacts.

Import PyDictFacts.

(** ** Parsing and formatting dates *)

Module PyTimeFacts.
Import PyStr PyRe PyTime.

(** Case analysis on an integer known to lie in a small range. *)
Lemma small_range (P : Z -> Prop) (lo : Z) (n : nat) :
  (forall i, (i < n)%nat -> P (lo + Z.of_nat i)) ->
  forall d, lo <= d < lo + Z.of_nat n -> P d.
Proof.
  intros H d Hd. replace d with (lo + Z.of_nat (Z.to_nat (d - lo))) by lia.
  apply H. lia.
Qed.

Ltac eval_zpad :=
  repeat match goal with
         | |- context [zpad ?w ?v] =>
             let s := eval vm_compute in (zpad w v) in
             change (zpad w v) with s
         end.

(** The alternative tried first matched and its continuation succeeded. *)
Ltac first_match H :=
  match goal with
  | |- match ?t with _ => _ end = Some ?x =>
      replace t with (Some x) by (symmetry; exact H); reflexivity
  | |- ?t = Some ?x => exact H
  end.

Lemma re_d_first (d : Z) {A} (R : re) rest g
    (k : string -> string -> groups -> option A) x :
  1 <= d <= 31 ->
  rmatch R rest (("d", zpad 2 d) :: g)
         (fun m2 s2 g2 => k (zpad 2 d ++ m2)%string s2 g2) = Some x ->
  rmatch (Cat re_d R) (zpad 2 d ++ rest)%string g k = Some x.
Proof.
  intros Hd. revert x. pattern d.
  apply (small_range _ 1 31); [|lia]. clear d Hd. intros i Hi.
  do 31 (destruct i as [|i];
         [cbn [Z.of_nat Pos.of_succ_nat Pos.succ Z.add Pos.add];
          eval_zpad; intros x H; cbn; first_match H|]).
  lia.
Qed.

Lemma re_m_first (m : Z) {A} (R : re) rest g
    (k : string -> string -> groups -> option A) x :
  1 <= m <= 12 ->
  rmatch R rest (("m", zpad 2 m) :: g)
         (fun m2 s2 g2 => k (zpad 2 m ++ m2)%string s2 g2) = Some x ->
  rmatch (Cat re_m R) (zpad 2 m ++ rest)%string g k = Some x.
Proof.
  intros Hm. revert x. pattern m.
  apply (small_range _ 1 12); [|lia]. clear m Hm. intros i Hi.
  do 12 (destruct i as [|i];
         [cbn [Z.of_nat Pos.of_succ_nat Pos.succ Z.add Pos.add];
          eval_zpad; intros x H; cbn; first_match H|]).
  lia.
Qed.

Lemma lit_first (c : ascii) {A} (R : re) rest g
    (k : string -> string -> groups -> option A) :
  rmatch (Cat (Lit c) R) (String c rest) g k
  = rmatch R rest g (fun m2 s2 g2 => k (String c m2) s2 g2).
Proof. cbn. now rewrite Ascii.eqb_refl. Qed.

Lemma ord_digit_char x : 0 <= x <= 9 -> ord (digit_char x) = 48 + x.
Proof.
  intros H. unfold ord, digit_char, chr.
  rewrite N_ascii_embedding by lia. lia.
Qed.

Lemma ch_isdecimal_digit x : 0 <= x <= 9 -> ch_isdecimal (digit_char x) = true.
Proof.
  intros H. unfold ch_isdecimal. rewrite ord_digit_char by assumption.
  b2z; lia.
Qed.

Lemma ch_isspace_digit x : 0 <= x <= 9 -> ch_isspace (digit_char x) = false.
Proof.
  intros H. unfold ch_isspace. rewrite ord_digit_char by assumption.
  repeat match goal with
         | |- context [?a <=? ?b] =>
             let E := fresh in destruct (a <=? b) eqn:E
         | |- context [?a =? ?b] =>
             let E := fresh in destruct (a =? b) eqn:E
         end; b2z; try lia; reflexivity.
Qed.

Ltac digit_bound :=
  match goal with
  | |- 0 <= ?a mod 10 <= 9 => pose proof (Z.mod_pos_bound a 10); lia
  end.

Lemma zpad_2 n :
  zpad 2 n = String (digit_char ((n / 10) mod 10))
               (String (digit_char (n mod 10)) "").
Proof. reflexivity. Qed.

Lemma zpad_4 n :
  zpad 4 n = String (digit_char ((n / 10 / 10 / 10) mod 10))
               (String (digit_char ((n / 10 / 10) mod 10))
                  (String (digit_char ((n / 10) mod 10))
                     (String (digit_char (n mod 10)) ""))).
Proof. reflexivity. Qed.

Lemma re_Y_first (y : Z) {A} (R : re) rest g
    (k : string -> string -> groups -> option A) :
  rmatch (Cat re_Y R) (zpad 4 y ++ rest)%string g k
  = rmatch R rest (("Y", zpad 4 y) :: g)
      (fun m2 s2 g2 => k (zpad 4 y ++ m2)%string s2 g2).
Proof.
  rewrite zpad_4.
  cbn [rmatch re_Y append].
  rewrite !ch_isdecimal_digit by digit_bound.
  reflexivity.
Qed.

Lemma int_zpad_2 n : 0 <= n <= 99 -> int (zpad 2 n) = Ok n.
Proof.
  intros H. rewrite zpad_2. unfold int. cbn [lstrip digits_value].
  assert (H1 : 0 <= (n / 10) mod 10 <= 9)
    by (pose proof (Z.mod_pos_bound (n / 10) 10); lia).
  assert (H0 : 0 <= n mod 10 <= 9)
    by (pose proof (Z.mod_pos_bound n 10); lia).
  rewrite (ch_isspace_digit _ H1). cbn [digits_value].
  rewrite !ch_isdecimal_digit, !ord_digit_char by assumption.
  f_equal. pose proof (Z.div_mod n 10). pose proof (Z.div_mod (n / 10) 10).
  assert (n / 10 / 10 = 0) by (apply Z.div_small; split; [|apply Z.div_lt_upper_bound]; try lia; apply Z.div_pos; lia).
  lia.
Qed.

Lemma int_zpad_4 n : 0 <= n <= 9999 -> int (zpad 4 n) = Ok n.
Proof.
  intros H. rewrite zpad_4. unfold int. cbn [lstrip digits_value].
  assert (H3 : 0 <= (n / 10 / 10 / 10) mod 10 <= 9)
    by (pose proof (Z.mod_pos_bound (n / 10 / 10 / 10) 10); lia).
  assert (H2 : 0 <= (n / 10 / 10) mod 10 <= 9)
    by (pose proof (Z.mod_pos_bound (n / 10 / 10) 10); lia).
  assert (H1 : 0 <= (n / 10) mod 10 <= 9)
    by (pose proof (Z.mod_pos_bound (n / 10) 10); lia).
  assert (H0 : 0 <= n mod 10 <= 9)
    by (pose proof (Z.mod_pos_bound n 10); lia).
  rewrite (ch_isspace_digit _ H3). cbn [digits_value].
  rewrite !ch_isdecimal_digit, !ord_digit_char by assumption.
  f_equal. clear H0 H1 H2 H3. Z.div_mod_to_equations. lia.
Qed.

Lemma valid_bounds t :
  PyDate.valid t = true ->
  1 <= PyDate.year t <= 9999 /\ 1 <= PyDate.month t <= 12
  /\ 1 <= PyDate.day t <= 31.
Proof.
  unfold PyDate.valid, PyDate.valid_fields, PyDate.MINYEAR, PyDate.MAXYEAR.
  intros H. pose proof (days_in_month_le (PyDate.year t) (PyDate.month t)).
  b2z. lia.
Qed.

Lemma pattern_dmY_eq : pattern "%d.%m.%Y" = Some pattern_dmY.
Proof. reflexivity. Qed.

Lemma pattern_Ymd_eq : pattern "%Y.%m.%d" = Some pattern_Ymd.
Proof. reflexivity. Qed.


Lemma strftime_Ymd t :
  strftime t "%Y.%m.%d"
  = (zpad 4 (PyDate.year t)
     ++ String "." (zpad 2 (PyDate.month t)
     ++ String "." (zpad 2 (PyDate.day t) ++ "")))%string.
Proof. reflexivity. Qed.

Lemma groups_to_date t g :
  PyDate.valid t = true ->
  lookup "Y" g = Some (zpad 4 (PyDate.year t)) ->
  lookup "m" g = Some (zpad 2 (PyDate.month t)) ->
  lookup "d" g = Some (zpad 2 (PyDate.day t)) ->
  rbind (group_int "Y" 1900 g) (fun y =>
  rbind (group_int "m" 1 g) (fun m =>
  rbind (group_int "d" 1 g) (fun d => PyDate.new y m d))) = Ok t.
Proof.
  intros V HY Hm Hd. destruct (valid_bounds t V) as [By [Bm Bd]].
  unfold group_int. rewrite HY, Hm, Hd.
  rewrite int_zpad_4, !int_zpad_2 by lia. cbn [rbind].
  destruct t as [y m d]. now apply new_valid.
Qed.


Lemma strptime_strftime_Ymd t :
  PyDate.valid t = true ->
  strptime (strftime t "%Y.%m.%d") "%Y.%m.%d" = Ok t.
Proof.
  intros V. destruct (valid_bounds t V) as [By [Bm Bd]].
  unfold strptime. rewrite pattern_Ymd_eq, strftime_Ymd.
  assert (M : match_ pattern_Ymd
                (zpad 4 (PyDate.year t)
                 ++ String "." (zpad 2 (PyDate.month t)
                 ++ String "." (zpad 2 (PyDate.day t) ++ "")))%string
              = Some ("", [("d", zpad 2 (PyDate.day t));
                           ("m", zpad 2 (PyDate.month t));
                           ("Y", zpad 4 (PyDate.year t))])).
  { unfold match_, pattern_Ymd.
    rewrite re_Y_first, lit_first.
    apply re_m_first; [assumption|]. rewrite lit_first.
    apply re_d_first; [assumption|]. reflexivity. }
  rewrite M. now apply groups_to_date.
Qed.

Lemma rmatch_sound {A} (r : re) : forall s g
    (k : string -> string -> groups -> option A) x,
  rmatch r s g k = Some x ->
  exists m rest g',
    s = (m ++ rest)%string /\ Matches r m g g' /\ k m rest g' = Some x.
Proof.
  induction r as [|c|lo hi| |r1 IH1 r2 IH2|r1 IH1 r2 IH2|name r IH];
    intros s g k x H; cbn [rmatch] in H.
  - exists "", s, g. repeat split; [constructor|assumption].
  - destruct s as [|a s]; [discriminate|].
    destruct (Ascii.eqb a c) eqn:E; [|discriminate].
    apply Ascii.eqb_eq in E. subst a.
    exists (one c), s, g. repeat split; [constructor|assumption].
  - destruct s as [|a s]; [discriminate|].
    destruct ((ord lo <=? ord a) && (ord a <=? ord hi)) eqn:E; [|discriminate].
    exists (one a), s, g. repeat split; [constructor; b2z; lia|assumption].
  - destruct s as [|a s]; [discriminate|].
    destruct (ch_isdecimal a) eqn:E; [|discriminate].
    exists (one a), s, g. repeat split; [now constructor|assumption].
  - apply IH1 in H. destruct H as [m1 [rest1 [g1 [-> [M1 H]]]]].
    apply IH2 in H. destruct H as [m2 [rest2 [g2 [-> [M2 H]]]]].
    exists (m1 ++ m2)%string, rest2, g2.
    repeat split; [|econstructor; eassumption|assumption].
    clear. induction m1 as [|c m1 IH]; simpl; [reflexivity|now rewrite IH].
  - destruct (rmatch r1 s g k) as [y|] eqn:E.
    + injection H as ->. apply IH1 in E.
      destruct E as [m [rest [g' [-> [M E]]]]].
      exists m, rest, g'. repeat split; [now apply M_AltL|assumption].
    + apply IH2 in H. destruct H as [m [rest [g' [-> [M E']]]]].
      exists m, rest, g'. repeat split; [now apply M_AltR|assumption].
  - apply IH in H. destruct H as [m [rest [g' [-> [M H]]]]].
    exists m, rest, ((name, m) :: g'). repeat split; [now constructor|assumption].
Qed.

Lemma chr_ord c : chr (ord c) = c.
Proof. unfold chr, ord. rewrite N2Z.id. apply ascii_N_embedding. Qed.

Ltac inv H := inversion H; subst; clear H.

(** A character in a short range of code points is one of its members. *)
Lemma char_in_range (P : ascii -> Prop) (lo : Z) (n : nat) :
  (forall i, (i < n)%nat -> P (chr (lo + Z.of_nat i))) ->
  forall c, lo <= ord c < lo + Z.of_nat n -> P c.
Proof.
  intros H c Hc. rewrite <- (chr_ord c).
  apply (small_range (fun v => P (chr v)) lo n H). exact Hc.
Qed.

Ltac inv_matches :=
  repeat match goal with
         | H : Matches (Alt _ _) _ _ _ |- _ => inv H
         | H : Matches (Cat _ _) _ _ _ |- _ => inv H
         | H : Matches (Grp _ _) _ _ _ |- _ => inv H
         | H : Matches (Lit _) _ _ _ |- _ => inv H
         | H : Matches (Range _ _) _ _ _ |- _ => inv H
         | H : Matches Dig _ _ _ |- _ => inv H
         | H : Matches Eps _ _ _ |- _ => inv H
         end.

Ltac enum_chars tac :=
  lazymatch goal with
  | H : ord ?lo <= ord ?c <= ord ?hi |- _ =>
      let l := eval vm_compute in (ord lo) in
      let h := eval vm_compute in (ord hi) in
      let n := eval vm_compute in (Z.to_nat (ord hi - ord lo + 1)) in
      let zn := eval vm_compute in (ord hi - ord lo + 1) in
      pattern c; apply (char_in_range _ l n);
      [clear H; let i := fresh "i" in let Hi := fresh "Hi" in
       intros i Hi;
       repeat (destruct i as [|i]; [enum_chars tac|try (exfalso; lia)])
      |change (ord lo) with l in H; change (ord hi) with h in H;
       change (Z.of_nat n) with zn; lia]
  | H : ch_isdecimal ?c = true |- _ =>
      pattern c; apply (char_in_range _ 48 10);
      [clear H; let i := fresh "i" in let Hi := fresh "Hi" in
       intros i Hi;
       repeat (destruct i as [|i]; [enum_chars tac|try (exfalso; lia)])
      |unfold ch_isdecimal in H; b2z; change (Z.of_nat 10) with 10; lia]
  | _ => tac
  end.

Lemma day_group D g g' :
  Matches re_d D g g' ->
  g' = ("d", D) :: g
  /\ exists d, 1 <= d <= 31 /\ int D = Ok d /\ In D (day_forms d).
Proof.
  unfold re_d. intros H. inv_matches.
  all: split; [reflexivity|].
  all: enum_chars ltac:(eexists; split; [|split];
                        [|vm_compute; reflexivity|]; [lia|vm_compute; tauto]).
Qed.

Lemma month_group M g g' :
  Matches re_m M g g' ->
  g' = ("m", M) :: g
  /\ exists m, 1 <= m <= 12 /\ int M = Ok m /\ In M (month_forms m).
Proof.
  unfold re_m. intros H. inv_matches.
  all: split; [reflexivity|].
  all: enum_chars ltac:(eexists; split; [|split];
                        [|vm_compute; reflexivity|]; [lia|vm_compute; tauto]).
Qed.

Lemma decimal_char c :
  ch_isdecimal c = true -> exists x, 0 <= x <= 9 /\ c = digit_char x.
Proof.
  intros H. unfold ch_isdecimal in H. b2z. exists (ord c - 48).
  split; [lia|]. unfold digit_char.
  replace (48 + (ord c - 48)) with (ord c) by lia. now rewrite chr_ord.
Qed.

Lemma year_group Y g g' :
  Matches re_Y Y g g' ->
  g' = ("Y", Y) :: g
  /\ exists y, 0 <= y <= 9999 /\ int Y = Ok y /\ Y = zpad 4 y.
Proof.
  unfold re_Y. intros H. inv_matches. split; [reflexivity|].
  repeat match goal with
         | H : ch_isdecimal ?c = true |- _ =>
             apply decimal_char in H; destruct H as [? [? ->]]
         end.
  match goal with
  | |- context [one (digit_char ?a) ++ one (digit_char ?b)
                ++ one (digit_char ?c) ++ one (digit_char ?d)] =>
      exists (1000 * a + 100 * b + 10 * c + d);
      assert (E : (one (digit_char a) ++ one (digit_char b)
                   ++ one (digit_char c) ++ one (digit_char d))%string
                  = zpad 4 (1000 * a + 100 * b + 10 * c + d))
  end.
  { rewrite zpad_4. unfold one. cbn [append].
    repeat f_equal; Z.div_mod_to_equations; lia. }
  rewrite E. split; [lia|]. split; [apply int_zpad_4; lia|reflexivity].
Qed.

Lemma re_d_forms (d : Z) (D : string) {A} (R : re) rest g
    (k : string -> string -> groups -> option A) x :
  1 <= d <= 31 -> In D (day_forms d) ->
  rmatch R (String "." rest) (("d", D) :: g)
         (fun m2 s2 g2 => k (D ++ m2)%string s2 g2) = Some x ->
  rmatch (Cat re_d R) (D ++ String "." rest)%string g k = Some x.
Proof.
  intros Hd. revert D x. pattern d.
  apply (small_range _ 1 31); [|lia]. clear d Hd. intros i Hi.
  do 31 (destruct i as [|i];
         [intros D x HD; vm_compute in HD;
          repeat (destruct HD as [<-|HD]; [intros H; cbn; first_match H|]);
          destruct HD|]).
  lia.
Qed.

Lemma re_m_forms (m : Z) (M : string) {A} (R : re) rest g
    (k : string -> string -> groups -> option A) x :
  1 <= m <= 12 -> In M (month_forms m) ->
  rmatch R (String "." rest) (("m", M) :: g)
         (fun m2 s2 g2 => k (M ++ m2)%string s2 g2) = Some x ->
  rmatch (Cat re_m R) (M ++ String "." rest)%string g k = Some x.
Proof.
  intros Hm. revert M x. pattern m.
  apply (small_range _ 1 12); [|lia]. clear m Hm. intros i Hi.
  do 12 (destruct i as [|i];
         [intros M x HM; vm_compute in HM;
          repeat (destruct HM as [<-|HM]; [intros H; cbn; first_match H|]);
          destruct HM|]).
  lia.
Qed.

Lemma int_day_form d D : 1 <= d <= 31 -> In D (day_forms d) -> int D = Ok d.
Proof.
  intros Hd. revert D. pattern d.
  apply (small_range _ 1 31); [|lia]. clear d Hd. intros i Hi.
  do 31 (destruct i as [|i];
         [intros D HD; vm_compute in HD;
          repeat (destruct HD as [<-|HD]; [vm_compute; reflexivity|]);
          destruct HD|]).
  lia.
Qed.

Lemma int_month_form m M :
  1 <= m <= 12 -> In M (month_forms m) -> int M = Ok m.
Proof.
  intros Hm. revert M. pattern m.
  apply (small_range _ 1 12); [|lia]. clear m Hm. intros i Hi.
  do 12 (destruct i as [|i];
         [intros M HM; vm_compute in HM;
          repeat (destruct HM as [<-|HM]; [vm_compute; reflexivity|]);
          destruct HM|]).
  lia.
Qed.

Lemma append_nil_r s : (s ++ "")%string = s.
Proof. induction s as [|c s IH]; simpl; [reflexivity|now rewrite IH]. Qed.

(** The strings [Birthday] accepts, and the date each one denotes. *)
Lemma strptime_dmY_iff s t :
  strptime s "%d.%m.%Y" = Ok t
  <-> PyDate.valid t = true
      /\ exists D M,
           In D (day_forms (PyDate.day t))
           /\ In M (month_forms (PyDate.month t))
           /\ s = (D ++ "." ++ M ++ "." ++ zpad 4 (PyDate.year t))%string.
Proof.
  split.
  - unfold strptime. rewrite pattern_dmY_eq.
    destruct (match_ pattern_dmY s) as [[[|? ?] g]|] eqn:E; try discriminate.
    unfold match_ in E. apply rmatch_sound in E.
    destruct E as [m [rest [g' [-> [HM E]]]]]. injection E as -> ->.
    rewrite append_nil_r. unfold pattern_dmY in HM.
    repeat match goal with
           | H : Matches (Cat _ _) _ _ _ |- _ => inv H
           | H : Matches (Lit _) _ _ _ |- _ => inv H
           | H : Matches Eps _ _ _ |- _ => inv H
           | H : Matches re_d _ _ _ |- _ =>
               apply day_group in H; destruct H as [? [d [Bd [Id Fd]]]]; subst
           | H : Matches re_m _ _ _ |- _ =>
               apply month_group in H;
               destruct H as [? [mo [Bm [Im Fm]]]]; subst
           | H : Matches re_Y _ _ _ |- _ =>
               apply year_group in H;
               destruct H as [? [y [By [Iy ?]]]]; subst
           end.
    unfold group_int. cbn [lookup String.eqb Ascii.eqb Bool.eqb].
    rewrite Iy, Im, Id. cbn [rbind]. intros N. apply new_inv in N.
    destruct N as [-> V]. split; [assumption|].
    cbn [PyDate.day PyDate.month PyDate.year].
    match goal with
    | |- context [(?D ++ one "." ++ ?M ++ _)%string] => exists D, M
    end.
    repeat split; assumption.
  - intros [V [D [M [HD [HM ->]]]]].
    destruct (valid_bounds t V) as [By [Bm Bd]].
    unfold strptime. rewrite pattern_dmY_eq.
    assert (E : match_ pattern_dmY
                  (D ++ "." ++ M ++ "." ++ zpad 4 (PyDate.year t))%string
                = Some ("", [("Y", zpad 4 (PyDate.year t)); ("m", M);
                             ("d", D)])).
    { unfold match_, pattern_dmY.
      apply re_d_forms with (d := PyDate.day t); [assumption..|].
      rewrite lit_first.
      apply re_m_forms with (m := PyDate.month t); [assumption..|].
      rewrite lit_first.
      rewrite <- (append_nil_r (zpad 4 (PyDate.year t))) at 1.
      rewrite re_Y_first. reflexivity. }
    rewrite E. unfold group_int. cbn [lookup String.eqb Ascii.eqb Bool.eqb].
    rewrite int_zpad_4 by lia.
    rewrite (int_month_form _ _ Bm HM), (int_day_form _ _ Bd HD).
    cbn [rbind]. destruct t as [y m d]. now apply new_valid.
Qed.

End PyTimeFacts.

Import PyTimeFacts.

(** ** Phones and birthdays *)

Lemma str_contains_In x xs : PyStr.contains x xs = true <-> In x xs.
Proof.
  unfold PyStr.contains. rewrite existsb_exists. split.
  - intros [y [Hy E]]. apply String.eqb_eq in E. now subst.
  - intros H. exists x. split; [assumption|apply String.eqb_refl].
Qed.

Lemma without_not_In phone ps :
  ~ In phone (map Phone.__str__ (without phone ps)).
Proof.
  unfold without. rewrite in_map_iff. intros [p [Hp Hin]].
  apply filter_In in Hin. destruct Hin as [_ Hne].
  rewrite Hp, String.eqb_refl in Hne. discriminate.
Qed.

Lemma validate_cases (p : Phone.t) :
  Phone.validate p = Ok tt
  \/ Phone.validate p = Raise (ValueError Phone.invalid_msg).
Proof. unfold Phone.validate. destruct (_ || _); auto. Qed.


Lemma rbind_raise {A B} (r : result A) (f : A -> result B) e :
  rbind r f = Raise e ->
  r = Raise e \/ exists a, r = Ok a /\ f a = Raise e.
Proof. destruct r as [a|e']; cbn [rbind]; [eauto|intros [= ->]; auto]. Qed.

Lemma int_raise s e : PyStr.int s = Raise e -> is_ValueError e.
Proof.
  unfold PyStr.int, is_ValueError.
  destruct (PyStr.lstrip s); [intros [= <-]; eauto|].
  destruct (PyStr.digits_value _ _); [discriminate|intros [= <-]; eauto].
Qed.

Lemma group_int_raise name default g e :
  PyTime.group_int name default g = Raise e -> is_ValueError e.
Proof.
  unfold PyTime.group_int. destruct (PyRe.lookup name g); [|discriminate].
  apply int_raise.
Qed.

Lemma new_raise y m d e : PyDate.new y m d = Raise e -> is_ValueError e.
Proof.
  unfold PyDate.new, is_ValueError.
  repeat match goal with
         | |- context [if ?b then _ else _] => destruct b
         end; try discriminate; intros [= <-]; eauto.
Qed.

Lemma strptime_raise s fmt e :
  PyTime.strptime s fmt = Raise e -> is_ValueError e.
Proof.
  unfold PyTime.strptime.
  destruct (PyTime.pattern fmt); [|intros [= <-]; red; eauto].
  destruct (PyRe.match_ _ _) as [[[|? ?] g]|];
    try (intros [= <-]; red; eauto).
  intros H.
  apply rbind_raise in H.
  destruct H as [H|[y [_ H]]]; [now apply group_int_raise in H|].
  apply rbind_raise in H.
  destruct H as [H|[m [_ H]]]; [now apply group_int_raise in H|].
  apply rbind_raise in H.
  destruct H as [H|[d [_ H]]]; [now apply group_int_raise in H|].
  now apply new_raise in H.
Qed.

Lemma Birthday_init_cases s :
  (exists t, PyTime.strptime s "%d.%m.%Y" = Ok t
             /\ Birthday.__init__ s = Ok (mkField s))
  \/ ((forall t, PyTime.strptime s "%d.%m.%Y" <> Ok t)
      /\ Birthday.__init__ s = Raise (ValueError Birthday.invalid_msg)).
Proof.
  unfold Birthday.__init__, Birthday.date_format.
  destruct (PyTime.strptime s "%d.%m.%Y") as [t|e] eqn:E.
  - left. exists t. split; reflexivity.
  - right. split; [discriminate|].
    apply strptime_raise in E. destruct E as [msg ->]. reflexivity.
Qed.

Lemma accepted_iff s :
  accepted_birthday s <-> exists t, PyTime.strptime s "%d.%m.%Y" = Ok t.
Proof.
  split.
  - intros [t [D [M [V [HD [HM E]]]]]]. exists t.
    apply strptime_dmY_iff. split; [assumption|]. exists D, M. auto.
  - intros [t H]. apply strptime_dmY_iff in H.
    destruct H as [V [D [M H]]]. exists t, D, M. tauto.
Qed.



(** * The claims *)

Example scenario_2024_06_10 :
  AddressBook.get_upcoming_birthdays monday_2024_06_10 bookABC
  = (Ok [AddressBook.mkentry "A" "2024.06.12";
         AddressBook.mkentry "B" "2024.06.17"], bookABC).
Proof. vm_compute. reflexivity. Qed.

Example saturday_2024_06_15 :
  PyDate.weekday (PyDate.mkdate 2024 6 15) = 5.
Proof. vm_compute. reflexivity. Qed.

Example superscript_phone_accepted :
  Phone.validate (Phone.__init__ superscript_phone) = Ok tt.
Proof. vm_compute. reflexivity. Qed.

Example unpadded_birthday_accepted :
  Birthday.__init__ "1.1.2020" = Ok (mkField "1.1.2020").
Proof. vm_compute. reflexivity. Qed.

Example space_padded_birthday_accepted :
  Birthday.__init__ " 1.1.2020" = Ok (mkField " 1.1.2020").
Proof. vm_compute. reflexivity. Qed.

Example edit_then_find :
  let r := snd (Rec.edit_phone "1112223333" "4445556666" two_phones) in
  Rec.find_phone "4445556666" r = (Ok "4445556666", r)
  /\ Rec.find_phone "1112223333" r
     = (Raise (ValueError Rec.not_found_msg), r).
Proof. vm_compute. split; reflexivity. Qed.

Example leap_day_2023 :
  AddressBook.get_upcoming_birthdays (PyDate.mkdate 2023 3 1) leap_book
  = (Raise (ValueError "day is out of range for month"), leap_book).
Proof. vm_compute. reflexivity. Qed.

(** C1.  With today = 2024-06-10, a Monday, the query over a directory whose
    records are A (birthday 12.06.1990), B (birthday 15.06.1985) and C
    (birthday 01.01.1990) returns exactly the entries A with "2024.06.12"
    and B with "2024.06.17": the Saturday 15 June is moved to Monday
    17 June, and C, outside the window, contributes nothing.  The order of
    the records in the directory and their phones play no part. *)
Theorem C1_upcoming_scenario (book : AddressBook.t) (a b c : Rec.t) :
  is_contact "A" "12.06.1990" a ->
  is_contact "B" "15.06.1985" b ->
  is_contact "C" "01.01.1990" c ->
  (forall r, In r (PyDict.values (AddressBook.data book))
             <-> r = a \/ r = b \/ r = c) ->
  exists res,
    AddressBook.get_upcoming_birthdays monday_2024_06_10 book = (Ok res, book)
    /\ PyDate.weekday monday_2024_06_10 = 0
    /\ forall e, In e res
                 <-> e = AddressBook.mkentry "A" "2024.06.12"
                     \/ e = AddressBook.mkentry "B" "2024.06.17".
Proof.
  intros Ha Hb Hc Hbook.
  pose proof (entries_of_contact monday_2024_06_10 _ _ _ Ha) as Ea.
  pose proof (entries_of_contact monday_2024_06_10 _ _ _ Hb) as Eb.
  pose proof (entries_of_contact monday_2024_06_10 _ _ _ Hc) as Ec.
  assert (Ra : rbind (PyTime.strptime "12.06.1990" "%d.%m.%Y")
                 (fun parsed => schedule monday_2024_06_10 "A" parsed [])
               = Ok [AddressBook.mkentry "A" "2024.06.12"])
    by (vm_compute; reflexivity).
  assert (Rb : rbind (PyTime.strptime "15.06.1985" "%d.%m.%Y")
                 (fun parsed => schedule monday_2024_06_10 "B" parsed [])
               = Ok [AddressBook.mkentry "B" "2024.06.17"])
    by (vm_compute; reflexivity).
  assert (Rc : rbind (PyTime.strptime "01.01.1990" "%d.%m.%Y")
                 (fun parsed => schedule monday_2024_06_10 "C" parsed [])
               = Ok [])
    by (vm_compute; reflexivity).
  rewrite Ra in Ea. rewrite Rb in Eb. rewrite Rc in Ec. clear Ra Rb Rc.
  rewrite get_upcoming_birthdays_eq.
  rewrite visit_all_result_ok.
  2:{ intros r Hr. apply Hbook in Hr.
      destruct Hr as [->|[->| ->]]; [rewrite Ea|rewrite Eb|rewrite Ec];
        reflexivity. }
  eexists. split; [reflexivity|]. split; [vm_compute; reflexivity|].
  intros e. cbn [app]. rewrite in_flat_map. split.
  - intros [r [Hr He]]. apply Hbook in Hr. unfold entries_of in He.
    destruct Hr as [->|[->| ->]];
      [rewrite Ea in He|rewrite Eb in He|rewrite Ec in He];
      simpl in He; intuition congruence.
  - intros [->| ->]; [exists a|exists b]; (split; [apply Hbook; tauto|]);
      unfold entries_of; [rewrite Ea|rewrite Eb]; simpl; tauto.
Qed.

Lemma C1_witness :
  exists res,
    AddressBook.get_upcoming_birthdays monday_2024_06_10 bookABC
    = (Ok res, bookABC)
    /\ PyDate.weekday monday_2024_06_10 = 0
    /\ forall e, In e res
                 <-> e = AddressBook.mkentry "A" "2024.06.12"
                     \/ e = AddressBook.mkentry "B" "2024.06.17".
Proof.
  apply (C1_upcoming_scenario bookABC recA recB recC).
  - split; reflexivity.
  - split; reflexivity.
  - split; reflexivity.
  - intros r. simpl. intuition congruence.
Defined.

(** C2.  The code does not do what the claim asks: whenever the directory
    holds a record whose stored birthday parses to 29 February and the year
    of today is not a leap year, the query raises instead of returning
    (the exception comes from [replace(year=today.year)], or from a record
    visited earlier). *)
Theorem C2_leap_day_raises (book : AddressBook.t) (today : PyDate.date)
    (r : Rec.t) (b : Birthday.t) (parsed : PyDate.date) :
  In r (PyDict.values (AddressBook.data book)) ->
  Rec.birthday r = Some b ->
  PyTime.strptime (value b) "%d.%m.%Y" = Ok parsed ->
  PyDate.month parsed = 2 -> PyDate.day parsed = 29 ->
  PyDate._is_leap (PyDate.year today) = false ->
  is_ok (fst (AddressBook.get_upcoming_birthdays today book)) = false.
Proof.
  intros Hin Hb Hp Hm Hd Hl. rewrite get_upcoming_birthdays_eq. cbn [fst].
  apply visit_all_result_raise with (r := r); [assumption|].
  unfold visit_result. rewrite Hb, Hp. cbn [rbind]. unfold schedule.
  pose proof (leap_day_raises today parsed Hm Hd Hl) as H.
  destruct (occurrence today parsed); [discriminate|reflexivity].
Qed.

Lemma C2_witness :
  AddressBook.get_upcoming_birthdays (PyDate.mkdate 2023 3 1) leap_book
  = (Raise (ValueError "day is out of range for month"), leap_book)
  /\ is_ok (fst (AddressBook.get_upcoming_birthdays
                   (PyDate.mkdate 2023 3 1) leap_book)) = false.
Proof.
  split; [vm_compute; reflexivity|].
  apply (C2_leap_day_raises leap_book (PyDate.mkdate 2023 3 1) olena
           (mkField "29.02.2000") (PyDate.mkdate 2000 2 29));
    solve [vm_compute; reflexivity | left; reflexivity].
Defined.


Lemma length_len s n : PyStr.len s = Z.of_nat n <-> String.length s = n.
Proof. unfold PyStr.len. lia. Qed.

Lemma isdigit_all s :
  String.length s = 10%nat ->
  PyStr.isdigit s = PyStr.all_chars PyStr.ch_isdigit s.
Proof. destruct s; [discriminate|reflexivity]. Qed.

Lemma validate_ok_iff s :
  Phone.validate (Phone.__init__ s) = Ok tt <-> ten_digits s.
Proof.
  unfold Phone.validate, Phone.__init__, ten_digits. cbn [value].
  destruct (PyStr.len s =? 10) eqn:L.
  - apply Z.eqb_eq in L. apply (length_len s 10) in L.
    rewrite (isdigit_all s L). cbn [negb orb].
    destruct (PyStr.all_chars PyStr.ch_isdigit s); cbn [negb];
      split; (tauto || discriminate || (intros [_ ?]; discriminate)).
  - cbn [negb orb]. split; [discriminate|].
    intros [H _]. apply (length_len s 10) in H.
    apply Z.eqb_neq in L. contradiction.
Qed.

(** On ASCII characters the two notions of digit agree. *)
Lemma ascii_digit_decimal c :
  PyStr.ord c < 128 -> PyStr.ch_isdigit c = PyStr.ch_isdecimal c.
Proof.
  unfold PyStr.ch_isdigit. intros H.
  destruct (PyStr.ord c =? 178) eqn:E1; [b2z; lia|].
  destruct (PyStr.ord c =? 179) eqn:E2; [b2z; lia|].
  destruct (PyStr.ord c =? 185) eqn:E3; [b2z; lia|].
  now rewrite !orb_false_r.
Qed.

Lemma ascii_digits_decimal s :
  is_ascii s = true ->
  PyStr.all_chars PyStr.ch_isdigit s = PyStr.all_chars PyStr.ch_isdecimal s.
Proof.
  unfold is_ascii. induction s as [|c s IH]; [reflexivity|].
  cbn [PyStr.all_chars]. intros Hs.
  apply andb_prop in Hs. destruct Hs as [Hc Hs].
  rewrite ascii_digit_decimal by (b2z; lia). now rewrite IH.
Qed.

Lemma superscript_not_decimal c :
  ch_superscript c = true -> PyStr.ch_isdecimal c = false.
Proof.
  unfold ch_superscript, PyStr.ch_isdecimal. intros H.
  apply orb_prop in H. destruct H as [H|H];
    [apply orb_prop in H; destruct H as [H|H]|];
    apply Z.eqb_eq in H; rewrite H; reflexivity.
Qed.

(** [str.isdigit] takes a character exactly when it is a decimal digit or
    one of the three superscript digits. *)
Lemma superscript_isdigit c :
  PyStr.ch_isdecimal c || ch_superscript c = PyStr.ch_isdigit c.
Proof.
  unfold ch_superscript, PyStr.ch_isdigit.
  now rewrite !orb_assoc.
Qed.

Lemma any_superscript_not_decimal s :
  any_char ch_superscript s = true ->
  PyStr.all_chars PyStr.ch_isdecimal s = false.
Proof.
  induction s as [|c s IH]; [discriminate|].
  cbn [any_char PyStr.all_chars]. intros H.
  apply orb_prop in H. destruct H as [H|H].
  - now rewrite (superscript_not_decimal c H).
  - rewrite (IH H). apply andb_false_r.
Qed.

Lemma all_chars_ext p q s :
  (forall c, p c = q c) -> PyStr.all_chars p s = PyStr.all_chars q s.
Proof.
  intros E. induction s as [|c s IH]; [reflexivity|].
  cbn [PyStr.all_chars]. now rewrite E, IH.
Qed.

(** On strings of ASCII characters the code does what C3 says: it accepts
    exactly the strings of ten decimal digits. *)
Lemma validate_ascii_iff (s : string) :
  is_ascii s = true ->
  (Phone.validate (Phone.__init__ s) = Ok tt <-> ten_decimal_digits s).
Proof.
  intros Hs. rewrite validate_ok_iff. unfold ten_digits, ten_decimal_digits.
  now rewrite (ascii_digits_decimal s Hs).
Qed.

(** C3.  The code does not do what the claim says: it accepts phones that
    are not ten decimal digits.  Every string of ten characters, each a
    decimal digit or one of the superscript digits U+00B2, U+00B3, U+00B9,
    and at least one of them a superscript digit, passes [validate],
    because the test is [str.isdigit]. *)
Theorem C3_superscript_digits_accepted (s : string) :
  String.length s = 10%nat ->
  PyStr.all_chars (fun c => PyStr.ch_isdecimal c || ch_superscript c) s
  = true ->
  any_char ch_superscript s = true ->
  Phone.validate (Phone.__init__ s) = Ok tt /\ ~ ten_decimal_digits s.
Proof.
  intros L A S. split.
  - apply validate_ok_iff. split; [exact L|].
    rewrite <- A. apply all_chars_ext. intros c.
    symmetry. apply superscript_isdigit.
  - intros [_ D]. rewrite (any_superscript_not_decimal s S) in D.
    discriminate.
Qed.

Lemma C3_witness :
  Phone.validate (Phone.__init__ superscript_phone) = Ok tt
  /\ ~ ten_decimal_digits superscript_phone.
Proof.
  apply (C3_superscript_digits_accepted superscript_phone);
    vm_compute; reflexivity.
Defined.

Module PyTimeMore.
Import PyStr PyTime PyTimeSpec PyTimeFacts.








End PyTimeMore.





(** C5.  [edit_phone old new] does exactly one of three things.  When no
    phone of the record equals [old], it raises the phone-not-found error
    and leaves the record as it was.  Otherwise every phone equal to [old]
    is removed first; then, when [new] is valid, [new] is appended and the
    call returns, and when [new] is not valid the call raises the
    invalid-phone error and the record is left with [old] removed. *)
Theorem C5_edit_phone (r : Rec.t) (old_phone new_phone : string) :
  (~ In old_phone (map Phone.__str__ (Rec.phones r))
   /\ Rec.edit_phone old_phone new_phone r
      = (Raise (ValueError Rec.not_found_msg), r))
  \/ (In old_phone (map Phone.__str__ (Rec.phones r))
      /\ Phone.validate (Phone.__init__ new_phone) = Ok tt
      /\ Rec.edit_phone old_phone new_phone r
         = (Ok tt,
            Rec.set_phones
              (without old_phone (Rec.phones r) ++ [Phone.__init__ new_phone])
              r))
  \/ (In old_phone (map Phone.__str__ (Rec.phones r))
      /\ Phone.validate (Phone.__init__ new_phone)
         = Raise (ValueError Phone.invalid_msg)
      /\ Rec.edit_phone old_phone new_phone r
         = (Raise (ValueError Phone.invalid_msg),
            Rec.set_phones (without old_phone (Rec.phones r)) r)
      /\ ~ In old_phone
           (map Phone.__str__
              (Rec.phones (snd (Rec.edit_phone old_phone new_phone r))))).
Proof.
  unfold Rec.edit_phone, bind, get.
  destruct (PyStr.contains old_phone (map Phone.__str__ (Rec.phones r)))
    eqn:E; cbn [negb].
  - apply str_contains_In in E. right.
    unfold Rec.remove_phone, Rec.add_phone, bind, get, put, lift.
    fold (without old_phone (Rec.phones r)).
    destruct (validate_cases (Phone.__init__ new_phone)) as [V|V]; rewrite V.
    + left. repeat split; assumption.
    + right. repeat split; try assumption.
      cbn [snd Rec.set_phones Rec.phones]. apply without_not_In.
  - left. split; [|reflexivity].
    intros H. apply str_contains_In in H. congruence.
Qed.


Lemma C5_witness :
  Rec.edit_phone "1112223333" "4445556666" two_phones
  = (Ok tt,
     Rec.set_phones [mkField "0501112233"; mkField "4445556666"] two_phones)
  /\ Rec.edit_phone "1112223333" "12345" two_phones
     = (Raise (ValueError Phone.invalid_msg),
        Rec.set_phones [mkField "0501112233"] two_phones)
  /\ Rec.edit_phone "0000000000" "4445556666" two_phones
     = (Raise (ValueError Rec.not_found_msg), two_phones).
Proof.
  split; [|split].
  - destruct (C5_edit_phone two_phones "1112223333" "4445556666")
      as [[N _]|[[_ [_ E]]|[_ [V _]]]].
    + exfalso. apply N. left. reflexivity.
    + exact E.
    + vm_compute in V. discriminate.
  - destruct (C5_edit_phone two_phones "1112223333" "12345")
      as [[N _]|[[_ [V _]]|[_ [_ [E _]]]]].
    + exfalso. apply N. left. reflexivity.
    + vm_compute in V. discriminate.
    + exact E.
  - destruct (C5_edit_phone two_phones "0000000000" "4445556666")
      as [[_ E]|[[I _]|[I _]]].
    + exact E.
    + simpl in I. exfalso. intuition discriminate.
    + simpl in I. exfalso. intuition discriminate.
Defined.

(** C6.  On a directory (a dictionary: no key twice), [add_record r] returns
    without error and leaves a directory in which the key [r.name] holds
    [r] -- replacing the record that was there, if any -- every other key
    holds what it held before and still no key occurs twice; a [find] with
    that name then returns [r], whose name is [r.name]. *)
Theorem C6_add_record_then_find (book : AddressBook.t) (r : Rec.t) :
  PyDict.wf (AddressBook.data book) ->
  exists book',
    AddressBook.add_record r book = (Ok tt, book')
    /\ PyDict.wf (AddressBook.data book')
    /\ PyDict.getitem (value (Rec.name r)) (AddressBook.data book') = Some r
    /\ (forall k, k <> value (Rec.name r) ->
          PyDict.getitem k (AddressBook.data book')
          = PyDict.getitem k (AddressBook.data book))
    /\ exists found,
         AddressBook.find (value (Rec.name r)) book' = (Ok found, book')
         /\ found = r
         /\ value (Rec.name found) = value (Rec.name r).
Proof.
  intros Hwf.
  exists (AddressBook.mk
            (PyDict.setitem (value (Rec.name r)) r (AddressBook.data book))).
  split; [reflexivity|]. cbn [AddressBook.data].
  split; [now apply wf_setitem|].
  split; [apply getitem_setitem_eq|].
  split; [intros k Hk; apply getitem_setitem_ne; congruence|].
  exists r. split; [|split; reflexivity].
  unfold AddressBook.find, bind, get. cbn [AddressBook.data].
  destruct (PyDict.contains _ _) eqn:E.
  - cbn [negb]. now rewrite getitem_setitem_eq.
  - apply contains_getitem in E. rewrite getitem_setitem_eq in E. discriminate.
Qed.

Lemma small_book_wf : PyDict.wf (AddressBook.data small_book).
Proof.
  unfold PyDict.wf. simpl. repeat constructor; simpl; intuition discriminate.
Qed.

Lemma C6_witness :
  exists book',
    AddressBook.add_record petro_new small_book = (Ok tt, book')
    /\ PyDict.wf (AddressBook.data book')
    /\ PyDict.getitem "Petro" (AddressBook.data book') = Some petro_new
    /\ (forall k, k <> "Petro" ->
          PyDict.getitem k (AddressBook.data book')
          = PyDict.getitem k (AddressBook.data small_book))
    /\ exists found,
         AddressBook.find "Petro" book' = (Ok found, book')
         /\ found = petro_new
         /\ value (Rec.name found) = "Petro".
Proof. apply (C6_add_record_then_find small_book petro_new small_book_wf). Defined.


(** C7.  [delete name] on a directory with no record under [name] raises
    the not-found error and leaves the directory as it was; with a record
    under [name] it returns, the entry is gone, the other entries are
    untouched, and a [find name] on the result raises the not-found
    error. *)
Theorem C7_delete (book : AddressBook.t) (name : string) :
  PyDict.wf (AddressBook.data book) ->
  (PyDict.getitem name (AddressBook.data book) = None
   /\ AddressBook.delete name book
      = (Raise (KeyError AddressBook.not_found_msg), book))
  \/ (exists r book',
        PyDict.getitem name (AddressBook.data book) = Some r
        /\ AddressBook.delete name book = (Ok tt, book')
        /\ PyDict.wf (AddressBook.data book')
        /\ PyDict.getitem name (AddressBook.data book') = None
        /\ (forall k, k <> name ->
              PyDict.getitem k (AddressBook.data book')
              = PyDict.getitem k (AddressBook.data book))
        /\ AddressBook.find name book'
           = (Raise (KeyError AddressBook.not_found_msg), book')).
Proof.
  intros Hwf. unfold AddressBook.delete, AddressBook.find, bind, get.
  destruct (PyDict.contains name (AddressBook.data book)) eqn:E; cbn [negb].
  - right.
    destruct (PyDict.getitem name (AddressBook.data book)) as [r|] eqn:G;
      [|apply contains_getitem in G; congruence].
    exists r, (AddressBook.mk (PyDict.delitem name (AddressBook.data book))).
    cbn [AddressBook.data].
    pose proof (getitem_delitem_eq name _ Hwf) as Hnone.
    repeat split; try assumption.
    + now apply wf_delitem.
    + intros k Hk. apply getitem_delitem_ne. congruence.
    + apply contains_getitem in Hnone. now rewrite Hnone.
  - left. split; [now apply contains_getitem|reflexivity].
Qed.

Lemma C7_witness :
  (PyDict.getitem "Petro" (AddressBook.data small_book) = None
   /\ AddressBook.delete "Petro" small_book
      = (Raise (KeyError AddressBook.not_found_msg), small_book))
  \/ (exists r book',
        PyDict.getitem "Petro" (AddressBook.data small_book) = Some r
        /\ AddressBook.delete "Petro" small_book = (Ok tt, book')
        /\ PyDict.wf (AddressBook.data book')
        /\ PyDict.getitem "Petro" (AddressBook.data book') = None
        /\ (forall k, k <> "Petro" ->
              PyDict.getitem k (AddressBook.data book')
              = PyDict.getitem k (AddressBook.data small_book))
        /\ AddressBook.find "Petro" book'
           = (Raise (KeyError AddressBook.not_found_msg), book')).
Proof. apply (C7_delete small_book "Petro" small_book_wf). Defined.

(** C8.  When the query returns, every entry of the result comes from a
    record of the directory, and its congratulation date is the
    [YYYY.MM.DD] text of a real date [c] that is a Monday to Friday.  If
    the occurrence of the birthday is itself a Monday to Friday, [c] is
    that occurrence; if it is a Saturday or a Sunday, [c] is the Monday
    two days or one day after it. *)
Theorem C8_congratulation_on_weekday (book book' : AddressBook.t)
    (today : PyDate.date) (res : list AddressBook.entry)
    (e : AddressBook.entry) :
  AddressBook.get_upcoming_birthdays today book = (Ok res, book') ->
  In e res ->
  exists r b parsed birthday c,
    In r (PyDict.values (AddressBook.data book))
    /\ AddressBook.name e = value (Rec.name r)
    /\ Rec.birthday r = Some b
    /\ PyTime.strptime (value b) "%d.%m.%Y" = Ok parsed
    /\ occurrence today parsed = Ok birthday
    /\ PyDate.valid c = true
    /\ AddressBook.congratulation_date e = PyTime.strftime c "%Y.%m.%d"
    /\ PyTime.strptime (AddressBook.congratulation_date e) "%Y.%m.%d" = Ok c
    /\ 0 <= PyDate.weekday c <= 4
    /\ ((PyDate.weekday birthday <= 4 /\ c = birthday)
        \/ (5 <= PyDate.weekday birthday
            /\ PyDate.weekday c = 0
            /\ PyDate.toordinal c
               = PyDate.toordinal birthday + (7 - PyDate.weekday birthday))).
Proof.
  rewrite get_upcoming_birthdays_eq. intros H He. injection H as H _.
  apply visit_all_result_inv in H. destruct H as [_ ->]. cbn [app] in He.
  apply in_flat_map in He. destruct He as [r [Hr He]].
  apply entries_of_inv in He.
  destruct He as [b [parsed [bd [c [Hb [Hp [Ho [_ [Ha ->]]]]]]]]].
  pose proof (occurrence_valid _ _ _ Ho) as Vbd.
  destruct (congratulation_weekday _ _ _ Vbd Ha) as [Vc [Wc Hc]].
  exists r, b, parsed, bd, c. cbn [AddressBook.name AddressBook.congratulation_date].
  repeat split; try assumption; try lia.
  now apply strptime_strftime_Ymd.
Qed.

Lemma C8_witness :
  exists r b parsed birthday c,
    In r (PyDict.values (AddressBook.data bookABC))
    /\ "B" = value (Rec.name r)
    /\ Rec.birthday r = Some b
    /\ PyTime.strptime (value b) "%d.%m.%Y" = Ok parsed
    /\ occurrence monday_2024_06_10 parsed = Ok birthday
    /\ PyDate.valid c = true
    /\ "2024.06.17" = PyTime.strftime c "%Y.%m.%d"
    /\ PyTime.strptime "2024.06.17" "%Y.%m.%d" = Ok c
    /\ 0 <= PyDate.weekday c <= 4
    /\ ((PyDate.weekday birthday <= 4 /\ c = birthday)
        \/ (5 <= PyDate.weekday birthday
            /\ PyDate.weekday c = 0
            /\ PyDate.toordinal c
               = PyDate.toordinal birthday + (7 - PyDate.weekday birthday))).
Proof.
  apply (C8_congratulation_on_weekday bookABC bookABC monday_2024_06_10
           [AddressBook.mkentry "A" "2024.06.12";
            AddressBook.mkentry "B" "2024.06.17"]
           (AddressBook.mkentry "B" "2024.06.17")).
  - vm_compute. reflexivity.
  - right. left. reflexivity.
Defined.

(** C9.  When the query returns, the directory is what it was before: the
    same names in the same order, and under each name a record with the
    same phones and the same birthday. *)
Theorem C9_query_read_only (book book' : AddressBook.t) (today : PyDate.date)
    (res : list AddressBook.entry) :
  AddressBook.get_upcoming_birthdays today book = (Ok res, book') ->
  book' = book
  /\ PyDict.keys (AddressBook.data book') = PyDict.keys (AddressBook.data book)
  /\ forall name r,
       PyDict.getitem name (AddressBook.data book) = Some r ->
       exists r',
         PyDict.getitem name (AddressBook.data book') = Some r'
         /\ Rec.phones r' = Rec.phones r
         /\ Rec.birthday r' = Rec.birthday r.
Proof.
  rewrite get_upcoming_birthdays_eq. intros H. injection H as _ <-.
  split; [reflexivity|]. split; [reflexivity|].
  intros name r Hr. exists r. auto.
Qed.

Lemma C9_witness :
  bookABC = bookABC
  /\ PyDict.keys (AddressBook.data bookABC)
     = PyDict.keys (AddressBook.data bookABC)
  /\ forall name r,
       PyDict.getitem name (AddressBook.data bookABC) = Some r ->
       exists r',
         PyDict.getitem name (AddressBook.data bookABC) = Some r'
         /\ Rec.phones r' = Rec.phones r
         /\ Rec.birthday r' = Rec.birthday r.
Proof.
  apply (C9_query_read_only bookABC bookABC monday_2024_06_10
           [AddressBook.mkentry "A" "2024.06.12";
            AddressBook.mkentry "B" "2024.06.17"]).
  vm_compute. reflexivity.
Defined.

(** The state is left as it was also when the query raises. *)
Lemma query_state_unchanged (book : AddressBook.t) (today : PyDate.date) :
  snd (AddressBook.get_upcoming_birthdays today book) = book.
Proof. now rewrite get_upcoming_birthdays_eq. Qed.


Lemma Birthday_init_inv s b :
  Birthday.__init__ s = Ok b ->
  b = mkField s
  /\ exists t, PyTime.strptime s "%d.%m.%Y" = Ok t /\ PyDate.valid t = true.
Proof.
  unfold Birthday.__init__, Birthday.date_format. intros H.
  destruct (PyTime.strptime s "%d.%m.%Y") as [t|e] eqn:E.
  - injection H as <-. split; [reflexivity|]. exists t. split; [reflexivity|].
    revert E. unfold PyTime.strptime.
    destruct (PyTime.pattern _); [|discriminate].
    destruct (PyRe.match_ _ _) as [[[|? ?] g]|]; try discriminate.
    destruct (PyTime.group_int "Y" 1900 g); cbn [rbind]; [|discriminate].
    destruct (PyTime.group_int "m" 1 g); cbn [rbind]; [|discriminate].
    destruct (PyTime.group_int "d" 1 g); cbn [rbind]; [|discriminate].
    intros E. now apply new_inv in E.
  - destruct e; discriminate.
Qed.

(** C10.  When [Birthday] accepts a string, the value it stores is that
    string, character for character; [str] of the field and the display
    form of the record show it unchanged, and the query parses this same
    string again, with success, before it schedules the record. *)
Theorem C10_birthday_stored_raw (s : string) (b : Birthday.t) :
  Birthday.__init__ s = Ok b ->
  value b = s
  /\ Field___str__ b = s
  /\ (forall name phones,
        Rec.__str__ (Rec.mk name phones (Some b))
        = ("Ім'я: " ++ value name
           ++ ", Телефони: " ++ PyStr.join "; " (map Phone.__str__ phones)
           ++ ", День народження: " ++ s)%string)
  /\ exists parsed,
       PyTime.strptime s "%d.%m.%Y" = Ok parsed
       /\ forall today name phones upcoming book,
            AddressBook.visit today (Rec.mk name phones (Some b)) upcoming book
            = (schedule today (value name) parsed upcoming, book).
Proof.
  intros H. apply Birthday_init_inv in H. destruct H as [-> [t [Ht _]]].
  split; [reflexivity|]. split; [reflexivity|]. split; [reflexivity|].
  exists t. split; [assumption|]. intros today name phones upcoming book.
  rewrite visit_eq. unfold visit_result. cbn [Rec.birthday Rec.name value].
  now rewrite Ht.
Qed.

Lemma C10_witness :
  value (mkField "24.08.1991") = "24.08.1991"
  /\ Field___str__ (mkField "24.08.1991") = "24.08.1991"
  /\ (forall name phones,
        Rec.__str__ (Rec.mk name phones (Some (mkField "24.08.1991")))
        = ("Ім'я: " ++ value name
           ++ ", Телефони: " ++ PyStr.join "; " (map Phone.__str__ phones)
           ++ ", День народження: " ++ "24.08.1991")%string)
  /\ exists parsed,
       PyTime.strptime "24.08.1991" "%d.%m.%Y" = Ok parsed
       /\ forall today name phones upcoming book,
            AddressBook.visit today
              (Rec.mk name phones (Some (mkField "24.08.1991"))) upcoming book
            = (schedule today (value name) parsed upcoming, book).
Proof.
  apply (C10_birthday_stored_raw "24.08.1991" (mkField "24.08.1991")).
  vm_compute. reflexivity.
Defined.


(** * Further properties *)

Import PyDate PyDateChecks PyDateFacts PyDateOrder PyDict PyDictFacts.

(** ** The order of dates *)

Lemma months_all :
  all_from (months_ok false) 12 1 = true /\ all_from (months_ok true) 12 1 = true.
Proof. split; vm_compute; reflexivity. Qed.

Lemma every_year_all :
  all_from (fun m => all_from (every_year_ok m) 31 1) 12 1 = true.
Proof. vm_compute; reflexivity. Qed.

Lemma days_before_year_succ y :
  _days_before_year (y + 1)
  = _days_before_year y + 365 + (if _is_leap y then 1 else 0).
Proof.
  unfold _days_before_year, _is_leap. cbv zeta.
  replace (y + 1 - 1) with y by lia.
  destruct (y mod 4 =? 0) eqn:E4; destruct (y mod 100 =? 0) eqn:E100;
    destruct (y mod 400 =? 0) eqn:E400; cbn [negb andb orb];
    b2z; Z.div_mod_to_equations; lia.
Qed.

Lemma days_before_year_mono a b :
  a <= b -> _days_before_year a <= _days_before_year b.
Proof.
  intros H. unfold _days_before_year. cbv zeta.
  Z.div_mod_to_equations. lia.
Qed.

Lemma valid_inv t :
  valid t = true ->
  1 <= year t <= 9999 /\ 1 <= month t <= 12
  /\ 1 <= day t <= dim_flag (_is_leap (year t)) (month t).
Proof.
  unfold valid, valid_fields, MINYEAR, MAXYEAR. rewrite days_in_month_flag.
  intros H. b2z. lia.
Qed.

Lemma dim_flag_le leap m : dim_flag leap m <= 31.
Proof.
  pose proof (days_in_month_le (if leap then 4 else 1) m) as H.
  rewrite days_in_month_flag in H. now destruct leap.
Qed.

(** The place of a date in its year. *)
Lemma day_of_year_bounds (leap : bool) m d :
  1 <= m <= 12 -> 1 <= d <= dim_flag leap m ->
  1 <= dbm_flag leap m + d <= (if leap then 366 else 365).
Proof.
  intros Hm Hd. pose proof (dim_flag_le leap m).
  pose proof (fields_ok_at leap m d Hm ltac:(lia)) as F.
  unfold fields_ok in F.
  replace (d <=? dim_flag leap m) with true in F by (symmetry; b2z; lia).
  destruct (month_day leap (dbm_flag leap m + d - 1)) as [m' d'].
  destruct leap; b2z; lia.
Qed.

Lemma toordinal_in_year t :
  valid t = true ->
  _days_before_year (year t) < toordinal t <= _days_before_year (year t + 1).
Proof.
  intros V. destruct (valid_inv t V) as [Hy [Hm Hd]].
  unfold toordinal, _ymd2ord. rewrite days_before_month_flag.
  rewrite days_before_year_succ.
  pose proof (day_of_year_bounds _ _ _ Hm Hd).
  destruct (_is_leap (year t)); lia.
Qed.

Lemma months_ok_at (leap : bool) m1 m2 :
  1 <= m1 <= 12 -> 1 <= m2 <= 12 -> m1 < m2 ->
  dbm_flag leap m1 + dim_flag leap m1 <= dbm_flag leap m2.
Proof.
  intros H1 H2 Hlt. destruct months_all as [M0 M1].
  assert (M : months_ok leap m1 = true).
  { destruct leap.
    - apply (all_from_spec _ _ _ M1). simpl. lia.
    - apply (all_from_spec _ _ _ M0). simpl. lia. }
  unfold months_ok in M.
  pose proof (all_from_spec _ _ _ M m2 ltac:(simpl; lia)) as H.
  cbv beta in H.
  replace (m1 <? m2) with true in H by (symmetry; b2z; lia).
  b2z. lia.
Qed.

(** [a < b] on well-formed dates is the order of their ordinals. *)
Lemma lt_toordinal a b :
  valid a = true -> valid b = true ->
  lt a b = true <-> toordinal a < toordinal b.
Proof.
  intros Va Vb.
  assert (Hlt : forall x y, valid x = true -> valid y = true ->
                            lt x y = true -> toordinal x < toordinal y).
  { clear. intros x y Vx Vy H.
    pose proof (toordinal_in_year x Vx) as Bx.
    pose proof (toordinal_in_year y Vy) as By'.
    destruct (valid_inv x Vx) as [_ [Hmx Hdx]].
    destruct (valid_inv y Vy) as [_ [Hmy Hdy]].
    unfold lt in H. apply orb_prop in H. destruct H as [H|H].
    - apply Z.ltb_lt in H.
      pose proof (days_before_year_mono (year x + 1) (year y) ltac:(lia)). lia.
    - apply andb_prop in H. destruct H as [Ey H]. apply Z.eqb_eq in Ey.
      unfold toordinal, _ymd2ord. rewrite !days_before_month_flag, Ey.
      rewrite Ey in Hdx.
      apply orb_prop in H. destruct H as [H|H].
      + apply Z.ltb_lt in H.
        pose proof (months_ok_at (_is_leap (year y)) _ _ Hmx Hmy H). lia.
      + apply andb_prop in H. destruct H as [Em H].
        apply Z.eqb_eq in Em. apply Z.ltb_lt in H. rewrite Em. lia. }
  split; [now apply Hlt|].
  intros H. destruct (lt a b) eqn:L; [reflexivity|exfalso].
  destruct (lt b a) eqn:L'.
  - apply Hlt in L'; [lia|assumption..].
  - (* neither is before the other: the fields are equal *)
    unfold lt in L, L'.
    destruct a as [ya ma da], b as [yb mb db]. cbn [year month day] in *.
    assert (ya = yb /\ ma = mb /\ da = db).
    { destruct (ya <? yb) eqn:E1; [discriminate|].
      destruct (yb <? ya) eqn:E2; [discriminate|].
      cbn [orb] in L, L'.
      assert (ya = yb) by (b2z; lia). subst yb.
      rewrite Z.eqb_refl in L, L'. cbn [andb] in L, L'.
      destruct (ma <? mb) eqn:E3; [discriminate|].
      destruct (mb <? ma) eqn:E4; [discriminate|].
      cbn [orb] in L, L'.
      assert (ma = mb) by (b2z; lia). subst mb.
      rewrite Z.eqb_refl in L, L'. cbn [andb] in L, L'.
      b2z. lia. }
    destruct H0 as [-> [-> ->]]. lia.
Qed.

(** ** The upcoming birthdays *)

Lemma occurrence_inv today parsed bd :
  occurrence today parsed = Ok bd ->
  (bd = mkdate (year today) (month parsed) (day parsed)
   /\ valid bd = true /\ lt bd today = false)
  \/ (bd = mkdate (year today + 1) (month parsed) (day parsed)
      /\ valid bd = true
      /\ valid (mkdate (year today) (month parsed) (day parsed)) = true
      /\ lt (mkdate (year today) (month parsed) (day parsed)) today = true).
Proof.
  unfold occurrence, replace_year.
  destruct (new (year today) (month parsed) (day parsed)) as [b1|] eqn:E1;
    cbn [rbind]; [|discriminate].
  apply new_inv in E1. destruct E1 as [-> V1]. cbn [month day].
  destruct (lt _ today) eqn:L.
  - intros E2. apply new_inv in E2. destruct E2 as [-> V2]. right. auto.
  - intros E2. injection E2 as <-. left. auto.
Qed.

(** The occurrence the query works with is the next one: the first date
    on or after today that has the month and the day of the birthday. *)
Lemma occurrence_is_next (today parsed bd : date) :
  valid today = true ->
  occurrence today parsed = Ok bd ->
  next_occurrence today parsed bd.
Proof.
  unfold next_occurrence.
  intros Vt H. apply occurrence_inv in H.
  pose proof (toordinal_in_year today Vt) as Bt.
  assert (Hyear : forall x, valid x = true ->
            toordinal today <= toordinal x -> year today <= year x).
  { intros x Vx Hx. pose proof (toordinal_in_year x Vx) as Bx.
    destruct (Z_lt_le_dec (year x) (year today)) as [Hlt|]; [|assumption].
    pose proof (days_before_year_mono (year x + 1) (year today) ltac:(lia)).
    lia. }
  assert (Hlater : forall x b, valid x = true -> valid b = true ->
            year b < year x -> toordinal b <= toordinal x).
  { intros x b Vx Vb Hlt. pose proof (toordinal_in_year x Vx).
    pose proof (toordinal_in_year b Vb).
    pose proof (days_before_year_mono (year b + 1) (year x) ltac:(lia)).
    lia. }
  destruct H as [[-> [V L]]|[-> [V [V1 L]]]]; cbn [month day].
  - repeat split; try assumption.
    + destruct (Z_le_gt_dec (toordinal today) (toordinal (mkdate (year today) (month parsed) (day parsed)))) as [|G]; [assumption|].
      apply Z.gt_lt in G. apply (lt_toordinal _ _ V Vt) in G. congruence.
    + intros x Vx Mx Dx Hx. pose proof (Hyear x Vx Hx) as Hy.
      destruct (Z.eq_dec (year x) (year today)) as [E|N].
      * destruct x as [yx mx dx]. cbn [year month day] in *. subst. lia.
      * apply Hlater; try assumption. cbn [year]. lia.
  - apply (lt_toordinal _ _ V1 Vt) in L.
    repeat split; try assumption.
    + pose proof (toordinal_in_year _ V) as B. cbn [year] in B.
      pose proof (days_before_year_mono (year today + 1) (year today + 1)).
      lia.
    + intros x Vx Mx Dx Hx. pose proof (Hyear x Vx Hx) as Hy.
      destruct (Z.eq_dec (year x) (year today)) as [E|N].
      * destruct x as [yx mx dx]. cbn [year month day] in *. subst. lia.
      * destruct (Z.eq_dec (year x) (year today + 1)) as [E|N'].
        -- destruct x as [yx mx dx]. cbn [year month day] in *. subst. lia.
        -- apply Hlater; try assumption. cbn [year]. lia.
Qed.



Lemma entries_of_length today r : (List.length (entries_of today r) <= 1)%nat.
Proof.
  unfold entries_of, visit_result, schedule.
  destruct (Rec.birthday r); [|simpl; lia].
  destruct (PyTime.strptime _ _); cbn [rbind]; [|simpl; lia].
  destruct (occurrence _ _); cbn [rbind]; [|simpl; lia].
  destruct (in_window _ _); [|simpl; lia].
  destruct (add_days _ _); cbn [rbind]; simpl; lia.
Qed.

Lemma entries_of_name today r e :
  In e (entries_of today r) -> AddressBook.name e = value (Rec.name r).
Proof.
  intros H. apply entries_of_inv in H.
  destruct H as [b [p [bd [c [_ [_ [_ [_ [_ ->]]]]]]]]]. reflexivity.
Qed.

Lemma flat_map_subseq today rs :
  Subseq (map AddressBook.name (flat_map (entries_of today) rs))
         (map (fun r => value (Rec.name r)) rs).
Proof.
  induction rs as [|r rs IH]; [constructor|].
  cbn [flat_map map].
  pose proof (entries_of_length today r) as L.
  pose proof (entries_of_name today r) as N.
  destruct (entries_of today r) as [|e [|e' l]]; cbn [app map].
  - now constructor.
  - rewrite (N e (or_introl eq_refl)). now constructor.
  - simpl in L. lia.
Qed.

Lemma query_inv today book res book' :
  AddressBook.get_upcoming_birthdays today book = (Ok res, book') ->
  (forall r, In r (PyDict.values (AddressBook.data book)) ->
             is_ok (visit_result today r []) = true)
  /\ res = flat_map (entries_of today) (PyDict.values (AddressBook.data book)).
Proof.
  rewrite get_upcoming_birthdays_eq. intros H. injection H as H _.
  apply visit_all_result_inv in H. exact H.
Qed.

(** X2.  The entries follow the directory: their names are those of the records,
    in the same order, with the unlisted ones left out. *)
Theorem upcoming_in_directory_order (book book' : AddressBook.t)
    (today : date) (res : list AddressBook.entry) :
  AddressBook.get_upcoming_birthdays today book = (Ok res, book') ->
  Subseq (map AddressBook.name res) (record_names book)
  /\ (List.length res <= List.length (PyDict.values (AddressBook.data book)))%nat.
Proof.
  intros H. apply query_inv in H. destruct H as [_ ->]. split.
  - apply flat_map_subseq.
  - generalize (PyDict.values (AddressBook.data book)) as rs.
    induction rs as [|r rs IH]; [simpl; lia|].
    cbn [flat_map]. rewrite length_app. pose proof (entries_of_length today r).
    simpl. lia.
Qed.

(** X1.  Every entry stands for a birthday whose next occurrence is at most
    seven days after today, and names a date from that occurrence to two
    days after it: never before today, never more than nine days ahead. *)
Theorem upcoming_window (book book' : AddressBook.t) (today : date)
    (res : list AddressBook.entry) (e : AddressBook.entry) :
  valid today = true ->
  AddressBook.get_upcoming_birthdays today book = (Ok res, book') ->
  In e res ->
  exists r b parsed bd c,
    In r (PyDict.values (AddressBook.data book))
    /\ AddressBook.name e = value (Rec.name r)
    /\ Rec.birthday r = Some b
    /\ PyTime.strptime (value b) "%d.%m.%Y" = Ok parsed
    /\ next_occurrence today parsed bd
    /\ toordinal bd <= toordinal today + 7
    /\ AddressBook.congratulation_date e = PyTime.strftime c "%Y.%m.%d"
    /\ valid c = true
    /\ toordinal bd <= toordinal c <= toordinal bd + 2
    /\ toordinal today <= toordinal c <= toordinal today + 9.
Proof.
  intros Vt H He. apply query_inv in H. destruct H as [_ ->].
  apply in_flat_map in He. destruct He as [r [Hr He]].
  apply entries_of_inv in He.
  destruct He as [b [parsed [bd [c [Hb [Hp [Ho [Hw [Ha ->]]]]]]]]].
  pose proof (occurrence_is_next _ _ _ Vt Ho) as Hn.
  pose proof (occurrence_valid _ _ _ Ho) as Vbd.
  destruct (congratulation_weekday _ _ _ Vbd Ha) as [Vc [_ Hc]].
  pose proof (weekday_range bd) as Wr.
  unfold in_window, sub_days in Hw.
  assert (Hn' := Hn). destruct Hn' as [_ [_ [_ [T _]]]].
  exists r, b, parsed, bd, c.
  cbn [AddressBook.name AddressBook.congratulation_date].
  assert (Hcb : toordinal bd <= toordinal c <= toordinal bd + 2).
  { destruct Hc as [[_ ->]|[W5 [_ ->]]]; lia. }
  apply andb_prop in Hw. destruct Hw as [Hw0 Hw7].
  apply Z.leb_le in Hw0, Hw7.
  split; [assumption|]. split; [reflexivity|]. split; [assumption|].
  split; [assumption|]. split; [exact Hn|]. split; [lia|].
  split; [reflexivity|]. split; [assumption|]. split; lia.
Qed.



Lemma is_leap_succ y : _is_leap y = true -> _is_leap (y + 1) = false.
Proof.
  unfold _is_leap. intros H. apply andb_prop in H. destruct H as [H _].
  apply Z.eqb_eq in H.
  replace ((y + 1) mod 4 =? 0) with false; [reflexivity|].
  symmetry. apply Z.eqb_neq. Z.div_mod_to_equations. lia.
Qed.

(** X5.  A birthday on 29 February also stops the query in a leap year, once
    29 February is past: the projection onto the next year raises. *)
Theorem leap_day_raises_when_past (book : AddressBook.t) (today : date)
    (r : Rec.t) (b : Birthday.t) (parsed : date) :
  In r (PyDict.values (AddressBook.data book)) ->
  Rec.birthday r = Some b ->
  PyTime.strptime (value b) "%d.%m.%Y" = Ok parsed ->
  month parsed = 2 -> day parsed = 29 ->
  _is_leap (year today) = true ->
  lt (mkdate (year today) 2 29) today = true ->
  is_ok (fst (AddressBook.get_upcoming_birthdays today book)) = false.
Proof.
  intros Hin Hb Hp Hm Hd Hl Hpast. rewrite get_upcoming_birthdays_eq. cbn [fst].
  apply visit_all_result_raise with (r := r); [assumption|].
  unfold visit_result. rewrite Hb, Hp. cbn [rbind]. unfold schedule.
  assert (O : is_ok (occurrence today parsed) = false).
  { unfold occurrence, replace_year. rewrite Hm, Hd.
    destruct (new (year today) 2 29) as [b1|] eqn:N; [|reflexivity].
    cbn [rbind]. apply new_inv in N. destruct N as [-> _]. rewrite Hpast.
    cbn [month day]. unfold new, _days_in_month.
    rewrite (is_leap_succ _ Hl).
    destruct (negb _); [reflexivity|]. reflexivity. }
  destruct (occurrence today parsed); [discriminate|reflexivity].
Qed.

Lemma every_year_ok_at m d :
  1 <= m <= 12 -> 1 <= d <= 31 -> every_year_ok m d = true.
Proof.
  intros Hm Hd.
  pose proof (all_from_spec _ _ _ every_year_all m ltac:(simpl; lia)) as H.
  apply (all_from_spec _ _ _ H). simpl. lia.
Qed.

Lemma dim_flag_mono m : dim_flag false m <= dim_flag true m.
Proof.
  unfold dim_flag. destruct (m =? 2) eqn:E; cbn [andb]; [|lia].
  apply Z.eqb_eq in E. subst m. vm_compute. discriminate.
Qed.

Lemma replace_year_ok t y :
  valid t = true -> 1 <= y <= 9999 ->
  ~ (month t = 2 /\ day t = 29) ->
  replace_year t y = Ok (mkdate y (month t) (day t)).
Proof.
  intros V Hy N. destruct (valid_inv t V) as [_ [Hm Hd]].
  unfold replace_year. apply new_valid.
  unfold valid_fields, MINYEAR, MAXYEAR. rewrite days_in_month_flag.
  pose proof (dim_flag_le (_is_leap (year t)) (month t)).
  pose proof (every_year_ok_at (month t) (day t) Hm ltac:(lia)) as E.
  unfold every_year_ok in E.
  assert (D : day t <= dim_flag (_is_leap y) (month t)).
  { assert (D1 : day t <= dim_flag true (month t)).
    { pose proof (dim_flag_mono (month t)).
      destruct (_is_leap (year t)); lia. }
    replace (day t <=? dim_flag true (month t)) with true in E
      by (symmetry; b2z; lia).
    replace (negb ((month t =? 2) && (day t =? 29))) with true in E.
    - cbn [andb] in E. apply Z.leb_le in E.
      destruct (_is_leap y); [assumption|assumption].
    - symmetry. apply negb_true_iff. apply andb_false_iff.
      destruct (Z.eq_dec (month t) 2) as [E2|N2].
      + right. apply Z.eqb_neq. intros E29. apply N. auto.
      + left. now apply Z.eqb_neq. }
  b2z; lia.
Qed.

(** One record whose birthday, if any, parses to a date other than
    29 February is visited without error. *)
Lemma visit_returns (today : date) (r : Rec.t) :
  valid today = true ->
  year today < 9999 ->
  (forall b, Rec.birthday r = Some b ->
     exists parsed, PyTime.strptime (value b) "%d.%m.%Y" = Ok parsed
                    /\ ~ (month parsed = 2 /\ day parsed = 29)) ->
  is_ok (visit_result today r []) = true.
Proof.
  intros Vt Hy Hall. unfold visit_result.
  destruct (Rec.birthday r) as [b|] eqn:Hb; [|reflexivity].
  destruct (Hall b eq_refl) as [parsed [Hp N]]. rewrite Hp. cbn [rbind].
  assert (Vp : valid parsed = true).
  { revert Hp. unfold PyTime.strptime.
    destruct (PyTime.pattern _); [|discriminate].
    destruct (PyRe.match_ _ _) as [[[|? ?] g]|]; try discriminate.
    destruct (PyTime.group_int "Y" 1900 g); cbn [rbind]; [|discriminate].
    destruct (PyTime.group_int "m" 1 g); cbn [rbind]; [|discriminate].
    destruct (PyTime.group_int "d" 1 g); cbn [rbind]; [|discriminate].
    intros E. now apply new_inv in E. }
  destruct (valid_inv today Vt) as [Hyt _].
  unfold schedule.
  assert (O : exists bd, occurrence today parsed = Ok bd).
  { unfold occurrence. rewrite (replace_year_ok parsed (year today) Vp ltac:(lia) N).
    cbn [rbind]. destruct (lt _ today); [|eauto].
    unfold replace_year. cbn [month day].
    change (new (year today + 1) (month parsed) (day parsed))
      with (replace_year parsed (year today + 1)).
    rewrite (replace_year_ok parsed (year today + 1) Vp ltac:(lia) N). eauto. }
  destruct O as [bd Ho]. rewrite Ho. cbn [rbind].
  destruct (in_window today bd) eqn:W; [|reflexivity].
  pose proof (occurrence_valid _ _ _ Ho) as Vbd.
  pose proof (weekday_range bd) as Wr.
  pose proof (toordinal_in_year today Vt) as Bt.
  pose proof (days_before_year_mono (year today + 1) 9999 ltac:(lia)) as Bm.
  assert (B9999 : _days_before_year 9999 = 3651694) by reflexivity.
  unfold in_window, sub_days in W. apply andb_prop in W.
  destruct W as [W0 W7]. apply Z.leb_le in W0, W7.
  unfold add_days, shifted_days, sub_days, _MAXORDINAL. cbv zeta.
  pose proof (toordinal_in_year bd Vbd) as Bb.
  destruct (fromordinal_toordinal today Vt) as [_ Rt].
  match goal with
  | |- context [if ?c then _ else _] =>
      replace c with true; [reflexivity|]
  end.
  symmetry. destruct (5 <=? weekday bd) eqn:W5; b2z; lia.
Qed.

(** X4.  The query returns when today is a real date before the year 9999 and
    every stored birthday parses to a date other than 29 February. *)
Theorem upcoming_returns (book : AddressBook.t) (today : date) :
  valid today = true ->
  year today < 9999 ->
  (forall r b, In r (PyDict.values (AddressBook.data book)) ->
     Rec.birthday r = Some b ->
     exists parsed, PyTime.strptime (value b) "%d.%m.%Y" = Ok parsed
                    /\ ~ (month parsed = 2 /\ day parsed = 29)) ->
  exists res,
    AddressBook.get_upcoming_birthdays today book = (Ok res, book).
Proof.
  intros Vt Hy Hall. rewrite get_upcoming_birthdays_eq.
  rewrite visit_all_result_ok; [eexists; reflexivity|].
  intros r Hr. apply visit_returns; [assumption|assumption|].
  intros b Hb. now apply (Hall r b).
Qed.

(** ** The phones of a record *)

Lemma find_in_In ps phone :
  In phone (map Phone.__str__ ps) -> Rec.find_in ps phone = Ok phone.
Proof.
  induction ps as [|p ps IH]; intros H; [destruct H|].
  cbn [Rec.find_in]. destruct (String.eqb (Phone.__str__ p) phone) eqn:E.
  - apply String.eqb_eq in E. now rewrite <- E.
  - destruct H as [H|H]; [|now apply IH].
    apply String.eqb_neq in E. contradiction.
Qed.

Lemma find_in_not_In ps phone :
  ~ In phone (map Phone.__str__ ps) ->
  Rec.find_in ps phone = Raise (ValueError Rec.not_found_msg).
Proof.
  induction ps as [|p ps IH]; intros H; [reflexivity|].
  cbn [Rec.find_in]. destruct (String.eqb (Phone.__str__ p) phone) eqn:E.
  - apply String.eqb_eq in E. exfalso. apply H. now left.
  - apply IH. intros H'. apply H. now right.
Qed.

Lemma find_in_ok_iff ps phone :
  Rec.find_in ps phone = Ok phone <-> In phone (map Phone.__str__ ps).
Proof.
  split; [|apply find_in_In].
  intros H. destruct (in_dec string_dec phone (map Phone.__str__ ps)) as [I|N];
    [assumption|].
  rewrite (find_in_not_In _ _ N) in H. discriminate.
Qed.

Lemma without_In phone q ps :
  In q (map Phone.__str__ (without phone ps))
  <-> In q (map Phone.__str__ ps) /\ q <> phone.
Proof.
  unfold without. rewrite !in_map_iff. split.
  - intros [p [E I]]. apply filter_In in I. destruct I as [I N].
    apply negb_true_iff, String.eqb_neq in N. split; [eauto|congruence].
  - intros [[p [E I]] N]. exists p. split; [assumption|].
    apply filter_In. split; [assumption|].
    apply negb_true_iff, String.eqb_neq. congruence.
Qed.

Lemma without_absent phone ps :
  ~ In phone (map Phone.__str__ ps) -> without phone ps = ps.
Proof.
  induction ps as [|p ps IH]; intros H; [reflexivity|].
  unfold without in *. cbn [filter].
  destruct (String.eqb (Phone.__str__ p) phone) eqn:E; cbn [negb].
  - apply String.eqb_eq in E. exfalso. apply H. now left.
  - f_equal. apply IH. intros H'. apply H. now right.
Qed.

Lemma without_subseq phone ps : Subseq (without phone ps) ps.
Proof.
  induction ps as [|p ps IH]; [constructor|].
  unfold without in *. cbn [filter].
  destruct (negb _); now constructor.
Qed.

Lemma without_length phone ps :
  In phone (map Phone.__str__ ps) ->
  (List.length (without phone ps) < List.length ps)%nat.
Proof.
  induction ps as [|p ps IH]; intros H; [destruct H|].
  unfold without in *. cbn [filter].
  destruct (String.eqb (Phone.__str__ p) phone) eqn:E; cbn [negb].
  - pose proof (filter_length_le
                  (fun p => negb (String.eqb (Phone.__str__ p) phone)) ps).
    cbn [List.length]. lia.
  - destruct H as [H|H]; [apply String.eqb_neq in E; contradiction|].
    cbn [List.length]. specialize (IH H). lia.
Qed.

Lemma set_phones_same r : Rec.set_phones (Rec.phones r) r = r.
Proof. now destruct r. Qed.


(** X6.  [find_phone] hands back the number it was asked for when the record
    holds it and raises the phone-not-found error otherwise; the record is
    the same afterwards. *)
Theorem find_phone_cases (r : Rec.t) (phone : string) :
  (In phone (map Phone.__str__ (Rec.phones r))
   /\ Rec.find_phone phone r = (Ok phone, r))
  \/ (~ In phone (map Phone.__str__ (Rec.phones r))
      /\ Rec.find_phone phone r = (Raise (ValueError Rec.not_found_msg), r)).
Proof.
  unfold Rec.find_phone, bind, get, lift.
  destruct (in_dec string_dec phone (map Phone.__str__ (Rec.phones r)))
    as [I|N].
  - left. split; [assumption|]. now rewrite find_in_In.
  - right. split; [assumption|]. now rewrite find_in_not_In.
Qed.

Lemma occurrences_without_eq phone ps :
  occurrences phone (without phone ps) = 0%nat.
Proof.
  unfold occurrences, without. induction ps as [|p ps IH]; [reflexivity|].
  cbn [filter]. destruct (String.eqb (Phone.__str__ p) phone) eqn:E;
    cbn [negb filter]; [exact IH|]. rewrite E. exact IH.
Qed.

Lemma occurrences_without_ne phone q ps :
  q <> phone ->
  occurrences q (without phone ps) = occurrences q ps.
Proof.
  intros N. unfold occurrences, without.
  induction ps as [|p ps IH]; [reflexivity|].
  cbn [filter]. destruct (String.eqb (Phone.__str__ p) phone) eqn:E;
    cbn [negb filter].
  - apply String.eqb_eq in E.
    replace (String.eqb (Phone.__str__ p) q) with false; [exact IH|].
    symmetry. apply String.eqb_neq. congruence.
  - destruct (String.eqb (Phone.__str__ p) q); cbn [List.length];
      now rewrite IH.
Qed.

(** X7.  [remove_phone] never raises.  It drops every copy of the number and
    keeps the other phones: each other number as many times as before, in
    the same order.  So the number is no longer found, every other number
    is found exactly when it was before, and a record that did not hold
    the number is left as it was. *)
Theorem remove_phone_then_find (r : Rec.t) (phone : string) :
  exists r',
    Rec.remove_phone phone r = (Ok tt, r')
    /\ Rec.name r' = Rec.name r /\ Rec.birthday r' = Rec.birthday r
    /\ Subseq (Rec.phones r') (Rec.phones r)
    /\ occurrences phone (Rec.phones r') = 0%nat
    /\ (forall q, q <> phone ->
          occurrences q (Rec.phones r') = occurrences q (Rec.phones r))
    /\ Rec.find_phone phone r' = (Raise (ValueError Rec.not_found_msg), r')
    /\ (forall q, q <> phone ->
          fst (Rec.find_phone q r') = fst (Rec.find_phone q r))
    /\ (~ In phone (map Phone.__str__ (Rec.phones r)) -> r' = r).
Proof.
  exists (Rec.set_phones (without phone (Rec.phones r)) r).
  split; [reflexivity|]. split; [reflexivity|]. split; [reflexivity|].
  split; [apply without_subseq|].
  split; [apply occurrences_without_eq|].
  split; [intros q Hq; now apply occurrences_without_ne|].
  split.
  { unfold Rec.find_phone, bind, get, lift. cbn [Rec.set_phones Rec.phones].
    rewrite find_in_not_In; [reflexivity|apply without_not_In]. }
  split.
  { intros q Hq. unfold Rec.find_phone, bind, get, lift.
    cbn [fst Rec.set_phones Rec.phones].
    destruct (in_dec string_dec q (map Phone.__str__ (Rec.phones r)))
      as [I|N].
    - rewrite !find_in_In; [reflexivity|assumption|].
      apply without_In. now split.
    - rewrite !find_in_not_In; [reflexivity|assumption|].
      intros H. apply without_In in H. now destruct H. }
  intros N. rewrite without_absent by assumption. apply set_phones_same.
Qed.

(** X8.  [add_phone] with a phone that fails [validate] raises the invalid-phone
    error and leaves the record as it was.  Otherwise it appends the phone
    -- also when the record holds the number already -- and the number is
    found afterwards, as is every number found before. *)
Theorem add_phone_then_find (r : Rec.t) (p : Phone.t) :
  (Phone.validate p = Raise (ValueError Phone.invalid_msg)
   /\ Rec.add_phone p r = (Raise (ValueError Phone.invalid_msg), r))
  \/ (Phone.validate p = Ok tt
      /\ exists r',
           Rec.add_phone p r = (Ok tt, r')
           /\ Rec.name r' = Rec.name r /\ Rec.birthday r' = Rec.birthday r
           /\ Rec.phones r' = (Rec.phones r ++ [p])%list
           /\ Rec.find_phone (value p) r' = (Ok (value p), r')
           /\ forall q, fst (Rec.find_phone q r) = Ok q ->
                        fst (Rec.find_phone q r') = Ok q).
Proof.
  unfold Rec.add_phone, bind, get, put, lift.
  destruct (validate_cases p) as [V|V]; rewrite V.
  - right. split; [reflexivity|].
    exists (Rec.set_phones (Rec.phones r ++ [p]) r).
    split; [reflexivity|]. split; [reflexivity|]. split; [reflexivity|].
    split; [reflexivity|].
    unfold Rec.find_phone, bind, get, lift. cbn [fst Rec.set_phones Rec.phones].
    split.
    + rewrite find_in_In; [reflexivity|].
      rewrite map_app. apply in_or_app. right. now left.
    + intros q Hq. apply find_in_ok_iff in Hq. apply find_in_In.
      rewrite map_app. apply in_or_app. now left.
  - left. split; reflexivity.
Qed.

(** X9.  After an [edit_phone] that returned, the new number is found, the old
    one is not (unless it is the new one), every other number found before
    is still found, and the record has no more phones than before. *)
Theorem edit_phone_then_find (r r' : Rec.t) (old_phone new_phone : string) :
  Rec.edit_phone old_phone new_phone r = (Ok tt, r') ->
  Rec.find_phone new_phone r' = (Ok new_phone, r')
  /\ (old_phone <> new_phone ->
        Rec.find_phone old_phone r'
        = (Raise (ValueError Rec.not_found_msg), r'))
  /\ (forall q, q <> old_phone ->
        fst (Rec.find_phone q r) = Ok q -> fst (Rec.find_phone q r') = Ok q)
  /\ (List.length (Rec.phones r') <= List.length (Rec.phones r))%nat.
Proof.
  unfold Rec.edit_phone, bind at 1, get.
  destruct (PyStr.contains old_phone (map Phone.__str__ (Rec.phones r)))
    eqn:C; cbn [negb]; [|discriminate].
  apply str_contains_In in C.
  unfold Rec.remove_phone, Rec.add_phone, bind, get, put, lift.
  fold (without old_phone (Rec.phones r)).
  destruct (validate_cases (Phone.__init__ new_phone)) as [V|V]; rewrite V;
    [|discriminate].
  intros E. injection E as <-.
  unfold Rec.find_phone, bind, get, lift. cbn [fst Rec.set_phones Rec.phones].
  split; [|split; [|split]].
  - rewrite find_in_In; [reflexivity|].
    rewrite map_app. apply in_or_app. right. now left.
  - intros N. rewrite find_in_not_In; [reflexivity|].
    rewrite map_app. intros H. apply in_app_or in H. destruct H as [H|H].
    + now apply without_not_In in H.
    + destruct H as [H|[]]. apply N. now symmetry.
  - intros q Hq F. apply find_in_ok_iff in F. apply find_in_In.
    rewrite map_app. apply in_or_app. left. apply without_In. now split.
  - rewrite length_app. cbn [List.length].
    pose proof (without_length _ _ C). lia.
Qed.

Lemma edit_phone_then_find_witness :
  Rec.find_phone "4445556666"
    (Rec.set_phones [mkField "0501112233"; mkField "4445556666"] two_phones)
  = (Ok "4445556666",
     Rec.set_phones [mkField "0501112233"; mkField "4445556666"] two_phones)
  /\ ("1112223333" <> "4445556666" ->
        Rec.find_phone "1112223333"
          (Rec.set_phones [mkField "0501112233"; mkField "4445556666"]
             two_phones)
        = (Raise (ValueError Rec.not_found_msg),
           Rec.set_phones [mkField "0501112233"; mkField "4445556666"]
             two_phones))
  /\ (forall q, q <> "1112223333" ->
        fst (Rec.find_phone q two_phones) = Ok q ->
        fst (Rec.find_phone q
               (Rec.set_phones [mkField "0501112233"; mkField "4445556666"]
                  two_phones)) = Ok q)
  /\ (List.length
        (Rec.phones
           (Rec.set_phones [mkField "0501112233"; mkField "4445556666"]
              two_phones))
      <= List.length (Rec.phones two_phones))%nat.
Proof.
  apply (edit_phone_then_find two_phones _ "1112223333" "4445556666").
  vm_compute. reflexivity.
Defined.

(** X10.  The three methods that change the phone list keep it valid: when every
    phone of a record passes [validate], so does every phone of the record
    that [add_phone], [remove_phone] or [edit_phone] leaves, whether the
    call returns or raises.  A new record has the property. *)
Theorem phones_valid_kept (r : Rec.t) :
  phones_valid r ->
  (forall p, phones_valid (snd (Rec.add_phone p r)))
  /\ (forall phone, phones_valid (snd (Rec.remove_phone phone r)))
  /\ (forall old_phone new_phone,
        phones_valid (snd (Rec.edit_phone old_phone new_phone r)))
  /\ (forall name, phones_valid (Rec.__init__ name)).
Proof.
  intros Hv.
  assert (Hw : forall phone,
             phones_valid (Rec.set_phones (without phone (Rec.phones r)) r)).
  { intros phone p Hp. cbn [Rec.set_phones Rec.phones] in Hp.
    apply filter_In in Hp. now apply Hv. }
  split; [|split; [|split]].
  - intros p. unfold Rec.add_phone, bind, get, put, lift.
    destruct (validate_cases p) as [V|V]; rewrite V; cbn [snd];
      [|assumption].
    intros q Hq. cbn [Rec.set_phones Rec.phones] in Hq.
    apply in_app_or in Hq. destruct Hq as [Hq|[<-|[]]]; [now apply Hv|assumption].
  - intros phone. apply Hw.
  - intros old_phone new_phone. unfold Rec.edit_phone, bind at 1, get.
    destruct (PyStr.contains old_phone (map Phone.__str__ (Rec.phones r)));
      cbn [negb]; [|assumption].
    unfold Rec.remove_phone, Rec.add_phone, bind, get, put, lift.
    fold (without old_phone (Rec.phones r)).
    destruct (validate_cases (Phone.__init__ new_phone)) as [V|V]; rewrite V;
      cbn [snd]; [|apply Hw].
    intros q Hq. cbn [Rec.set_phones Rec.phones] in Hq.
    apply in_app_or in Hq. destruct Hq as [Hq|[<-|[]]]; [|assumption].
    apply (Hw old_phone). exact Hq.
  - intros name p [].
Qed.

Lemma two_phones_valid : phones_valid two_phones.
Proof.
  intros p [<-|[<-|[]]]; vm_compute; reflexivity.
Qed.

Lemma phones_valid_kept_witness :
  (forall p, phones_valid (snd (Rec.add_phone p two_phones)))
  /\ (forall phone, phones_valid (snd (Rec.remove_phone phone two_phones)))
  /\ (forall old_phone new_phone,
        phones_valid (snd (Rec.edit_phone old_phone new_phone two_phones)))
  /\ (forall name, phones_valid (Rec.__init__ name)).
Proof. apply (phones_valid_kept two_phones two_phones_valid). Defined.

(** ** The directory *)

Module PyDictMore.
Import PyDict PyDictFacts.
Section Facts.
Context {V : Type}.
Implicit Types (d : dict V) (k : string) (v : V).

Lemma setitem_absent k v d :
  contains k d = false -> setitem k v d = (d ++ [(k, v)])%list.
Proof.
  induction d as [|[k' v'] d IH]; intros H; [reflexivity|].
  cbn [contains] in H. apply orb_false_iff in H. destruct H as [E H].
  cbn [setitem]. rewrite E. cbn [app]. f_equal. now apply IH.
Qed.

Lemma setitem_setitem k v1 v2 d :
  setitem k v2 (setitem k v1 d) = setitem k v2 d.
Proof.
  induction d as [|[k' v'] d IH].
  - cbn [setitem]. now rewrite String.eqb_refl.
  - cbn [setitem]. destruct (String.eqb k' k) eqn:E; cbn [setitem]; rewrite E.
    + reflexivity.
    + f_equal. exact IH.
Qed.

Lemma delitem_setitem_absent k v d :
  contains k d = false -> delitem k (setitem k v d) = d.
Proof.
  induction d as [|[k' v'] d IH]; intros H.
  - cbn [setitem delitem]. now rewrite String.eqb_refl.
  - cbn [contains] in H. apply orb_false_iff in H. destruct H as [E H].
    cbn [setitem]. rewrite E. cbn [delitem]. rewrite E. f_equal. now apply IH.
Qed.

Lemma In_setitem k v k0 v0 d :
  In (k, v) (setitem k0 v0 d) -> (k = k0 /\ v = v0) \/ In (k, v) d.
Proof.
  induction d as [|[k' v'] d IH]; cbn [setitem].
  - intros [H|[]]. left. now inversion H.
  - destruct (String.eqb k' k0) eqn:E.
    + apply String.eqb_eq in E. subst k'.
      intros [H|H]; [left; now inversion H|right; now right].
    + intros [H|H]; [right; now left|].
      destruct (IH H) as [?|?]; [now left|right; now right].
Qed.

Lemma In_delitem k v k0 d : In (k, v) (delitem k0 d) -> In (k, v) d.
Proof.
  induction d as [|[k' v'] d IH]; cbn [delitem]; [tauto|].
  destruct (String.eqb k' k0).
  - intros H. now right.
  - intros [H|H]; [now left|right; now apply IH].
Qed.

Lemma getitem_In k v d : getitem k d = Some v -> In (k, v) d.
Proof.
  induction d as [|[k' v'] d IH]; cbn [getitem]; [discriminate|].
  destruct (String.eqb k' k) eqn:E.
  - apply String.eqb_eq in E. subst k'. intros H. inversion H. now left.
  - intros H. right. now apply IH.
Qed.

End Facts.
End PyDictMore.
Import PyDict PyDictFacts PyDictMore.

Lemma book_eta (book : AddressBook.t) :
  AddressBook.mk (AddressBook.data book) = book.
Proof. now destruct book. Qed.

(** X11.  [add_record] under a name the directory already has leaves the keys
    and their order as they were; under a new name it puts the record
    after all the others. *)
Theorem add_record_order (book : AddressBook.t) (r : Rec.t) :
  (PyDict.contains (value (Rec.name r)) (AddressBook.data book) = true
   /\ PyDict.keys (AddressBook.data (snd (AddressBook.add_record r book)))
      = PyDict.keys (AddressBook.data book))
  \/ (PyDict.contains (value (Rec.name r)) (AddressBook.data book) = false
      /\ AddressBook.data (snd (AddressBook.add_record r book))
         = (AddressBook.data book ++ [(value (Rec.name r), r)])%list).
Proof.
  unfold AddressBook.add_record, bind, get, put. cbn [snd AddressBook.data].
  destruct (PyDict.contains _ _) eqn:C.
  - left. split; [reflexivity|]. now rewrite keys_setitem, C.
  - right. split; [reflexivity|]. now apply setitem_absent.
Qed.

(** X12.  Adding two records of the same name one after the other leaves what
    adding the second alone leaves: the later one wins, in the place the
    name had (or at the end). *)
Theorem add_record_overwrites (book : AddressBook.t) (r1 r2 : Rec.t) :
  value (Rec.name r1) = value (Rec.name r2) ->
  snd (AddressBook.add_record r2 (snd (AddressBook.add_record r1 book)))
  = snd (AddressBook.add_record r2 book).
Proof.
  intros E. unfold AddressBook.add_record, bind, get, put.
  cbn [snd AddressBook.data]. rewrite E. now rewrite setitem_setitem.
Qed.

Lemma add_record_overwrites_witness :
  snd (AddressBook.add_record petro_new
         (snd (AddressBook.add_record petro_old small_book)))
  = snd (AddressBook.add_record petro_new small_book).
Proof. apply (add_record_overwrites small_book petro_old petro_new). reflexivity. Defined.

(** X13.  Adding a record under a name the directory does not have and deleting
    that name again gives back the directory as it was. *)
Theorem add_record_then_delete (book : AddressBook.t) (r : Rec.t) :
  PyDict.contains (value (Rec.name r)) (AddressBook.data book) = false ->
  AddressBook.delete (value (Rec.name r))
    (snd (AddressBook.add_record r book))
  = (Ok tt, book).
Proof.
  intros C. unfold AddressBook.add_record, AddressBook.delete, bind, get, put.
  cbn [snd AddressBook.data].
  cbn [AddressBook.data].
  assert (H : PyDict.contains (value (Rec.name r))
                (PyDict.setitem (value (Rec.name r)) r (AddressBook.data book))
              = true).
  { apply contains_In. rewrite keys_setitem, C. apply in_or_app. right.
    now left. }
  rewrite H. cbn [negb]. rewrite delitem_setitem_absent by assumption.
  now rewrite book_eta.
Qed.

Lemma add_record_then_delete_witness :
  AddressBook.delete "Petro" (snd (AddressBook.add_record petro_new leap_book))
  = (Ok tt, leap_book).
Proof. apply (add_record_then_delete leap_book petro_new). reflexivity. Defined.

Lemma book_ok_add_record book r :
  book_ok book -> book_ok (snd (AddressBook.add_record r book)).
Proof.
  intros [Hwf Hk]. unfold AddressBook.add_record, bind, get, put.
  cbn [snd]. split; cbn [AddressBook.data].
  - now apply wf_setitem.
  - intros k r' Hin. cbn [AddressBook.data] in Hin.
    apply In_setitem in Hin. destruct Hin as [[-> ->]|Hin]; [reflexivity|].
    now apply Hk.
Qed.

(** X14.  A directory changed only through [add_record] and [delete] keeps every
    record under the record's own name, each name once; so the record that
    [find] returns bears the name that was looked up, and no two records of
    the directory share a name. *)
Theorem book_ok_kept (book : AddressBook.t) :
  book_ok book ->
  (forall r, book_ok (snd (AddressBook.add_record r book)))
  /\ (forall name, book_ok (snd (AddressBook.delete name book)))
  /\ (forall name found,
        fst (AddressBook.find name book) = Ok found ->
        value (Rec.name found) = name
        /\ In found (PyDict.values (AddressBook.data book)))
  /\ record_names book = PyDict.keys (AddressBook.data book)
  /\ NoDup (record_names book).
Proof.
  intros [Hwf Hk].
  assert (Hn : record_names book = PyDict.keys (AddressBook.data book)).
  { unfold record_names, PyDict.values, PyDict.keys. rewrite map_map.
    apply map_ext_in. intros [k r] Hin. cbn [fst snd]. now apply Hk. }
  split; [|split; [|split; [|split]]].
  - intros r. apply book_ok_add_record. now split.
  - intros name. unfold AddressBook.delete, bind, get, put.
    destruct (PyDict.contains name (AddressBook.data book)); cbn [negb snd];
      [|now split].
    split; cbn [AddressBook.data].
    + now apply wf_delitem.
    + intros k r' Hin. cbn [AddressBook.data] in Hin.
      apply In_delitem in Hin. now apply Hk.
  - intros name found. unfold AddressBook.find, bind, get, raise, ret.
    destruct (PyDict.contains name (AddressBook.data book)); cbn [negb fst];
      [|discriminate].
    destruct (PyDict.getitem name (AddressBook.data book)) as [r|] eqn:G;
      cbn [fst]; [|discriminate].
    intros E. injection E as <-. apply getitem_In in G. split.
    + now apply Hk.
    + unfold PyDict.values. now apply (in_map snd) in G.
  - exact Hn.
  - rewrite Hn. exact Hwf.
Qed.

Lemma small_book_ok : book_ok small_book.
Proof.
  split; [apply small_book_wf|].
  intros k r [H|[H|[]]]; inversion H; reflexivity.
Qed.

Lemma book_ok_kept_witness :
  (forall r, book_ok (snd (AddressBook.add_record r small_book)))
  /\ (forall name, book_ok (snd (AddressBook.delete name small_book)))
  /\ (forall name found,
        fst (AddressBook.find name small_book) = Ok found ->
        value (Rec.name found) = name
        /\ In found (PyDict.values (AddressBook.data small_book)))
  /\ record_names small_book = PyDict.keys (AddressBook.data small_book)
  /\ NoDup (record_names small_book).
Proof. apply (book_ok_kept small_book small_book_ok). Defined.

(** ** The bot *)

Lemma find_cases (book : AddressBook.t) (name : string) :
  (PyDict.getitem name (AddressBook.data book) = None
   /\ AddressBook.find name book
      = (Raise (KeyError AddressBook.not_found_msg), book))
  \/ (exists r, PyDict.getitem name (AddressBook.data book) = Some r
                /\ AddressBook.find name book = (Ok r, book)).
Proof.
  unfold AddressBook.find, bind, get, raise, ret.
  destruct (PyDict.contains name (AddressBook.data book)) eqn:C; cbn [negb].
  - right. destruct (PyDict.getitem name (AddressBook.data book)) as [r|] eqn:G.
    + eauto.
    + apply contains_getitem in G. congruence.
  - left. split; [now apply contains_getitem|reflexivity].
Qed.

Lemma bot_eta {U} (bot : Bot.t U) :
  Bot.mk (Bot.address_book bot) (Bot.ui bot) = bot.
Proof. now destruct bot. Qed.

Lemma init_cases s :
  (is_ok (Birthday.__init__ s) = true /\ Birthday.__init__ s = Ok (mkField s))
  \/ (is_ok (Birthday.__init__ s) = false
      /\ Birthday.__init__ s = Raise (ValueError Birthday.invalid_msg)).
Proof.
  destruct (Birthday_init_cases s) as [[t [_ E]]|[_ E]]; rewrite E; auto.
Qed.

Lemma add_birthday_eq (book : AddressBook.t) (c : Console.t) (name dob : string) :
  Bot.add_birthday name dob (Bot.mk book c)
               = match AddressBook.find name book with
                 | (Ok r, book') =>
                     match Birthday.__init__ dob with
                     | Ok b =>
                         (Return tt,
                          Bot.mk
                            (AddressBook.mk
                               (PyDict.setitem name
                                  (Rec.mk (Rec.name r) (Rec.phones r) (Some b))
                                  (AddressBook.data book')))
                            (printed ("День народження додано/оновлено для "
                                      ++ name ++ ".") c))
                     | Raise (ValueError msg) =>
                         (Return tt,
                          Bot.mk book'
                            (printed
                               "Будь ласка, введіть дату у правильному форматі."
                               (printed ("Помилка: " ++ msg) c)))
                     | Raise (KeyError _) =>
                         (Return tt,
                          Bot.mk book' (printed "Контакт не знайдено." c))
                     | Raise e => (Throw (Std e), Bot.mk book' c)
                     end
                 | (Raise (KeyError _), book') =>
                     (Return tt,
                      Bot.mk book' (printed "Контакт не знайдено." c))
                 | (Raise (ValueError msg), book') =>
                     (Return tt,
                      Bot.mk book'
                        (printed
                           "Будь ласка, введіть дату у правильному форматі."
                           (printed ("Помилка: " ++ msg) c)))
                 | (Raise e, book') => (Throw (Std e), Bot.mk book' c)
                 end.
Proof.
  unfold Bot.add_birthday, IO.try_except, IO.bind, Bot.on_book, IO.lift.
    cbn [Bot.address_book Bot.ui].
    destruct (AddressBook.find name book) as [[r|[m|m|m]] book'];
      try reflexivity.
    destruct (Birthday.__init__ dob) as [b|[m|m|m]]; reflexivity.
Qed.

Lemma show_birthday_eq {U} `{UI U} (bot : Bot.t U) (name : string) :
  Bot.show_birthday name bot
  = match AddressBook.find name (Bot.address_book bot) with
    | (Ok r, book') =>
        match Rec.birthday r with
        | Some b =>
            (Return ("День народження " ++ name ++ " на " ++ value b ++ "."),
             Bot.mk book' (Bot.ui bot))
        | None =>
            (Throw (AttributeError
                      "'NoneType' object has no attribute 'value'"),
             Bot.mk book' (Bot.ui bot))
        end
    | (Raise (KeyError _), book') =>
        (Return "Контакт не знайдено.", Bot.mk book' (Bot.ui bot))
    | (Raise e, book') => (Throw (Std e), Bot.mk book' (Bot.ui bot))
    end.
Proof.
  unfold Bot.show_birthday, IO.try_except, IO.bind, Bot.on_book, IO.ret,
    IO.throw.
  destruct (AddressBook.find name (Bot.address_book bot))
    as [[r|[m|m|m]] book']; try reflexivity.
  destruct (Rec.birthday r); reflexivity.
Qed.

Lemma get_user_info_eq {U} `{UI U} (bot : Bot.t U) (name : string) :
  Bot.get_user_info name bot
  = match AddressBook.find name (Bot.address_book bot) with
    | (Ok r, book') => (Return (Rec.__str__ r), Bot.mk book' (Bot.ui bot))
    | (Raise (KeyError _), book') =>
        (Return "Контакт не знайдено.", Bot.mk book' (Bot.ui bot))
    | (Raise e, book') => (Throw (Std e), Bot.mk book' (Bot.ui bot))
    end.
Proof.
  unfold Bot.get_user_info, IO.try_except, IO.bind, Bot.on_book, IO.ret.
  destruct (AddressBook.find name (Bot.address_book bot))
    as [[r|[m|m|m]] book']; reflexivity.
Qed.

(** X20.  [show_birthday] answers with the not-found text for an unknown name and
    with the stored birthday for a contact that has one; for a contact
    without a birthday it raises [AttributeError].  The bot is the same
    afterwards. *)
Theorem show_birthday_cases {U} `{UI U} (bot : Bot.t U) (name : string) :
  (PyDict.getitem name (AddressBook.data (Bot.address_book bot)) = None
   /\ Bot.show_birthday name bot = (Return "Контакт не знайдено.", bot))
  \/ (exists r b,
        PyDict.getitem name (AddressBook.data (Bot.address_book bot)) = Some r
        /\ Rec.birthday r = Some b
        /\ Bot.show_birthday name bot
           = (Return ("День народження " ++ name ++ " на " ++ value b ++ "."),
              bot))
  \/ (exists r msg,
        PyDict.getitem name (AddressBook.data (Bot.address_book bot)) = Some r
        /\ Rec.birthday r = None
        /\ Bot.show_birthday name bot = (Throw (AttributeError msg), bot)).
Proof.
  rewrite show_birthday_eq.
  destruct (find_cases (Bot.address_book bot) name) as [[G E]|[r [G E]]];
    rewrite E.
  - left. split; [assumption|]. now rewrite bot_eta.
  - right. destruct (Rec.birthday r) as [b|] eqn:B.
    + left. exists r, b. rewrite bot_eta.
      split; [assumption|]. split; [assumption|reflexivity].
    + right. exists r. eexists. rewrite bot_eta.
      split; [assumption|]. split; [assumption|reflexivity].
Qed.

(** X19.  [add_birthday] never raises and always prints.  For an unknown name it
    prints the not-found text; for a known name and a date the parser
    rejects, the two error lines; in both cases the directory is as it was.
    For a known name and an accepted date the record under that name takes
    the date as typed, keeping its name, phones and place. *)
Theorem add_birthday_cases (book : AddressBook.t) (c : Console.t)
    (name dob : string) :
  (PyDict.getitem name (AddressBook.data book) = None
   /\ Bot.add_birthday name dob (Bot.mk book c)
      = (Return tt, Bot.mk book (printed "Контакт не знайдено." c)))
  \/ (exists r,
        PyDict.getitem name (AddressBook.data book) = Some r
        /\ is_ok (Birthday.__init__ dob) = false
        /\ Bot.add_birthday name dob (Bot.mk book c)
           = (Return tt,
              Bot.mk book
                (printed "Будь ласка, введіть дату у правильному форматі."
                   (printed ("Помилка: " ++ Birthday.invalid_msg) c))))
  \/ (exists r,
        PyDict.getitem name (AddressBook.data book) = Some r
        /\ is_ok (Birthday.__init__ dob) = true
        /\ Bot.add_birthday name dob (Bot.mk book c)
           = (Return tt,
              Bot.mk
                (AddressBook.mk
                   (PyDict.setitem name
                      (Rec.mk (Rec.name r) (Rec.phones r)
                         (Some (mkField dob)))
                      (AddressBook.data book)))
                (printed ("День народження додано/оновлено для "
                          ++ name ++ ".") c))).
Proof.
  rewrite add_birthday_eq.
  destruct (find_cases book name) as [[G E]|[r [G E]]]; rewrite E.
  - left. split; [assumption|]. reflexivity.
  - right. destruct (init_cases dob) as [[I Eb]|[I Eb]]; rewrite Eb.
    + right. exists r. split; [assumption|]. split; reflexivity.
    + left. exists r. split; [assumption|]. split; reflexivity.
Qed.

Lemma dob_round_eq book ins out :
  dob_round (Bot.mk book (Console.mk ins out))
  = match ins with
    | [] =>
        (Throw EOFError,
         Bot.mk book
           (Console.mk [] (out ++ ["Введіть дату народження (DD.MM.YYYY): "])))
    | s :: rest =>
        match Birthday.__init__ s with
        | Ok b =>
            (Return (Some b),
             Bot.mk book
               (Console.mk rest
                  (out ++ ["Введіть дату народження (DD.MM.YYYY): "])))
        | Raise (ValueError msg) =>
            (Return None,
             Bot.mk book
               (Console.mk rest
                  (((out ++ ["Введіть дату народження (DD.MM.YYYY): "])
                    ++ ["Помилка: " ++ msg ++ Console.newline])
                   ++ ["Будь ласка, введіть дату у правильному форматі."
                       ++ Console.newline])))
        | Raise e =>
            (Throw (Std e),
             Bot.mk book
               (Console.mk rest
                  (out ++ ["Введіть дату народження (DD.MM.YYYY): "])))
        end
    end.
Proof.
  unfold dob_round, IO.bind, IO.try_except, Bot.on_ui, IO.lift, IO.ret.
  cbn [get_input display_info ConsoleUI Bot.ui Bot.address_book].
  unfold Console.input, Console.print. cbn [Console.stdin Console.stdout].
  destruct ins as [|s rest]; [reflexivity|].
  destruct (Birthday.__init__ s) as [b|[m|m|m]]; reflexivity.
Qed.

Lemma phone_round_eq book ins out :
  phone_round (Bot.mk book (Console.mk ins out))
  = match ins with
    | [] =>
        (Throw EOFError,
         Bot.mk book (Console.mk [] (out ++ ["Введіть номер телефону: "])))
    | s :: rest =>
        (Return (Some (Phone.__init__ s)),
         Bot.mk book (Console.mk rest (out ++ ["Введіть номер телефону: "])))
    end.
Proof.
  unfold phone_round, IO.bind, IO.try_except, Bot.on_ui, IO.ret.
  cbn [get_input ConsoleUI Bot.ui Bot.address_book].
  unfold Console.input. cbn [Console.stdin Console.stdout].
  destruct ins; reflexivity.
Qed.

Lemma add_user_eq fuel name :
  Bot.add_user fuel name
  = (dob <- IO.while_true fuel dob_round ;;
     phone <- IO.while_true fuel phone_round ;;
     match Rec.add_phone phone
             (Bot.set_birthday (Some dob) (Rec.__init__ name)) with
     | (Raise e, _) => IO.throw (Std e)
     | (Ok _, record) =>
         Bot.on_book (AddressBook.add_record record) ;;;
         Bot.on_ui (display_info "Контакт додано успішно.")
     end)%io.
Proof. reflexivity. Qed.

Lemma app_assoc3 {A} (a : list A) x y z :
  (((a ++ [x]) ++ [y]) ++ [z] = a ++ [x; y; z])%list.
Proof. now rewrite <- !app_assoc. Qed.

Lemma dob_loop_rejected fuel bads ins out book :
  Forall rejected_date bads ->
  IO.while_true (List.length bads + fuel) dob_round
    (Bot.mk book (Console.mk (bads ++ ins) out))
  = IO.while_true fuel dob_round
      (Bot.mk book (Console.mk ins (out ++ date_retries bads))).
Proof.
  intros F. revert out. induction F as [|s bads Hs F IH]; intros out.
  - cbn [List.length Nat.add app date_retries flat_map]. now rewrite app_nil_r.
  - cbn [List.length Nat.add app IO.while_true]. rewrite dob_round_eq.
    destruct (init_cases s) as [[I _]|[_ E]];
      [unfold rejected_date in Hs; congruence|].
    rewrite E. rewrite IH. rewrite app_assoc3.
    cbn [date_retries flat_map]. now rewrite <- !app_assoc.
Qed.

(** What the two loops can do, for any number of rounds. *)
Lemma dob_loop_inv fuel book c :
  let res := IO.while_true fuel dob_round (Bot.mk book c) in
  Bot.address_book (snd res) = book
  /\ match fst res with
     | Return b => is_ok (Birthday.__init__ (value b)) = true
     | Throw e => e = EOFError /\ Console.stdin (Bot.ui (snd res)) = []
     | OutOfFuel => (fuel <= List.length (Console.stdin c))%nat
     end.
Proof.
  revert c. induction fuel as [|fuel IH]; intros [ins out].
  - cbn. split; [reflexivity|lia].
  - cbn [IO.while_true]. rewrite dob_round_eq.
    destruct ins as [|s rest]; [cbn; auto|].
    destruct (init_cases s) as [[I E]|[I E]]; rewrite E.
    + cbn [fst snd Bot.address_book value]. auto.
    + specialize (IH (Console.mk rest
                        (((out ++ ["Введіть дату народження (DD.MM.YYYY): "])
                          ++ ["Помилка: " ++ Birthday.invalid_msg
                              ++ Console.newline])
                         ++ ["Будь ласка, введіть дату у правильному форматі."
                             ++ Console.newline]))).
      cbv zeta in IH. destruct IH as [IH1 IH2]. split; [exact IH1|].
      destruct (fst (IO.while_true fuel dob_round _)); auto.
      cbn [Console.stdin List.length] in *. lia.
Qed.

Lemma phone_loop_eq fuel book ins out :
  IO.while_true (S fuel) phone_round (Bot.mk book (Console.mk ins out))
  = match ins with
    | [] =>
        (Throw EOFError,
         Bot.mk book (Console.mk [] (out ++ ["Введіть номер телефону: "])))
    | s :: rest =>
        (Return (Phone.__init__ s),
         Bot.mk book (Console.mk rest (out ++ ["Введіть номер телефону: "])))
    end.
Proof.
  cbn [IO.while_true]. rewrite phone_round_eq. destruct ins; reflexivity.
Qed.

(** The end of [add_user], once both loops are left. *)
Lemma add_user_tail name (b : Birthday.t) (p : Phone.t) book c :
  (match Rec.add_phone p (Bot.set_birthday (Some b) (Rec.__init__ name)) with
   | (Raise e, _) => IO.throw (Std e)
   | (Ok _, record) =>
       Bot.on_book (AddressBook.add_record record) ;;;
       Bot.on_ui (display_info "Контакт додано успішно.")
   end)%io (Bot.mk book c)
  = match Phone.validate p with
    | Ok _ =>
        (Return tt,
         Bot.mk (snd (AddressBook.add_record
                        (Rec.mk (mkField name) [p] (Some b)) book))
                (printed "Контакт додано успішно." c))
    | Raise e => (Throw (Std e), Bot.mk book c)
    end.
Proof.
  unfold Rec.add_phone, bind, get, put, lift.
  destruct (Phone.validate p) as [[]|e]; reflexivity.
Qed.

Lemma add_user_run fuel name book c :
  Bot.add_user fuel name (Bot.mk book c)
  = match IO.while_true fuel dob_round (Bot.mk book c) with
    | (Return b, bot1) =>
        match IO.while_true fuel phone_round bot1 with
        | (Return p, bot2) =>
            match Phone.validate p with
            | Ok _ =>
                (Return tt,
                 Bot.mk (snd (AddressBook.add_record
                                (Rec.mk (mkField name) [p] (Some b))
                                (Bot.address_book bot2)))
                        (printed "Контакт додано успішно." (Bot.ui bot2)))
            | Raise e => (Throw (Std e), bot2)
            end
        | (Throw e, bot2) => (Throw e, bot2)
        | (OutOfFuel, bot2) => (OutOfFuel, bot2)
        end
    | (Throw e, bot1) => (Throw e, bot1)
    | (OutOfFuel, bot1) => (OutOfFuel, bot1)
    end.
Proof.
  rewrite add_user_eq. unfold IO.bind at 1.
  destruct (IO.while_true fuel dob_round (Bot.mk book c)) as [[b|e|] bot1];
    try reflexivity.
  unfold IO.bind at 1.
  destruct (IO.while_true fuel phone_round bot1) as [[p|e|] [book2 c2]];
    try reflexivity.
  rewrite add_user_tail. reflexivity.
Qed.

(** X15.  With any number of rejected dates typed first, then an accepted date
    and a phone that passes [validate], [add_user] returns: the directory
    has the new contact under the name, the typed lines are consumed, and
    the console shows the prompt and two error lines for each rejected
    date, one more date prompt, one phone prompt and the success line. *)
Theorem add_user_adds_contact (fuel : nat) (name dob phone : string)
    (rejected rest out : list string) (book : AddressBook.t) :
  Forall rejected_date rejected ->
  is_ok (Birthday.__init__ dob) = true ->
  Phone.validate (Phone.__init__ phone) = Ok tt ->
  (List.length rejected < fuel)%nat ->
  Bot.add_user fuel name
    (Bot.mk book (Console.mk (rejected ++ dob :: phone :: rest) out))
  = (Return tt,
     Bot.mk (snd (AddressBook.add_record (new_contact name dob phone) book))
       (Console.mk rest
          (out ++ date_retries rejected
           ++ ["Введіть дату народження (DD.MM.YYYY): ";
               "Введіть номер телефону: ";
               "Контакт додано успішно." ++ Console.newline]))).
Proof.
  intros F Hd Hp Hf. rewrite add_user_run.
  replace fuel with (List.length rejected + S (fuel - S (List.length rejected)))%nat
    at 1 by lia.
  rewrite dob_loop_rejected by assumption.
  cbn [IO.while_true]. rewrite dob_round_eq.
  destruct (init_cases dob) as [[_ E]|[I _]]; [|congruence]. rewrite E.
  destruct fuel as [|fuel]; [lia|]. rewrite phone_loop_eq.
  rewrite Hp. unfold printed, new_contact, Phone.__init__.
  cbn [Bot.address_book Bot.ui Console.stdin Console.stdout].
  now rewrite <- !app_assoc.
Qed.

(** X16.  With a phone that fails [validate], [add_user] asks for the phone once
    only and the invalid-phone error escapes: nothing is added to the
    directory and no success line is written. *)
Theorem add_user_invalid_phone (fuel : nat) (name dob phone : string)
    (rejected rest out : list string) (book : AddressBook.t) :
  Forall rejected_date rejected ->
  is_ok (Birthday.__init__ dob) = true ->
  Phone.validate (Phone.__init__ phone) <> Ok tt ->
  (List.length rejected < fuel)%nat ->
  Bot.add_user fuel name
    (Bot.mk book (Console.mk (rejected ++ dob :: phone :: rest) out))
  = (Throw (Std (ValueError Phone.invalid_msg)),
     Bot.mk book
       (Console.mk rest
          (out ++ date_retries rejected
           ++ ["Введіть дату народження (DD.MM.YYYY): ";
               "Введіть номер телефону: "]))).
Proof.
  intros F Hd Hp Hf. rewrite add_user_run.
  replace fuel with (List.length rejected + S (fuel - S (List.length rejected)))%nat
    at 1 by lia.
  rewrite dob_loop_rejected by assumption.
  cbn [IO.while_true]. rewrite dob_round_eq.
  destruct (init_cases dob) as [[_ E]|[I _]]; [|congruence]. rewrite E.
  destruct fuel as [|fuel]; [lia|]. rewrite phone_loop_eq.
  destruct (validate_cases (Phone.__init__ phone)) as [V|V]; [contradiction|].
  rewrite V. now rewrite <- !app_assoc.
Qed.

(** Every way [add_user] can end, for any console and any bound on the
    rounds. *)
Lemma add_user_inv fuel name book c :
  let res := Bot.add_user fuel name (Bot.mk book c) in
  (fst res = Return tt
   /\ exists dob phone,
        is_ok (Birthday.__init__ dob) = true
        /\ Phone.validate (Phone.__init__ phone) = Ok tt
        /\ Bot.address_book (snd res)
           = snd (AddressBook.add_record (new_contact name dob phone) book))
  \/ (fst res = Throw EOFError
      /\ Bot.address_book (snd res) = book
      /\ Console.stdin (Bot.ui (snd res)) = [])
  \/ (fst res = Throw (Std (ValueError Phone.invalid_msg))
      /\ Bot.address_book (snd res) = book)
  \/ (fst res = OutOfFuel
      /\ Bot.address_book (snd res) = book
      /\ (fuel <= List.length (Console.stdin c))%nat).
Proof.
  cbv zeta. rewrite add_user_run.
  pose proof (dob_loop_inv fuel book c) as D. cbv zeta in D.
  destruct (IO.while_true fuel dob_round (Bot.mk book c))
    as [[b|e|] [book1 [ins1 out1]]];
    cbn [fst snd Bot.address_book Bot.ui Console.stdin] in D;
    destruct D as [-> D].
  - destruct fuel as [|fuel].
    { cbn [IO.while_true fst snd Bot.address_book]. right. right. right.
      split; [reflexivity|]. split; [reflexivity|]. lia. }
    rewrite phone_loop_eq. destruct ins1 as [|s rest].
    + right. left. cbn. auto.
    + destruct (validate_cases (Phone.__init__ s)) as [V|V]; rewrite V.
      * left. cbn [fst snd Bot.address_book]. split; [reflexivity|].
        destruct b as [dob]. exists dob, s. cbn [value] in D.
        split; [assumption|]. split; [assumption|]. reflexivity.
      * right. right. left. cbn. auto.
  - destruct D as [-> D]. right. left. cbn. auto.
  - right. right. right. cbn. auto.
Qed.

(** X17.  On a console with finitely many lines of input [add_user] ends, in one
    of three ways: it returns with one contact added; or the input runs
    out and [EOFError] escapes; or the phone fails [validate] and the
    invalid-phone error escapes.  In the last two the directory is as it
    was. *)
Theorem add_user_ends (fuel : nat) (name : string) (book : AddressBook.t)
    (c : Console.t) :
  (List.length (Console.stdin c) < fuel)%nat ->
  (fst (Bot.add_user fuel name (Bot.mk book c)) = Return tt
   /\ exists dob phone,
        is_ok (Birthday.__init__ dob) = true
        /\ Phone.validate (Phone.__init__ phone) = Ok tt
        /\ Bot.address_book (snd (Bot.add_user fuel name (Bot.mk book c)))
           = snd (AddressBook.add_record (new_contact name dob phone) book))
  \/ (fst (Bot.add_user fuel name (Bot.mk book c)) = Throw EOFError
      /\ Bot.address_book (snd (Bot.add_user fuel name (Bot.mk book c)))
         = book
      /\ Console.stdin (Bot.ui (snd (Bot.add_user fuel name (Bot.mk book c))))
         = [])
  \/ (fst (Bot.add_user fuel name (Bot.mk book c))
      = Throw (Std (ValueError Phone.invalid_msg))
      /\ Bot.address_book (snd (Bot.add_user fuel name (Bot.mk book c)))
         = book).
Proof.
  intros Hf. destruct (add_user_inv fuel name book c) as [H|[H|[H|H]]]; auto.
  destruct H as [_ [_ H]]. lia.
Qed.

Lemma In_values_setitem {V} k (v v' : V) d :
  In v' (values (setitem k v d)) -> v' = v \/ In v' (values d).
Proof.
  unfold values. rewrite in_map_iff. intros [[k0 v0] [E H]]. cbn [snd] in E.
  subst v0. apply In_setitem in H. destruct H as [[_ ->]|H]; [now left|].
  right. now apply (in_map snd) in H.
Qed.

Lemma bot_ok_add_record book r :
  bot_ok book -> contact_ok r ->
  bot_ok (snd (AddressBook.add_record r book)).
Proof.
  intros [Hb Hc] Hr. split; [now apply book_ok_add_record|].
  intros r' Hin. unfold AddressBook.add_record, bind, get, put in Hin.
  cbn [snd AddressBook.data] in Hin. apply In_values_setitem in Hin.
  destruct Hin as [->|Hin]; [assumption|now apply Hc].
Qed.

Lemma new_contact_ok name dob phone :
  is_ok (Birthday.__init__ dob) = true ->
  Phone.validate (Phone.__init__ phone) = Ok tt ->
  contact_ok (new_contact name dob phone).
Proof.
  intros Hd Hp. split.
  - exists (mkField dob). split; [reflexivity|assumption].
  - exists (mkField phone). split; [reflexivity|assumption].
Qed.

Lemma add_birthday_book book (c : Console.t) name dob :
  Bot.address_book (snd (Bot.add_birthday name dob (Bot.mk book c))) = book
  \/ exists r,
       PyDict.getitem name (AddressBook.data book) = Some r
       /\ is_ok (Birthday.__init__ dob) = true
       /\ Bot.address_book (snd (Bot.add_birthday name dob (Bot.mk book c)))
          = AddressBook.mk
              (PyDict.setitem name
                 (Rec.mk (Rec.name r) (Rec.phones r) (Some (mkField dob)))
                 (AddressBook.data book)).
Proof.
  rewrite add_birthday_eq.
  destruct (find_cases book name) as [[G E]|[r [G E]]]; rewrite E.
  - now left.
  - destruct (init_cases dob) as [[I Eb]|[I Eb]]; rewrite Eb.
    + right. exists r. split; [assumption|]. split; [reflexivity|reflexivity].
    + now left.
Qed.

(** X21.  The directory of a bot that starts empty and is changed through
    [add_user] and [add_birthday] always has each contact under its own
    name, with a birthday the parser accepts and one phone that passes
    [validate] -- however the calls end. *)
Theorem bot_ok_kept :
  bot_ok AddressBook.__init__
  /\ forall (book : AddressBook.t) (c : Console.t),
       bot_ok book ->
       (forall fuel name,
           bot_ok (Bot.address_book
                     (snd (Bot.add_user fuel name (Bot.mk book c)))))
       /\ (forall name dob,
             bot_ok (Bot.address_book
                       (snd (Bot.add_birthday name dob (Bot.mk book c))))).
Proof.
  split.
  { split; [split|].
    - constructor.
    - intros k r [].
    - intros r []. }
  intros book c Hok. split.
  - intros fuel name.
    destruct (add_user_inv fuel name book c)
      as [[_ [dob [phone [Hd [Hp E]]]]]|[[_ [E _]]|[[_ E]|[_ [E _]]]]];
      rewrite E; try assumption.
    apply bot_ok_add_record; [assumption|now apply new_contact_ok].
  - intros name dob.
    destruct (add_birthday_book book c name dob) as [E|[r [G [I E]]]];
      rewrite E; [assumption|].
    destruct Hok as [[Hwf Hk] Hc]. apply getitem_In in G.
    assert (Hr : In r (PyDict.values (AddressBook.data book))).
    { now apply (in_map snd) in G. }
    split; [split|]; cbn [AddressBook.data].
    + now apply wf_setitem.
    + intros k r' Hin. cbn [AddressBook.data] in Hin.
      apply In_setitem in Hin. destruct Hin as [[-> ->]|Hin]; [|now apply Hk].
      cbn [Rec.name]. now apply Hk.
    + intros r' Hin. apply In_values_setitem in Hin.
      destruct Hin as [->|Hin]; [|now apply Hc].
      destruct (Hc r Hr) as [_ Hp]. split; [|exact Hp].
      exists (mkField dob). split; [reflexivity|assumption].
Qed.

(** X22.  On a directory as the bot keeps it [show_birthday] never raises: it
    returns a text and leaves the bot as it was. *)
Theorem show_birthday_returns {U} `{UI U} (book : AddressBook.t) (u : U)
    (name : string) :
  bot_ok book ->
  exists text,
    Bot.show_birthday name (Bot.mk book u) = (Return text, Bot.mk book u).
Proof.
  intros [_ Hc]. rewrite show_birthday_eq. cbn [Bot.address_book].
  destruct (find_cases book name) as [[G E]|[r [G E]]]; rewrite E.
  - eexists. reflexivity.
  - apply getitem_In in G. apply (in_map snd) in G.
    destruct (Hc r G) as [[b [B _]] _]. cbn [snd] in B. rewrite B.
    eexists. reflexivity.
Qed.

(** X18.  After an [add_user] that returned, the directory holds under the name
    a contact made of one typed date and one typed phone, and
    [show_birthday] and [get_user_info] for the name answer with that date
    and that phone, as typed. *)
Theorem add_user_then_show (fuel : nat) (name : string)
    (book : AddressBook.t) (c : Console.t) :
  fst (Bot.add_user fuel name (Bot.mk book c)) = Return tt ->
  exists dob phone,
    PyDict.getitem name
      (AddressBook.data
         (Bot.address_book (snd (Bot.add_user fuel name (Bot.mk book c)))))
    = Some (new_contact name dob phone)
    /\ Bot.show_birthday name (snd (Bot.add_user fuel name (Bot.mk book c)))
       = (Return ("День народження " ++ name ++ " на " ++ dob ++ "."),
          snd (Bot.add_user fuel name (Bot.mk book c)))
    /\ Bot.get_user_info name (snd (Bot.add_user fuel name (Bot.mk book c)))
       = (Return ("Ім'я: " ++ name ++ ", Телефони: " ++ phone
                  ++ ", День народження: " ++ dob),
          snd (Bot.add_user fuel name (Bot.mk book c))).
Proof.
  intros Hr.
  destruct (add_user_inv fuel name book c)
    as [[_ [dob [phone [Hd [Hp E]]]]]|[[E' _]|[[E' _]|[E' _]]]];
    try congruence.
  exists dob, phone.
  destruct (snd (Bot.add_user fuel name (Bot.mk book c))) as [book' c'].
  cbn [Bot.address_book] in E. subst book'.
  assert (G : PyDict.getitem name
                (AddressBook.data
                   (snd (AddressBook.add_record (new_contact name dob phone)
                           book)))
              = Some (new_contact name dob phone)).
  { unfold AddressBook.add_record, bind, get, put.
    cbn [snd AddressBook.data new_contact Rec.name value].
    apply getitem_setitem_eq. }
  assert (F : AddressBook.find name
                (snd (AddressBook.add_record (new_contact name dob phone)
                        book))
              = (Ok (new_contact name dob phone),
                 snd (AddressBook.add_record (new_contact name dob phone)
                        book))).
  { destruct (find_cases
                (snd (AddressBook.add_record (new_contact name dob phone)
                        book)) name) as [[G' _]|[r [G' F]]]; [congruence|].
    rewrite F. congruence. }
  split; [exact G|]. split.
  - rewrite show_birthday_eq. cbn [Bot.address_book Bot.ui]. rewrite F.
    reflexivity.
  - rewrite get_user_info_eq. cbn [Bot.address_book Bot.ui]. rewrite F.
    reflexivity.
Qed.

(** X23.  The four lookups of the bot -- [get_user_info], [list_all_users],
    [show_birthday], [birthdays] -- leave the directory and the user
    interface as they were, and the first two never raise. *)
Theorem bot_lookups_read_only {U} `{UI U} (bot : Bot.t U) (name : string)
    (today : PyDate.date) :
  snd (Bot.get_user_info name bot) = bot
  /\ snd (Bot.list_all_users bot) = bot
  /\ snd (Bot.show_birthday name bot) = bot
  /\ snd (Bot.birthdays today bot) = bot
  /\ (exists text, fst (Bot.get_user_info name bot) = Return text)
  /\ (exists text, fst (Bot.list_all_users bot) = Return text).
Proof.
  assert (F : snd (AddressBook.find name (Bot.address_book bot))
              = Bot.address_book bot).
  { destruct (find_cases (Bot.address_book bot) name) as [[_ E]|[r [_ E]]];
      now rewrite E. }
  split; [|split; [|split; [|split; [|split]]]].
  - rewrite get_user_info_eq.
    destruct (AddressBook.find name (Bot.address_book bot))
      as [[r|[m|m|m]] book']; cbn [snd] in *; subst book'; apply bot_eta.
  - unfold Bot.list_all_users, IO.bind, IO.get, IO.ret.
    destruct (AddressBook.data (Bot.address_book bot)); reflexivity.
  - rewrite show_birthday_eq.
    destruct (AddressBook.find name (Bot.address_book bot))
      as [[r|[m|m|m]] book']; cbn [snd] in *; subst book';
      [destruct (Rec.birthday r)|..]; apply bot_eta.
  - unfold Bot.birthdays, IO.bind, Bot.on_book, IO.ret.
    pose proof (query_state_unchanged (Bot.address_book bot) today) as Q.
    destruct (AddressBook.get_upcoming_birthdays today (Bot.address_book bot))
      as [[[|e l]|e] book']; cbn [snd] in *; subst book'; apply bot_eta.
  - rewrite get_user_info_eq.
    destruct (find_cases (Bot.address_book bot) name) as [[_ E]|[r [_ E]]];
      rewrite E; eexists; reflexivity.
  - unfold Bot.list_all_users, IO.bind, IO.get, IO.ret.
    destruct (AddressBook.data (Bot.address_book bot)); eexists; reflexivity.
Qed.

(** ** The bot and the query *)

(** X24.  On a directory made by the bot and free of 29 February birthdays,
    [birthdays] returns a text whenever today is a real date before the
    year 9999. *)
Theorem birthdays_returns {U} `{UI U} (book : AddressBook.t) (u : U)
    (today : date) :
  valid today = true ->
  year today < 9999 ->
  bot_ok book ->
  (forall r b parsed,
     In r (PyDict.values (AddressBook.data book)) ->
     Rec.birthday r = Some b ->
     PyTime.strptime (value b) "%d.%m.%Y" = Ok parsed ->
     ~ (month parsed = 2 /\ day parsed = 29)) ->
  exists text,
    Bot.birthdays today (Bot.mk book u) = (Return text, Bot.mk book u).
Proof.
  intros Vt Hy [_ Hc] Hn.
  unfold Bot.birthdays, IO.bind, Bot.on_book, IO.ret. cbn [Bot.address_book Bot.ui].
  rewrite get_upcoming_birthdays_eq.
  rewrite visit_all_result_ok.
  - cbn [app]. destruct (flat_map _ _); eexists; reflexivity.
  - intros r Hr. apply visit_returns; [assumption|assumption|].
    intros b Hb. destruct (Hc r Hr) as [[b' [Hb' Hi]] _].
    rewrite Hb in Hb'. injection Hb' as <-.
    destruct (Birthday_init_cases (value b)) as [[t [Ht _]]|[_ E]].
    + exists t. split; [assumption|]. now apply (Hn r b t).
    + rewrite E in Hi. discriminate.
Qed.

Lemma ivan_book_ok : bot_ok ivan_book.
Proof.
  apply bot_ok_add_record.
  - split; [split|].
    + constructor.
    + intros k r [].
    + intros r [].
  - apply new_contact_ok; vm_compute; reflexivity.
Qed.

Lemma birthdays_returns_witness :
  exists text,
    Bot.birthdays monday_2024_06_10 (Bot.mk ivan_book typed_ivan)
    = (Return text, Bot.mk ivan_book typed_ivan).
Proof.
  apply (birthdays_returns ivan_book typed_ivan monday_2024_06_10).
  - vm_compute. reflexivity.
  - vm_compute. reflexivity.
  - exact ivan_book_ok.
  - intros r b parsed [<-|[]] Hb Hp. cbn in Hb. injection Hb as <-.
    assert (E : PyTime.strptime "24.08.1991" "%d.%m.%Y" = Ok (mkdate 1991 8 24))
      by (vm_compute; reflexivity).
    cbn [value] in Hp. rewrite E in Hp. injection Hp as <-.
    cbn. intros [? _]. discriminate.
Defined.

Lemma show_birthday_returns_witness :
  exists text,
    Bot.show_birthday "Ivan" (Bot.mk ivan_book typed_ivan)
    = (Return text, Bot.mk ivan_book typed_ivan).
Proof. apply (show_birthday_returns ivan_book typed_ivan "Ivan" ivan_book_ok). Defined.

Lemma add_user_adds_contact_witness :
  Bot.add_user 2 "Ivan"
    (Bot.mk AddressBook.__init__
       (Console.mk (["31.02.2020"] ++ ["24.08.1991"; "0501112233"; "1"]) []))
  = (Return tt,
     Bot.mk ivan_book
       (Console.mk ["1"]
          ([] ++ date_retries ["31.02.2020"]
           ++ ["Введіть дату народження (DD.MM.YYYY): ";
               "Введіть номер телефону: ";
               "Контакт додано успішно." ++ Console.newline]))).
Proof.
  apply (add_user_adds_contact 2 "Ivan" "24.08.1991" "0501112233"
           ["31.02.2020"] ["1"] [] AddressBook.__init__).
  - constructor; [vm_compute; reflexivity|constructor].
  - vm_compute. reflexivity.
  - vm_compute. reflexivity.
  - simpl. lia.
Defined.

Lemma add_user_invalid_phone_witness :
  Bot.add_user 2 "Ivan"
    (Bot.mk AddressBook.__init__
       (Console.mk (["31.02.2020"] ++ ["24.08.1991"; "12345"; "0501112233"])
          []))
  = (Throw (Std (ValueError Phone.invalid_msg)),
     Bot.mk AddressBook.__init__
       (Console.mk ["0501112233"]
          ([] ++ date_retries ["31.02.2020"]
           ++ ["Введіть дату народження (DD.MM.YYYY): ";
               "Введіть номер телефону: "]))).
Proof.
  apply (add_user_invalid_phone 2 "Ivan" "24.08.1991" "12345"
           ["31.02.2020"] ["0501112233"] [] AddressBook.__init__).
  - constructor; [vm_compute; reflexivity|constructor].
  - vm_compute. reflexivity.
  - vm_compute. discriminate.
  - simpl. lia.
Defined.

Lemma add_user_ends_witness :
  (fst (Bot.add_user 4 "Ivan" (Bot.mk AddressBook.__init__ typed_ivan))
   = Return tt
   /\ exists dob phone,
        is_ok (Birthday.__init__ dob) = true
        /\ Phone.validate (Phone.__init__ phone) = Ok tt
        /\ Bot.address_book
             (snd (Bot.add_user 4 "Ivan"
                     (Bot.mk AddressBook.__init__ typed_ivan)))
           = snd (AddressBook.add_record (new_contact "Ivan" dob phone)
                    AddressBook.__init__))
  \/ (fst (Bot.add_user 4 "Ivan" (Bot.mk AddressBook.__init__ typed_ivan))
      = Throw EOFError
      /\ Bot.address_book
           (snd (Bot.add_user 4 "Ivan"
                   (Bot.mk AddressBook.__init__ typed_ivan)))
         = AddressBook.__init__
      /\ Console.stdin
           (Bot.ui (snd (Bot.add_user 4 "Ivan"
                           (Bot.mk AddressBook.__init__ typed_ivan))))
         = [])
  \/ (fst (Bot.add_user 4 "Ivan" (Bot.mk AddressBook.__init__ typed_ivan))
      = Throw (Std (ValueError Phone.invalid_msg))
      /\ Bot.address_book
           (snd (Bot.add_user 4 "Ivan"
                   (Bot.mk AddressBook.__init__ typed_ivan)))
         = AddressBook.__init__).
Proof.
  apply (add_user_ends 4 "Ivan" AddressBook.__init__ typed_ivan).
  simpl. lia.
Defined.

Lemma add_user_then_show_witness :
  exists dob phone,
    PyDict.getitem "Ivan"
      (AddressBook.data
         (Bot.address_book
            (snd (Bot.add_user 4 "Ivan"
                    (Bot.mk AddressBook.__init__ typed_ivan)))))
    = Some (new_contact "Ivan" dob phone)
    /\ Bot.show_birthday "Ivan"
         (snd (Bot.add_user 4 "Ivan" (Bot.mk AddressBook.__init__ typed_ivan)))
       = (Return ("День народження " ++ "Ivan" ++ " на " ++ dob ++ "."),
          snd (Bot.add_user 4 "Ivan" (Bot.mk AddressBook.__init__ typed_ivan)))
    /\ Bot.get_user_info "Ivan"
         (snd (Bot.add_user 4 "Ivan" (Bot.mk AddressBook.__init__ typed_ivan)))
       = (Return ("Ім'я: " ++ "Ivan" ++ ", Телефони: " ++ phone
                  ++ ", День народження: " ++ dob),
          snd (Bot.add_user 4 "Ivan" (Bot.mk AddressBook.__init__ typed_ivan))).
Proof.
  apply (add_user_then_show 4 "Ivan" AddressBook.__init__ typed_ivan).
  vm_compute. reflexivity.
Defined.


Lemma upcoming_in_directory_order_witness :
  Subseq (map AddressBook.name
            [AddressBook.mkentry "A" "2024.06.12";
             AddressBook.mkentry "B" "2024.06.17"])
         (record_names bookABC)
  /\ (List.length [AddressBook.mkentry "A" "2024.06.12";
                   AddressBook.mkentry "B" "2024.06.17"]
      <= List.length (PyDict.values (AddressBook.data bookABC)))%nat.
Proof.
  apply (upcoming_in_directory_order bookABC bookABC monday_2024_06_10).
  vm_compute. reflexivity.
Defined.

Lemma upcoming_window_witness :
  exists r b parsed bd c,
    In r (PyDict.values (AddressBook.data bookABC))
    /\ AddressBook.name (AddressBook.mkentry "B" "2024.06.17")
       = value (Rec.name r)
    /\ Rec.birthday r = Some b
    /\ PyTime.strptime (value b) "%d.%m.%Y" = Ok parsed
    /\ next_occurrence monday_2024_06_10 parsed bd
    /\ toordinal bd <= toordinal monday_2024_06_10 + 7
    /\ AddressBook.congratulation_date (AddressBook.mkentry "B" "2024.06.17")
       = PyTime.strftime c "%Y.%m.%d"
    /\ valid c = true
    /\ toordinal bd <= toordinal c <= toordinal bd + 2
    /\ toordinal monday_2024_06_10 <= toordinal c
       <= toordinal monday_2024_06_10 + 9.
Proof.
  apply (upcoming_window bookABC bookABC monday_2024_06_10
           [AddressBook.mkentry "A" "2024.06.12";
            AddressBook.mkentry "B" "2024.06.17"]).
  - vm_compute. reflexivity.
  - vm_compute. reflexivity.
  - right. left. reflexivity.
Defined.


Lemma upcoming_returns_witness :
  exists res,
    AddressBook.get_upcoming_birthdays monday_2024_06_10 bookABC
    = (Ok res, bookABC).
Proof.
  apply (upcoming_returns bookABC monday_2024_06_10).
  - vm_compute. reflexivity.
  - vm_compute. reflexivity.
  - intros r b [<-|[<-|[<-|[]]]] Hb; cbn in Hb; injection Hb as <-;
      eexists; (split; [vm_compute; reflexivity|]);
      cbn; intros [? _]; discriminate.
Defined.

Lemma leap_day_raises_when_past_witness :
  is_ok (fst (AddressBook.get_upcoming_birthdays (mkdate 2024 3 1) leap_book))
  = false.
Proof.
  apply (leap_day_raises_when_past leap_book (mkdate 2024 3 1) olena
           (mkField "29.02.2000") (mkdate 2000 2 29)).
  - left. reflexivity.
  - reflexivity.
  - vm_compute. reflexivity.
  - reflexivity.
  - reflexivity.
  - vm_compute. reflexivity.
  - vm_compute. reflexivity.
Defined.

Lemma str_append_assoc (a b c : string) :
  ((a ++ b) ++ c = a ++ (b ++ c))%string.
Proof.
  induction a as [|ch a IH]; [reflexivity|]. cbn [append]. now rewrite IH.
Qed.

Lemma join_snoc sep x y xs :
  PyStr.join sep ((x :: xs) ++ [y])
  = (PyStr.join sep (x :: xs) ++ sep ++ y)%string.
Proof.
  revert x. induction xs as [|z xs IH]; intros x.
  - reflexivity.
  - change (PyStr.join sep ((x :: z :: xs) ++ [y]))
      with (x ++ sep ++ PyStr.join sep ((z :: xs) ++ [y]))%string.
    rewrite IH.
    change (PyStr.join sep (x :: z :: xs))
      with (x ++ sep ++ PyStr.join sep (z :: xs))%string.
    now rewrite !str_append_assoc.
Qed.

Lemma list_all_users_eq {U} `{UI U} (bot : Bot.t U) :
  Bot.list_all_users bot
  = (Return match AddressBook.data (Bot.address_book bot) with
            | [] => "Немає доступних контактів."
            | _ => PyStr.join Console.newline
                     (record_names (Bot.address_book bot))
            end, bot).
Proof.
  unfold Bot.list_all_users, IO.bind, IO.get, IO.ret, record_names.
  destruct (AddressBook.data (Bot.address_book bot)); reflexivity.
Qed.

(** X25.  A contact added under a new name comes last in the list of all
    users: the list is the name alone when the directory was empty, and
    the former list, a line break and the name otherwise. *)
Theorem list_all_users_after_add {U} `{UI U} (book : AddressBook.t) (u : U)
    (r : Rec.t) :
  PyDict.contains (value (Rec.name r)) (AddressBook.data book) = false ->
  fst (Bot.list_all_users (Bot.mk (snd (AddressBook.add_record r book)) u))
  = Return match AddressBook.data book with
           | [] => value (Rec.name r)
           | _ => (PyStr.join Console.newline (record_names book)
                   ++ Console.newline ++ value (Rec.name r))%string
           end
  /\ (AddressBook.data book <> [] ->
      fst (Bot.list_all_users (Bot.mk book u))
      = Return (PyStr.join Console.newline (record_names book))).
Proof.
  intros C. rewrite !list_all_users_eq. cbn [fst Bot.address_book]. split.
  - unfold AddressBook.add_record, bind, get, put.
    cbn [snd]. unfold record_names. cbn [AddressBook.data].
    rewrite (setitem_absent _ _ _ C).
    destruct (AddressBook.data book) as [|[k v] d]; [reflexivity|].
    cbn [app]. unfold PyDict.values. cbn [map snd]. rewrite !map_app.
    cbn [map snd]. f_equal.
    apply (join_snoc Console.newline (value (Rec.name v))
             (value (Rec.name r))
             (map (fun r0 => value (Rec.name r0)) (map snd d))).
  - intros N. destruct (AddressBook.data book); [contradiction|reflexivity].
Qed.

Lemma list_all_users_after_add_witness :
  fst (Bot.list_all_users
         (Bot.mk (snd (AddressBook.add_record ivan small_book)) typed_ivan))
  = Return match AddressBook.data small_book with
           | [] => value (Rec.name ivan)
           | _ => (PyStr.join Console.newline (record_names small_book)
                   ++ Console.newline ++ value (Rec.name ivan))%string
           end
  /\ (AddressBook.data small_book <> [] ->
      fst (Bot.list_all_users (Bot.mk small_book typed_ivan))
      = Return (PyStr.join Console.newline (record_names small_book))).
Proof.
  apply (list_all_users_after_add small_book typed_ivan ivan). reflexivity.
Defined.

Lemma bot_ok_kept_witness :
  bot_ok (Bot.address_book
            (snd (Bot.add_user 4 "Ivan" (Bot.mk ivan_book typed_ivan))))
  /\ bot_ok (Bot.address_book
               (snd (Bot.add_birthday "Ivan" "01.01.2000"
                       (Bot.mk ivan_book typed_ivan)))).
Proof.
  destruct (proj2 bot_ok_kept ivan_book typed_ivan ivan_book_ok) as [A B].
  split; [apply A|apply B].
Defined.
